(** * lol-pro-stats: the ingestion core, embedded and verified

    A shallow embedding of the Leaguepedia ingestion pipeline
    ([src/api/leaguepedia.py], [src/database/models.py],
    [src/database/repository.py], [src/services/player_service.py],
    [src/services/stats_service.py]) together with the properties its
    design document states about it and further properties of the
    code.

    Layout: the Python run-time notions the code relies on ([Py],
    [PyDict]); one module per source file; the notions used in the
    statements; the lemmas and theorems.

    Conventions of the embedding: Python ints are [Z]; Python floats are
    IEEE-754 binary64 values ([spec_float] at precision 53) with
    round-to-nearest-even arithmetic; an expression that may raise has a
    [res] type; the client's mutable state, the wiki and the effects
    ([time.sleep], HTTP exchanges, progress reports) are explicit; what
    [print] writes is not recorded. *)

From Stdlib Require Import ZArith String Ascii List Lia Bool Permutation.
From Stdlib Require Import Floats.SpecFloat.
From stdpp Require Import base option list gmap strings pretty.

Local Open Scope string_scope.
Local Open Scope list_scope.
Local Open Scope Z_scope.

(* ===================================================================== *)
(** * Python run-time model                                               *)
(* ===================================================================== *)

Module Py.

(** ** Values of a Cargo title object

    The fields of a result row are read as text ([str]) or as [None],
    the JSON [null]: the two kinds of value the parsing code provides
    for, with its string methods and its [if val], [if gl] and
    [.get(key, "")] guards, and the two that the Cargo extension puts
    in a title object. Rows with other JSON values in their fields
    (numbers, lists, objects) are outside the embedding. *)
Inductive pyval : Type :=
| PyNone
| PyStr (s : string).

#[export] Instance pyval_eq_dec : EqDecision pyval.
Proof. solve_decision. Defined.

(** [bool(v)]: [None] and the empty string are falsy. *)
Definition truthy (v : pyval) : bool :=
  match v with
  | PyNone => false
  | PyStr s => negb (String.eqb s "")
  end.

(** ** Exceptions *)
Inductive exn_class : Type :=
| RequestException      (* requests.exceptions.RequestException and subclasses *)
| ValueError
| TypeError
| AttributeError
| OverflowError
| ZeroDivisionError
| PlainException.       (* Exception(...) raised by the code itself, or any other class *)

#[export] Instance exn_class_eq_dec : EqDecision exn_class.
Proof. solve_decision. Defined.

(** An exception object: its class and [str(e)]. *)
Record exn : Type := Exn { exn_cls : exn_class; exn_msg : string }.

#[export] Instance exn_eq_dec : EqDecision exn.
Proof. solve_decision. Defined.

(** Outcome of evaluating an expression: a value, or a raised exception. *)
Inductive res (A : Type) : Type :=
| Ok (a : A)
| Raise (e : exn).
Arguments Ok {A} a.
Arguments Raise {A} e.

Definition res_bind {A B} (x : res A) (f : A -> res B) : res B :=
  match x with
  | Ok a => f a
  | Raise e => Raise e
  end.

(** ** Strings

    A string is a sequence of characters below U+0100, one [ascii] for
    each character. *)

(** ASCII case folding, the one SQLite applies in [LIKE] and
    [COLLATE NOCASE]. *)
Definition ascii_lower (c : ascii) : ascii :=
  let n := nat_of_ascii c in
  if ((65 <=? n)%nat && (n <=? 90)%nat)%bool then ascii_of_nat (n + 32) else c.

(** [c.lower()]: the capitals are A..Z and U+00C0..U+00DE without the
    multiplication sign U+00D7; each has its small letter 32 places
    further on. *)
Definition char_lower (c : ascii) : ascii :=
  let n := nat_of_ascii c in
  if ((65 <=? n)%nat && (n <=? 90)%nat)
     || ((192 <=? n)%nat && (n <=? 222)%nat && negb (n =? 215)%nat)
  then ascii_of_nat (n + 32) else c.

(** [c.upper()]: the small letters are a..z and U+00E0..U+00FE without
    the division sign U+00F7; the sharp s U+00DF becomes "SS". The
    capitals of the micro sign U+00B5 and of U+00FF are U+039C and
    U+0178, beyond the characters of a string here, and the two are
    left as they are. No other character has one of the two as its
    capital, so two upper-cased texts are equal here exactly when they
    are in Python, and so are an upper-cased text and an ASCII one. *)
Definition char_upper (c : ascii) : string :=
  let n := nat_of_ascii c in
  if (n =? 223)%nat then "SS"
  else if ((97 <=? n)%nat && (n <=? 122)%nat)
          || ((224 <=? n)%nat && (n <=? 254)%nat && negb (n =? 247)%nat)
  then String (ascii_of_nat (n - 32)) EmptyString
  else String c EmptyString.

Fixpoint lower (s : string) : string :=
  match s with
  | EmptyString => EmptyString
  | String c s' => String (char_lower c) (lower s')
  end.

Fixpoint upper (s : string) : string :=
  match s with
  | EmptyString => EmptyString
  | String c s' => char_upper c +:+ upper s'
  end.

(** [sub in s] on strings: [sub] occurs as a contiguous substring of [s]. *)
Fixpoint contains (sub s : string) : bool :=
  String.prefix sub s ||
  match s with
  | EmptyString => false
  | String _ s' => contains sub s'
  end.

(** [sep.join(parts)] *)
Fixpoint join (sep : string) (parts : list string) : string :=
  match parts with
  | [] => ""
  | [p] => p
  | p :: ps => p +:+ sep +:+ join sep ps
  end.

(** ** [repr(s)]

    The quotes are single unless the string holds a single quote and no
    double one. The quote in use and the backslash are escaped; tab,
    line feed and carriage return have their letters; every other
    character that is not printable (the controls, U+007F..U+00A0 and
    the soft hyphen U+00AD) is written [\xNN]. *)
Definition double_quote : ascii := ascii_of_nat 34.
Definition single_quote : ascii := ascii_of_nat 39.
Definition backslash : ascii := ascii_of_nat 92.

Definition hex_digit (n : nat) : ascii :=
  nth n (list_ascii_of_string "0123456789abcdef") "0"%char.

Definition printable (c : ascii) : bool :=
  let n := nat_of_ascii c in
  ((32 <=? n)%nat && (n <? 127)%nat) || ((161 <=? n)%nat && negb (n =? 173)%nat).

Definition repr_char (quote c : ascii) : string :=
  let n := nat_of_ascii c in
  if Ascii.eqb c quote || Ascii.eqb c backslash then String backslash (String c EmptyString)
  else if (n =? 9)%nat then String backslash "t"
  else if (n =? 10)%nat then String backslash "n"
  else if (n =? 13)%nat then String backslash "r"
  else if printable c then String c EmptyString
  else String backslash
         (String "x" (String (hex_digit (n / 16)) (String (hex_digit (n mod 16)) EmptyString))).

Fixpoint repr_body (quote : ascii) (s : string) : string :=
  match s with
  | EmptyString => String quote EmptyString
  | String c s' => repr_char quote c +:+ repr_body quote s'
  end.

Definition repr (s : string) : string :=
  let quote :=
    if contains (String single_quote EmptyString) s
       && negb (contains (String double_quote EmptyString) s)
    then double_quote else single_quote in
  String quote (repr_body quote s).

(** ** White space

    [str.strip()] removes the characters of [str.isspace()]: tab to
    carriage return, the four separators U+001C..U+001F, the space,
    U+0085 and the no-break space U+00A0. *)
Definition is_space (c : ascii) : bool :=
  let n := nat_of_ascii c in
  ((9 <=? n)%nat && (n <=? 13)%nat) || ((28 <=? n)%nat && (n <=? 32)%nat)
  || (n =? 133)%nat || (n =? 160)%nat.

Fixpoint lstrip (l : list ascii) : list ascii :=
  match l with
  | c :: l' => if is_space c then lstrip l' else l
  | [] => []
  end.

Definition strip (l : list ascii) : list ascii :=
  rev (lstrip (rev (lstrip l))).

(** ** [int(s)] on a string, base 10

    White space around the literal is skipped; for [int] that is tab to
    carriage return, the space, U+0085 and U+00A0, but not the
    separators U+001C..U+001F. Then come an optional sign and a
    non-empty run of decimal digits in which single underscores may
    separate digits. A run of more than 4300 digits is refused before
    what follows it is looked at. *)
Definition is_int_space (c : ascii) : bool :=
  let n := nat_of_ascii c in
  ((9 <=? n)%nat && (n <=? 13)%nat) || (n =? 32)%nat || (n =? 133)%nat || (n =? 160)%nat.

Fixpoint skip_spaces (l : list ascii) : list ascii :=
  match l with
  | c :: l' => if is_int_space c then skip_spaces l' else l
  | [] => []
  end.

Definition digit_of (c : ascii) : option Z :=
  let n := nat_of_ascii c in
  if ((48 <=? n)%nat && (n <=? 57)%nat)%bool then Some (Z.of_nat (n - 48)) else None.

(** [digits acc count after_digit l] reads the run of digits and
    underscores at the head of [l]: its value after [acc], the number
    of its digits after [count], and what follows it. [after_digit]
    tells whether the previous character was a digit, the only place
    where an underscore or the end of the run is allowed; [None] is an
    underscore out of place. *)
Fixpoint digits (acc count : Z) (after_digit : bool) (l : list ascii)
  : option (Z * Z * list ascii) :=
  match l with
  | [] => if after_digit || (count =? 0) then Some (acc, count, []) else None
  | c :: l' =>
      match digit_of c with
      | Some d => digits (10 * acc + d) (count + 1) true l'
      | None =>
          if Ascii.eqb c "_"
          then if after_digit then digits acc count false l' else None
          else if after_digit || (count =? 0) then Some (acc, count, l) else None
      end
  end.

(** [sys.int_info.default_max_str_digits] *)
Definition int_max_str_digits : Z := 4300.

Inductive int_literal : Type :=
| IntValue (n : Z)
| IntInvalid
| IntTooLong (count : Z).

Definition read_int (s : string) : int_literal :=
  let l := skip_spaces (list_ascii_of_string s) in
  let '(negative, l) :=
    match l with
    | c :: l' =>
        if Ascii.eqb c "-" then (true, l')
        else if Ascii.eqb c "+" then (false, l')
        else (false, l)
    | [] => (false, [])
    end in
  match digits 0 0 false l with
  | None => IntInvalid
  | Some (n, count, rest) =>
      if int_max_str_digits <? count then IntTooLong count
      else if count =? 0 then IntInvalid
      else
        match skip_spaces rest with
        | [] => IntValue (if negative : bool then - n else n)
        | _ :: _ => IntInvalid
        end
  end.

(** [int(s)], with [None] for the [ValueError]. *)
Definition int_of_string (s : string) : option Z :=
  match read_int s with
  | IntValue n => Some n
  | _ => None
  end.

(** [int(s)], with the exception. The message shows at most 200
    characters of [repr(s)]. *)
Definition int_of_str (s : string) : res Z :=
  match read_int s with
  | IntValue n => Ok n
  | IntInvalid =>
      Raise (Exn ValueError
               ("invalid literal for int() with base 10: "
                +:+ String.substring 0 200 (repr s)))
  | IntTooLong count =>
      Raise (Exn ValueError
               ("Exceeds the limit (4300 digits) for integer string conversion: value has "
                +:+ pretty count
                +:+ " digits; use sys.set_int_max_str_digits() to increase the limit"))
  end.

(** ** Floats: IEEE-754 binary64, round to nearest even *)
Definition float : Type := spec_float.
Definition prec : Z := 53.
Definition emax : Z := 1024.

#[export] Instance float_eq_dec : EqDecision float.
Proof. unfold float. solve_decision. Defined.

Definition float_zero : float := S754_zero false.

(** [x + y] and [x * y] on floats never raise. *)
Definition float_add (x y : float) : float := SFadd prec emax x y.
Definition float_mul (x y : float) : float := SFmul prec emax x y.

Definition is_zero (x : float) : bool :=
  match x with
  | S754_zero _ => true
  | _ => false
  end.

Definition is_infinite (x : float) : bool :=
  match x with
  | S754_infinity _ => true
  | _ => false
  end.

(** [x == 0] for a float [x]: true of both signed zeros, false of NaN. *)
Definition float_eq_zero (x : float) : bool := SFeqb x float_zero.

(** [x / y] on floats. *)
Definition float_div (x y : float) : res float :=
  if is_zero y then Raise (Exn ZeroDivisionError "float division by zero")
  else Ok (SFdiv prec emax x y).

(** [float(n)] for an int: the nearest float, [OverflowError] beyond the
    largest finite one. *)
Definition float_of_int (n : Z) : res float :=
  let x := binary_normalize prec emax n 0 false in
  if is_infinite x then Raise (Exn OverflowError "int too large to convert to float")
  else Ok x.

(** An int as an (unnormalised) mantissa with exponent 0. *)
Definition int_as_SF (n : Z) : spec_float :=
  match n with
  | Z0 => S754_zero false
  | Zpos p => S754_finite false p 0
  | Zneg p => S754_finite true p 0
  end.

(** [a / b] on ints (true division): the correctly rounded quotient. *)
Definition int_truediv (a b : Z) : res float :=
  if b =? 0 then Raise (Exn ZeroDivisionError "division by zero")
  else
    let q := SFdiv prec emax (int_as_SF a) (int_as_SF b) in
    if is_infinite q then Raise (Exn OverflowError "integer division result too large for a float")
    else Ok q.

(** The rational value of a finite float, as numerator and power of two:
    [Some (m, e)] stands for [m * 2^e]. *)
Definition float_value (x : float) : option (Z * Z) :=
  match x with
  | S754_zero _ => Some (0, 0)
  | S754_finite s m e => Some (cond_Zopp s (Zpos m), e)
  | _ => None
  end.

(** [x] is finite and its value is exactly the integer [n]. *)
Definition float_is_int (x : float) (n : Z) : Prop :=
  match float_value x with
  | Some (m, e) => if 0 <=? e then n = m * 2 ^ e else m = n * 2 ^ (- e)
  | None => False
  end.

End Py.

(** ** Insertion-ordered dictionaries

    A Python [dict] keeps its keys in the order of first insertion, and
    iteration follows that order; assigning to an existing key updates the
    value in place. *)
Module PyDict.
Section Dict.
Context {K V : Type} `{EqDecision K}.

Definition dict : Type := list (K * V).

Fixpoint get (d : dict) (k : K) : option V :=
  match d with
  | [] => None
  | (k', v) :: d' => if decide (k' = k) then Some v else get d' k
  end.

(** [d[k] = v] *)
Fixpoint set (d : dict) (k : K) (v : V) : dict :=
  match d with
  | [] => [(k, v)]
  | (k', v') :: d' =>
      if decide (k' = k) then (k', v) :: d' else (k', v') :: set d' k v
  end.

Definition keys (d : dict) : list K := map fst d.
End Dict.
Arguments dict K V : clear implicits.
End PyDict.

(* ===================================================================== *)
(** * src/config.py                                                       *)
(* ===================================================================== *)

Module Config.
Definition API_MAX_LIMIT : Z := 500.
Definition API_MAX_RETRIES : nat := 5.
Definition BOT_USERNAME : string := "Joshiro2@joshiro2".
Definition BOT_PASSWORD : string := "nt7d3cf1hvk2ibkka76030udifbs0td1".
End Config.

(* ===================================================================== *)
(** * src/api/leaguepedia.py: records, row normalisation, aggregation     *)
(* ===================================================================== *)

Module Leaguepedia.
Import Py.

(** A raw result row: the [title] object of one Cargo result. *)
Abbreviation row := (gmap string pyval).

(** [r.get(key, default)] and [r.get(key)]. *)
Definition get_or (r : row) (key : string) (default : pyval) : pyval :=
  match r !! key with
  | Some v => v
  | None => default
  end.

Definition get (r : row) (key : string) : pyval := get_or r key PyNone.

(** [@dataclass class GameStats]. The text fields hold whatever the row
    held, so they range over [pyval]. *)
Record GameStats : Type := {
  game_id : pyval;
  player_name : pyval;
  role : pyval;
  team : pyval;
  champion : pyval;
  kills : Z;
  deaths : Z;
  assists : Z;
  gold : Z;
  cs : Z;
  damage : Z;
  won : bool;
  game_length_minutes : float
}.

(** [30.0] *)
Definition default_game_length : float := S754_finite false 8444249301319680 (-48).

(** [v.lower()]: only strings have the method. *)
Definition lower_method (v : pyval) : res string :=
  match v with
  | PyStr s => Ok (lower s)
  | PyNone => Raise (Exn AttributeError "'NoneType' object has no attribute 'lower'")
  end.

(** [player_win in ("yes", "1", "true")] *)
Definition truthy_token (player_win : string) : bool :=
  String.eqb player_win "yes" || String.eqb player_win "1" || String.eqb player_win "true".

(** The nested helper [safe_int(val, default=0)]:
    [int(val) if val else default], with [ValueError] and [TypeError]
    answered by [default]. *)
Definition safe_int (val : pyval) (default : Z) : Z :=
  if truthy val then
    match val with
    | PyStr s =>
        match int_of_string s with
        | Some n => n
        | None => default
        end
    | PyNone => default
    end
  else default.

Section Normalizer.
(** [float(s)] on a string is the run-time's decimal-to-binary
    conversion; [None] stands for [ValueError]. *)
Variable float_of_string : string -> option float.

(** The [game_length] block: default [30.0], replaced by [float(gl)]
    when [gl] is truthy and converts. *)
Definition parse_game_length (gl : pyval) : float :=
  if truthy gl then
    match gl with
    | PyStr s =>
        match float_of_string s with
        | Some x => x
        | None => default_game_length
        end
    | PyNone => default_game_length
    end
  else default_game_length.

(** The body of the [try] in the row loop, up to the construction of
    [stats]. *)
Definition parse_row (r : row) : res GameStats :=
  res_bind (lower_method (get_or r "PlayerWin" (PyStr ""))) (fun player_win =>
  let won := truthy_token player_win in
  let game_length := parse_game_length (get r "Gamelength Number") in
  Ok {| game_id := get_or r "GameId" (PyStr "");
        player_name := get_or r "Link" (PyStr "");
        role := get_or r "Role" (PyStr "");
        team := get_or r "Team" (PyStr "");
        champion := get_or r "Champion" (PyStr "");
        kills := safe_int (get r "Kills") 0;
        deaths := safe_int (get r "Deaths") 0;
        assists := safe_int (get r "Assists") 0;
        gold := safe_int (get r "Gold") 0;
        cs := safe_int (get r "CS") 0;
        damage := safe_int (get r "DamageToChampions") 0;
        won := won;
        game_length_minutes := game_length |}).

(** One turn of [for r in results]: append [stats] when it has a
    player name; an exception is printed and the row skipped. *)
Definition normalize_step (game_stats : list GameStats) (r : row) : list GameStats :=
  match parse_row r with
  | Ok stats => if truthy (player_name stats) then game_stats ++ [stats] else game_stats
  | Raise _ => game_stats
  end.

Definition normalize_rows (results : list row) : list GameStats :=
  fold_left normalize_step results [].
End Normalizer.

(** ** [aggregate_player_stats] *)

(** The per-player dictionary built by the aggregator. *)
Module Totals.
Record t : Type := {
  ign : pyval;
  role : pyval;
  team : pyval;
  games_played : Z;
  wins : Z;
  kills : Z;
  deaths : Z;
  assists : Z;
  total_gold : Z;
  total_cs : Z;
  total_damage : Z;
  total_minutes : float
}.
End Totals.

(** The entry created at a player's first occurrence. *)
Definition fresh_totals (gs : GameStats) : Totals.t :=
  {| Totals.ign := player_name gs;
     Totals.role := role gs;
     Totals.team := team gs;
     Totals.games_played := 0;
     Totals.wins := 0;
     Totals.kills := 0;
     Totals.deaths := 0;
     Totals.assists := 0;
     Totals.total_gold := 0;
     Totals.total_cs := 0;
     Totals.total_damage := 0;
     Totals.total_minutes := float_zero |}.

(** The in-place updates of [p] for one game. *)
Definition add_game (p : Totals.t) (gs : GameStats) : Totals.t :=
  {| Totals.ign := Totals.ign p;
     Totals.role := if truthy (role gs) then role gs else Totals.role p;
     Totals.team := if truthy (team gs) then team gs else Totals.team p;
     Totals.games_played := Totals.games_played p + 1;
     Totals.wins := Totals.wins p + (if won gs then 1 else 0);
     Totals.kills := Totals.kills p + kills gs;
     Totals.deaths := Totals.deaths p + deaths gs;
     Totals.assists := Totals.assists p + assists gs;
     Totals.total_gold := Totals.total_gold p + gold gs;
     Totals.total_cs := Totals.total_cs p + cs gs;
     Totals.total_damage := Totals.total_damage p + damage gs;
     Totals.total_minutes := float_add (Totals.total_minutes p) (game_length_minutes gs) |}.

(** One turn of [for gs in game_stats]. *)
Definition aggregate_step (players : PyDict.dict pyval Totals.t) (gs : GameStats)
  : PyDict.dict pyval Totals.t :=
  let name := player_name gs in
  let p :=
    match PyDict.get players name with
    | Some p => p
    | None => fresh_totals gs
    end in
  PyDict.set players name (add_game p gs).

Definition aggregate_player_stats (game_stats : list GameStats)
  : PyDict.dict pyval Totals.t :=
  fold_left aggregate_step game_stats [].

End Leaguepedia.

(* ===================================================================== *)
(** * src/database/models.py                                              *)
(* ===================================================================== *)

Module Models.
Import Py.

(** A time stamp, in whole seconds (the resolution of SQLite's
    [CURRENT_TIMESTAMP]). *)
Definition datetime : Type := Z.

(** [@dataclass class Player]. [total_minutes] is a float, or [None] in
    a player that [from_row] built from a row without a value in that
    column. *)
Record Player : Type := {
  ign : pyval;
  role : pyval;
  team : pyval;
  games_played : Z;
  wins : Z;
  kills : Z;
  deaths : Z;
  assists : Z;
  total_gold : Z;
  total_cs : Z;
  total_damage : Z;
  total_minutes : option float;
  id : option Z;
  last_updated : option datetime
}.

(** [100] as a float *)
Definition float_100 : float := S754_finite false 7036874417766400 (-46).

Definition win_rate (self : Player) : res float :=
  if games_played self =? 0 then Ok float_zero
  else res_bind (int_truediv (wins self) (games_played self)) (fun q =>
       Ok (float_mul q float_100)).

Definition kda (self : Player) : res float :=
  let deaths := Z.max (deaths self) 1 in
  int_truediv (kills self + assists self) deaths.

(** [total / self.total_minutes] for an int [total], behind the guard
    [self.total_minutes == 0]. [None] does not equal 0 and does not
    divide. *)
Definition per_minute (total : Z) (self : Player) : res float :=
  match total_minutes self with
  | Some minutes =>
      if float_eq_zero minutes then Ok float_zero
      else res_bind (float_of_int total) (fun x => float_div x minutes)
  | None =>
      Raise (Exn TypeError "unsupported operand type(s) for /: 'int' and 'NoneType'")
  end.

Definition gold_per_min (self : Player) : res float := per_minute (total_gold self) self.
Definition cs_per_min (self : Player) : res float := per_minute (total_cs self) self.
Definition dmg_per_min (self : Player) : res float := per_minute (total_damage self) self.

(** [total / self.games_played] for an int [total]. *)
Definition per_game (total : Z) (self : Player) : res float :=
  if games_played self =? 0 then Ok float_zero
  else int_truediv total (games_played self).

Definition avg_kills (self : Player) : res float := per_game (kills self) self.
Definition avg_deaths (self : Player) : res float := per_game (deaths self) self.
Definition avg_assists (self : Player) : res float := per_game (assists self) self.

(** [player.id = n] *)
Definition set_id (self : Player) (n : option Z) : Player :=
  {| ign := ign self; role := role self; team := team self;
     games_played := games_played self; wins := wins self;
     kills := kills self; deaths := deaths self; assists := assists self;
     total_gold := total_gold self; total_cs := total_cs self;
     total_damage := total_damage self; total_minutes := total_minutes self;
     id := n; last_updated := last_updated self |}.
End Models.

(* ===================================================================== *)
(** * src/database/connection.py and src/database/repository.py           *)
(* ===================================================================== *)

Module Repository.
Import Py.
Import Models.

(** A row of the [players] table. [ign] and [role] are declared
    [NOT NULL], so they are strings; [team] and [total_minutes] may be
    [NULL]. The integer columns hold the values as they were bound. *)
Module Row.
Record t : Type := {
  id : Z;
  ign : string;
  role : string;
  team : pyval;
  games_played : Z;
  wins : Z;
  kills : Z;
  deaths : Z;
  assists : Z;
  total_gold : Z;
  total_cs : Z;
  total_damage : Z;
  total_minutes : option float;
  last_updated : datetime
}.
End Row.

(** The database: the table in row order, and the [AUTOINCREMENT]
    counter kept in [sqlite_sequence]. *)
Record db : Type := { players : list Row.t; seq : Z }.

Definition empty_db : db := {| players := []; seq := 0 |}.

(** [Player.from_row(dict(row))] *)
Definition from_row (r : Row.t) : Player :=
  {| Models.ign := PyStr (Row.ign r);
     Models.role := PyStr (Row.role r);
     Models.team := Row.team r;
     Models.games_played := Row.games_played r;
     Models.wins := Row.wins r;
     Models.kills := Row.kills r;
     Models.deaths := Row.deaths r;
     Models.assists := Row.assists r;
     Models.total_gold := Row.total_gold r;
     Models.total_cs := Row.total_cs r;
     Models.total_damage := Row.total_damage r;
     Models.total_minutes := Row.total_minutes r;
     Models.id := Some (Row.id r);
     Models.last_updated := Some (Row.last_updated r) |}.

(** [SELECT * FROM players WHERE ign = ?] followed by [fetchone()].
    A [NULL] parameter equals nothing. *)
Definition get_by_ign (d : db) (ign : pyval) : option Player :=
  match ign with
  | PyNone => None
  | PyStr s => from_row <$> List.find (fun r => String.eqb (Row.ign r) s) (players d)
  end.

(** Binding an int to a statement: SQLite integers are 64-bit, and a
    larger Python int raises [OverflowError]. The key bound by [update]
    comes from the table and is taken to fit. *)
Definition fits_int64 (n : Z) : bool := (- 2 ^ 63 <=? n) && (n <? 2 ^ 63).

Definition ints_bind (p : Player) : bool :=
  forallb fits_int64
    [games_played p; wins p; kills p; deaths p; assists p;
     total_gold p; total_cs p; total_damage p].

Definition overflow_msg : string := "Python int too large to convert to SQLite INTEGER".

(** What a [REAL] column keeps of a bound value: SQLite stores NaN as
    [NULL], and a zero without its sign. *)
Definition sql_real (x : option float) : option float :=
  match x with
  | Some S754_nan => None
  | Some (S754_zero _) => Some (S754_zero false)
  | _ => x
  end.

(** The column values a statement binds from [player], subject to the
    [NOT NULL] constraints; the error is the message of the
    [IntegrityError]. *)
Definition bind_row (player : Player) (rowid : Z) (now : datetime) : string + Row.t :=
  match Models.ign player, Models.role player with
  | PyNone, _ => inl "NOT NULL constraint failed: players.ign"
  | _, PyNone => inl "NOT NULL constraint failed: players.role"
  | PyStr i, PyStr r =>
      inr {| Row.id := rowid; Row.ign := i; Row.role := r;
             Row.team := Models.team player;
             Row.games_played := games_played player;
             Row.wins := wins player;
             Row.kills := kills player;
             Row.deaths := deaths player;
             Row.assists := assists player;
             Row.total_gold := total_gold player;
             Row.total_cs := total_cs player;
             Row.total_damage := total_damage player;
             Row.total_minutes := sql_real (total_minutes player);
             Row.last_updated := now |}
  end.

Definition max_rowid (rows : list Row.t) : Z :=
  fold_right (fun r m => Z.max (Row.id r) m) 0 rows.

(** Result of a repository write: [(success, error_message)], the
    player object as the call leaves it, and the database. *)
Definition write_result : Type := (bool * option string) * Player * db.

(** [add]: [INSERT INTO players (...)]. The row id is one above the
    largest ever used; [last_updated] takes its default,
    [CURRENT_TIMESTAMP]. Any exception is returned as [(False, str(e))]
    and leaves the table as it was. *)
Definition add (now : datetime) (player : Player) (d : db) : write_result :=
  if negb (ints_bind player) then ((false, Some overflow_msg), player, d)
  else
    let rowid := Z.max (seq d) (max_rowid (players d)) + 1 in
    match bind_row player rowid now with
    | inl msg => ((false, Some msg), player, d)
    | inr r =>
        if existsb (fun r' => String.eqb (Row.ign r') (Row.ign r)) (players d)
        then ((false, Some "UNIQUE constraint failed: players.ign"), player, d)
        else ((true, None), set_id player (Some rowid),
              {| players := players d ++ [r]; seq := rowid |})
    end.

(** [update]: [UPDATE players SET ..., last_updated = CURRENT_TIMESTAMP
    WHERE id = ?]. The constraints are checked for the rows the
    statement touches. *)
Definition update (now : datetime) (player : Player) (d : db) : write_result :=
  match Models.id player with
  | None => ((false, Some "Player ID is required for update"), player, d)
  | Some rowid =>
      if negb (ints_bind player) then ((false, Some overflow_msg), player, d)
      else if negb (existsb (fun r' => Row.id r' =? rowid) (players d))
      then ((true, None), player, d)
      else
        match bind_row player rowid now with
        | inl msg => ((false, Some msg), player, d)
        | inr r =>
            if existsb (fun r' => negb (Row.id r' =? rowid)
                                  && String.eqb (Row.ign r') (Row.ign r)) (players d)
            then ((false, Some "UNIQUE constraint failed: players.ign"), player, d)
            else ((true, None), player,
                  {| players := map (fun r' => if Row.id r' =? rowid then r else r') (players d);
                     seq := seq d |})
        end
  end.

(** [upsert] *)
Definition upsert (now : datetime) (player : Player) (d : db) : write_result :=
  match get_by_ign d (Models.ign player) with
  | Some existing => update now (set_id player (Models.id existing)) d
  | None => add now player d
  end.

End Repository.

(* ===================================================================== *)
(** * src/api/leaguepedia.py: the stateful client                         *)
(* ===================================================================== *)

Module LeaguepediaClient.
Import Py.
Import Leaguepedia.

(** ** The wiki, seen from the client *)

(** The [error] object of a response body, with the defaults of
    [.get("code", "")] and [.get("info", "Unknown error")] applied. *)
Record api_error : Type := { code : string; info : string }.

(** What the client reads from a decoded JSON body:
    [data.get("query", {}).get("tokens", {}).get("logintoken")],
    [result.get("login", {}).get("result")], [data["error"]] when the key
    is present, and the [title] objects of [data.get("cargoquery", [])]. *)
Record body : Type := {
  logintoken : pyval;
  login_result : pyval;
  error : option api_error;
  cargoquery : list row
}.

(** One HTTP exchange ([session.get]/[session.post], [raise_for_status],
    [response.json()]) and the reading of the body: an exception is
    raised, or the body is decoded and read. *)
Inductive http_outcome : Type :=
| Raises (e : exn)
| Json (data : body).

(** The shape of a Cargo query. An empty [where], [join_on], [order_by]
    or [group_by] is left out of the request parameters. *)
Record query : Type := {
  tables : string;
  fields : string;
  where_ : string;
  join_on : string;
  order_by : string;
  group_by : string
}.

Inductive request : Type :=
| GetLoginToken
| PostLogin (lgname lgpassword : string) (lgtoken : pyval)
| GetCargo (q : query) (limit offset : Z).

(** Stages reported to the import's progress observer. *)
Inductive stage : Type :=
| Fetching | Fetched | Aggregating | Saving | Saved | Complete.

(** Observable effects, oldest first. *)
Inductive event : Type :=
| Throttled                       (* [_rate_limit()] *)
| Sent (r : request)              (* an HTTP exchange was started *)
| Slept (seconds : Z)             (* [time.sleep(wait_time)] of the retry loop *)
| Progress (s : stage) (current total : Z).

(** The client object, with the number of exchanges it has performed
    and the trace of its effects. *)
Record client : Type := {
  is_logged_in : bool;
  exchanges : nat;
  log : list event
}.

Definition new_client : client :=
  {| is_logged_in := false; exchanges := 0; log := [] |}.

(** Computations over the client: mutations survive an exception. *)
Definition M (A : Type) : Type := client -> res A * client.

Definition ret {A} (a : A) : M A := fun c => (Ok a, c).

Definition raise {A} (e : exn) : M A := fun c => (Raise e, c).

Definition bind {A B} (m : M A) (k : A -> M B) : M B :=
  fun c =>
    match m c with
    | (Ok a, c') => k a c'
    | (Raise e, c') => (Raise e, c')
    end.

Notation "'let*' x ':=' m 'in' k" := (bind m (fun x => k))
  (at level 10, x name, m at level 100, k at level 200).
Notation "m ';;' k" := (bind m (fun _ => k))
  (at level 100, k at level 200, right associativity).

(** [try: m except Exception: handler] *)
Definition try_except {A} (m : M A) (handler : exn -> M A) : M A :=
  fun c =>
    match m c with
    | (Ok a, c') => (Ok a, c')
    | (Raise e, c') => handler e c'
    end.

(** The client after the effect [ev] has been observed. *)
Definition record (ev : event) (c : client) : client :=
  {| is_logged_in := is_logged_in c;
     exchanges := exchanges c;
     log := log c ++ [ev] |}.

Definition emit (ev : event) : M unit :=
  fun c => (Ok tt, record ev c).

Definition set_logged_in : M unit :=
  fun c => (Ok tt, {| is_logged_in := true;
                      exchanges := exchanges c;
                      log := log c |}).

Section Client.
(** The wiki: the outcome of the [n]-th exchange of the session, given
    the request sent. *)
Variable server : nat -> request -> http_outcome.

Definition exchange (r : request) : M body :=
  fun c =>
    let c' := {| is_logged_in := is_logged_in c;
                 exchanges := S (exchanges c);
                 log := log c ++ [Sent r] |} in
    match server (exchanges c) r with
    | Raises e => (Raise e, c')
    | Json data => (Ok data, c')
    end.

(** [_rate_limit]: blocks until the minimum delay since the previous
    request has passed. *)
Definition _rate_limit : M unit := emit Throttled.

Definition login : M bool :=
  fun c =>
    if is_logged_in c then (Ok true, c)
    else
      try_except
        (_rate_limit ;;
         let* data := exchange GetLoginToken in
         let login_token := logintoken data in
         if negb (truthy login_token) then ret false
         else
           _rate_limit ;;
           let* result :=
             exchange (PostLogin Config.BOT_USERNAME Config.BOT_PASSWORD login_token) in
           if decide (login_result result = PyStr "Success")
           then set_logged_in ;; ret true
           else ret false)
        (fun _ => ret false)
        c.

(** One turn of [for attempt in range(API_MAX_RETRIES)]:
    [Some rows] is [return rows], [None] goes on to the next attempt. *)
Definition attempt_once (r : request) (attempt : nat) : M (option (list row)) :=
  fun c =>
    match (_rate_limit ;; exchange r) c with
    | (Ok data, c') =>
        match error data with
        | Some err =>
            if String.eqb (code err) "ratelimited"
            then (emit (Slept (5 * (Z.of_nat attempt + 1))) ;; ret None) c'
            else (Raise (Exn PlainException ("API error: " +:+ info err)), c')
        | None => (Ok (Some (cargoquery data)), c')
        end
    | (Raise e, c') =>
        if decide (exn_cls e = RequestException) then
          if (attempt <? Config.API_MAX_RETRIES - 1)%nat
          then (emit (Slept (3 * (Z.of_nat attempt + 1))) ;; ret None) c'
          else (Raise e, c')
        else (Raise e, c')
    end.

(** The [for] loop; falling out of it reaches [return []]. *)
Fixpoint retry_loop (r : request) (attempts : list nat) : M (list row) :=
  match attempts with
  | [] => ret []
  | attempt :: rest =>
      let* outcome := attempt_once r attempt in
      match outcome with
      | Some rows => ret rows
      | None => retry_loop r rest
      end
  end.

(** [if not self.is_logged_in: self.login()]; the answer of [login] is
    not looked at. *)
Definition ensure_logged_in : M unit :=
  fun c => if is_logged_in c then (Ok tt, c)
           else let '(_, c') := login c in (Ok tt, c').

Definition _cargo_query (q : query) (limit offset : Z) : M (list row) :=
  ensure_logged_in ;;
  retry_loop (GetCargo q (Z.min limit Config.API_MAX_LIMIT) offset)
             (List.seq 0 Config.API_MAX_RETRIES).

Definition max_results : Z := 2500.

(** The [while True] loop of [_cargo_query_all], with a bound on the
    number of turns; [None] means the bound was reached. *)
Fixpoint query_all_loop (fuel : nat) (q : query)
    (progress_callback : option (Z -> M unit))
    (all_results : list row) (offset : Z) : M (option (list row)) :=
  match fuel with
  | O => ret None
  | S fuel' =>
      let* results := _cargo_query q Config.API_MAX_LIMIT offset in
      let all_results := all_results ++ results in
      match progress_callback with
      | Some f => f (Z.of_nat (length all_results))
      | None => ret tt
      end ;;
      if (Z.of_nat (length results) <? Config.API_MAX_LIMIT)
         || (max_results <=? Z.of_nat (length all_results))
      then ret (Some (firstn (Z.to_nat max_results) all_results))
      else query_all_loop fuel' q progress_callback all_results
                          (offset + Config.API_MAX_LIMIT)
  end.

(** Five turns always suffice (lemma [query_all_loop_fuel]). *)
Definition _cargo_query_all (q : query) (progress_callback : option (Z -> M unit))
  : M (list row) :=
  let* r := query_all_loop 5 q progress_callback [] 0 in
  match r with
  | Some rows => ret rows
  | None => ret []
  end.
End Client.

(** ** The WHERE clause of [fetch_player_game_stats] *)

Definition tier2_exclusions : list string :=
  [ "SP.OverviewPage NOT LIKE '%Academy%'";
    "SP.OverviewPage NOT LIKE '%Challengers%'";
    "SP.OverviewPage NOT LIKE '%Amateur%'";
    "SP.OverviewPage NOT LIKE '%CL%'";
    "SP.OverviewPage NOT LIKE '%LDL%'";
    "SP.OverviewPage NOT LIKE '%LTAN%'";
    "SP.OverviewPage NOT LIKE '%LTAS%'";
    "SP.OverviewPage NOT LIKE '%NLC%'";
    "SP.OverviewPage NOT LIKE '%Prime%League%'";
    "SP.OverviewPage NOT LIKE '%Ultraliga%'";
    "SP.OverviewPage NOT LIKE '%SuperLiga%'";
    "SP.OverviewPage NOT LIKE '%LFL%'";
    "SP.OverviewPage NOT LIKE '%LVP%'";
    "SP.OverviewPage NOT LIKE '%PCS%'";
    "SP.OverviewPage NOT LIKE '%VCS%'";
    "SP.OverviewPage NOT LIKE '%LJL%'";
    "SP.OverviewPage NOT LIKE '%LLA%'";
    "SP.OverviewPage NOT LIKE '%CBLOL%'";
    "SP.OverviewPage NOT LIKE '%LCO%'";
    "SP.OverviewPage NOT LIKE '%TCL%'" ].


Definition lcs_lta_pattern (year : string) : string :=
  "(SP.OverviewPage LIKE '%LTA%" +:+ year +:+ "%' OR SP.OverviewPage LIKE '%LCS%" +:+ year
  +:+ "%' OR SP.OverviewPage LIKE '%Americas%" +:+ year +:+ "%')".

Definition lck_pattern (year : string) : string :=
  "(SP.OverviewPage LIKE 'LCK/" +:+ year +:+ "%' OR SP.OverviewPage LIKE 'LCK " +:+ year
  +:+ "%' OR SP.OverviewPage LIKE '%LCK%Cup%" +:+ year +:+ "%')".

Definition lpl_pattern (year : string) : string :=
  "(SP.OverviewPage LIKE 'LPL/" +:+ year +:+ "%' OR SP.OverviewPage LIKE 'LPL " +:+ year +:+ "%')".

Definition lec_pattern (year : string) : string :=
  "(SP.OverviewPage LIKE 'LEC/" +:+ year +:+ "%' OR SP.OverviewPage LIKE 'LEC " +:+ year +:+ "%')".

Definition worlds_pattern (year : string) : string :=
  "(SP.OverviewPage LIKE '%" +:+ year +:+ "%Season%World%Championship%' OR SP.OverviewPage LIKE '%World%Championship%"
  +:+ year +:+ "%' OR SP.OverviewPage LIKE '%Worlds%" +:+ year
  +:+ "%' OR SP.OverviewPage LIKE '%" +:+ year +:+ "%Worlds%')".

Definition msi_pattern (year : string) : string :=
  "(SP.OverviewPage LIKE '%" +:+ year +:+ "%Mid%Season%Invitational%' OR SP.OverviewPage LIKE '%MSI%"
  +:+ year +:+ "%' OR SP.OverviewPage LIKE '%" +:+ year +:+ "%MSI%')".

Definition free_text_pattern (tournament_filter year : string) : string :=
  "(SP.OverviewPage LIKE '%" +:+ tournament_filter +:+ "%" +:+ year
  +:+ "%' OR SP.OverviewPage LIKE '%" +:+ tournament_filter +:+ "/" +:+ year +:+ "%')".

Definition year_only_pattern (year : string) : string :=
  "SP.OverviewPage LIKE '%" +:+ year +:+ "%'".

(** The first [if]/[elif] chain: the competition pattern. *)
Definition scope_pattern (tournament_filter year : string) : res string :=
  if String.eqb tournament_filter "" then Ok (year_only_pattern year)
  else
    let u := upper tournament_filter in
    res_bind
      (if String.eqb u "LCS"
       then res_bind (int_of_str year) (fun y => Ok (2025 <=? y))
       else Ok false)
      (fun lcs_rebranded =>
         if lcs_rebranded then Ok (lcs_lta_pattern year)
         else if String.eqb u "LCK" then Ok (lck_pattern year)
         else if String.eqb u "LPL" then Ok (lpl_pattern year)
         else if String.eqb u "LEC" then Ok (lec_pattern year)
         else if String.eqb u "WORLDS" then Ok (worlds_pattern year)
         else if String.eqb u "MSI" then Ok (msi_pattern year)
         else Ok (free_text_pattern tournament_filter year)).

(** [tournament_filter and tournament_filter.upper() not in ["WORLDS", "MSI"]] *)
Definition excludes_tier2 (tournament_filter : string) : bool :=
  negb (String.eqb tournament_filter "")
  && negb (String.eqb (upper tournament_filter) "WORLDS"
           || String.eqb (upper tournament_filter) "MSI").

Definition where_parts (tournament_filter year : string) : res (list string) :=
  res_bind (scope_pattern tournament_filter year) (fun pat =>
  Ok ([pat] ++ (if excludes_tier2 tournament_filter then tier2_exclusions else []))).

Definition where_clause (tournament_filter year : string) : res string :=
  res_bind (where_parts tournament_filter year) (fun parts =>
  Ok (match parts with [] => "" | _ => join " AND " parts end)).

Definition scoreboard_query (where_clause : string) : query :=
  {| tables := "ScoreboardPlayers=SP,ScoreboardGames=SG";
     fields := "SP.Link,SP.Role,SP.Team,SP.Champion,SP.Kills,SP.Deaths,SP.Assists,"
               +:+ "SP.Gold,SP.CS,SP.DamageToChampions,SP.PlayerWin,SP.GameId,"
               +:+ "SG.Gamelength_Number";
     where_ := where_clause;
     join_on := "SP.GameId=SG.GameId";
     order_by := "SP.DateTime_UTC DESC";
     group_by := "" |}.

Definition fetch_player_game_stats
    (float_of_string : string -> option float)
    (server : nat -> request -> http_outcome)
    (tournament_filter year : string)
    (progress_callback : option (Z -> M unit)) : M (list GameStats) :=
  match where_clause tournament_filter year with
  | Raise e => raise e
  | Ok w =>
      let* results := _cargo_query_all server (scoreboard_query w) progress_callback in
      ret (normalize_rows float_of_string results)
  end.

End LeaguepediaClient.

(* ===================================================================== *)
(** * src/services/player_service.py                                      *)
(* ===================================================================== *)

Module PlayerService.
Import Py.
Import Leaguepedia.
Import LeaguepediaClient.
Import Models.
Import Repository.

(** The service object: its API client and its repository's database. *)
Record service : Type := { api_client : client; repo : db }.

(** The [(players_imported, games_processed, error_message)] triple. *)
Definition outcome : Type := (Z * Z * option string)%type.

(** [Player(ign=stats["ign"], ...)], with the defaults for [id] and
    [last_updated]. *)
Definition player_of_totals (stats : Totals.t) : Player :=
  {| ign := Totals.ign stats;
     role := Totals.role stats;
     team := Totals.team stats;
     games_played := Totals.games_played stats;
     wins := Totals.wins stats;
     kills := Totals.kills stats;
     deaths := Totals.deaths stats;
     assists := Totals.assists stats;
     total_gold := Totals.total_gold stats;
     total_cs := Totals.total_cs stats;
     total_damage := Totals.total_damage stats;
     total_minutes := Some (Totals.total_minutes stats);
     id := None;
     last_updated := None |}.

Definition rate_limit_message : string :=
  "API rate limit reached. Please wait a few minutes and try again.".

(** The [except Exception as e] handler of the import. *)
Definition failure_outcome (e : exn) : outcome :=
  let error_msg := exn_msg e in
  if contains "ratelimit" (lower error_msg)
  then (0, 0, Some rate_limit_message)
  else (0, 0, Some ("Import failed: " +:+ error_msg)).

Definition no_data_message (tournament year : string) : string :=
  "No data found for " +:+ tournament +:+ " " +:+ year.

(** [if progress_callback: progress_callback(...)] *)
Definition notify (observed : bool) (ev : event) (c : client) : client :=
  if observed then record ev c else c.

(** The nested [api_progress(count)], handed to the fetch as its
    observer. *)
Definition api_progress (observed : bool) (count : Z) : M unit :=
  fun c => (Ok tt, notify observed (Progress Fetched count 0) c).

Section ImportOperation.
Variable float_of_string : string -> option float.
Variable server : nat -> request -> http_outcome.
(** [clock i]: the reading of [CURRENT_TIMESTAMP] when the [i]-th
    player of the import is saved. *)
Variable clock : nat -> datetime.

(** Stage 3, [for i, (name, stats) in enumerate(aggregated.items())]. *)
Fixpoint save_all (observed : bool) (total_players : Z)
    (items : list (pyval * Totals.t)) (i : nat) (imported_count : Z)
    (c : client) (d : db) : Z * client * db :=
  match items with
  | [] => (imported_count, c, d)
  | (_, stats) :: rest =>
      let '((success, _), _, d') := upsert (clock i) (player_of_totals stats) d in
      let imported_count := if success then imported_count + 1 else imported_count in
      let c' :=
        notify (observed && ((Z.of_nat i + 1) mod 10 =? 0))
               (Progress Saved (Z.of_nat i + 1) total_players) c in
      save_all observed total_players rest (S i) imported_count c' d'
  end.

(** Stage 1: the progress report and the call of
    [fetch_player_game_stats]. *)
Definition fetch_stage (tournament year : string) (observed : bool) (s : service)
  : res (list GameStats) * client :=
  fetch_player_game_stats float_of_string server tournament year
    (Some (api_progress observed))
    (notify observed (Progress Fetching 0 0) (api_client s)).

(** [import_from_leaguepedia]; [observed] tells whether a progress
    callback was passed. *)
Definition import_from_leaguepedia (tournament year : string) (observed : bool)
    (s : service) : outcome * service :=
  match fetch_stage tournament year observed s with
  | (Raise e, c2) => (failure_outcome e, {| api_client := c2; repo := repo s |})
  | (Ok game_stats, c2) =>
      let total_games := Z.of_nat (length game_stats) in
      if total_games =? 0
      then ((0, 0, Some (no_data_message tournament year)),
            {| api_client := c2; repo := repo s |})
      else
        let c3 := notify observed (Progress Aggregating 0 total_games) c2 in
        let aggregated := aggregate_player_stats game_stats in
        let total_players := Z.of_nat (length aggregated) in
        let c4 := notify observed (Progress Saving 0 total_players) c3 in
        let '(imported_count, c5, d) :=
          save_all observed total_players aggregated 0 0 c4 (repo s) in
        let c6 := notify observed (Progress Complete imported_count total_players) c5 in
        ((imported_count, total_games, None), {| api_client := c6; repo := d |})
  end.
End ImportOperation.

End PlayerService.


(* ===================================================================== *)
(** * src/api/leaguepedia.py: the other queries and the image URLs        *)
(* ===================================================================== *)

Module LeaguepediaQueries.
Import Py.
Import Leaguepedia.
Import LeaguepediaClient.

Section Queries.
Variable server : nat -> request -> http_outcome.

(** The query of [get_tournaments]: the year is pasted into the
    condition as it is. *)
Definition tournaments_query (year : string) : query :=
  {| tables := "Tournaments";
     fields := "OverviewPage,Name,Region";
     where_ := "Year='" +:+ year +:+ "'";
     join_on := "";
     order_by := "Name";
     group_by := "" |}.

(** [get_tournaments]:
    [[r.get("OverviewPage", "") for r in results if r.get("OverviewPage")]] *)
Definition get_tournaments (year : string) : M (list pyval) :=
  let* results := _cargo_query server (tournaments_query year) 100 0 in
  ret (map (fun r => get_or r "OverviewPage" (PyStr ""))
           (List.filter (fun r => truthy (get r "OverviewPage")) results)).

(** The query of [test_connection]. *)
Definition probe_query : query :=
  {| tables := "ScoreboardPlayers";
     fields := "Link";
     where_ := "";
     join_on := "";
     order_by := "";
     group_by := "" |}.

(** [test_connection]: the rows of the probe are not looked at. *)
Definition test_connection : M bool :=
  try_except
    (let* logged := login server in
     if negb logged then ret false
     else (_cargo_query server probe_query 1 0 ;; ret true))
    (fun _ => ret false).
End Queries.

(** ** [_make_scaled_url] *)

(** [f"{n}"] for an int: its decimal numeral. *)
Definition str_of_int (n : Z) : string := pretty n.

(** [s.split(sep, 1)] for a separator of one character: the text before
    the first [sep] and the text after it, or [s] alone when [sep] does
    not occur. *)
Fixpoint split_once (sep : ascii) (s : string) : list string :=
  match s with
  | EmptyString => [""]
  | String c s' =>
      if Ascii.eqb c sep then [""; s']
      else
        match split_once sep s' with
        | base :: rest => String c base :: rest
        | [] => [s]
        end
  end.

(** [base, query = url.split("?", 1)] raises [ValueError] unless the
    split has two parts. *)
Definition _make_scaled_url (url : pyval) (width : Z) : res pyval :=
  match url with
  | PyNone => Ok url
  | PyStr u =>
      if negb (truthy url) then Ok url
      else if contains "/revision/latest" u && negb (contains "/scale-to-width" u) then
        if contains "?" u then
          match split_once "?" u with
          | [base; query] =>
              Ok (PyStr (base +:+ "/scale-to-width-down/" +:+ str_of_int width
                         +:+ "?" +:+ query))
          | _ => Raise (Exn ValueError "not enough values to unpack (expected 2, got 1)")
          end
        else Ok (PyStr (u +:+ "/scale-to-width-down/" +:+ str_of_int width))
      else Ok url
  end.

End LeaguepediaQueries.

(* ===================================================================== *)
(** * src/database/repository.py: reads and deletions                     *)
(* ===================================================================== *)

Module RepositoryCrud.
Import Py.
Import Models.
Import Repository.

(** Binding an int parameter to a statement. *)
Definition bind_int (n : Z) : res Z :=
  if fits_int64 n then Ok n else Raise (Exn OverflowError overflow_msg).

(** [get_by_id]: [SELECT * FROM players WHERE id = ?] and [fetchone()]. *)
Definition get_by_id (d : db) (player_id : Z) : res (option Player) :=
  res_bind (bind_int player_id) (fun key =>
  Ok (from_row <$> List.find (fun r => Row.id r =? key) (players d))).

(** [delete]: [DELETE FROM players WHERE id = ?], answering
    [cursor.rowcount > 0]. The [AUTOINCREMENT] counter is not part of
    the table and stays. *)
Definition delete (player_id : Z) (d : db) : res bool * db :=
  match bind_int player_id with
  | Raise e => (Raise e, d)
  | Ok key =>
      let rowcount := Z.of_nat (length (List.filter (fun r => Row.id r =? key) (players d))) in
      (Ok (0 <? rowcount),
       {| players := List.filter (fun r => negb (Row.id r =? key)) (players d);
          seq := seq d |})
  end.

(** [clear_all]: [DELETE FROM players], answering [cursor.rowcount]. *)
Definition clear_all (d : db) : Z * db :=
  (Z.of_nat (length (players d)), {| players := []; seq := seq d |}).

(** [count]: [SELECT COUNT( * ) FROM players]. *)
Definition count (d : db) : Z := Z.of_nat (length (players d)).

(** ** [get_all] *)

(** SQLite reads a text up to its first U+0000. *)
Fixpoint until_nul (s : string) : string :=
  match s with
  | EmptyString => EmptyString
  | String c s' =>
      if Ascii.eqb c Ascii.zero then EmptyString else String c (until_nul s')
  end.

(** The comparison of [LIKE]: [%] stands for any run of characters, [_]
    for any one character, and any other character for itself, the
    ASCII letters without regard to case. *)
Fixpoint like_match (pattern text : string) {struct pattern} : bool :=
  match pattern with
  | EmptyString =>
      match text with
      | EmptyString => true
      | String _ _ => false
      end
  | String p pattern' =>
      if Ascii.eqb p "%" then
        (fix any (text : string) : bool :=
           like_match pattern' text
           || match text with
              | EmptyString => false
              | String _ text' => any text'
              end) text
      else
        match text with
        | EmptyString => false
        | String c text' =>
            (Ascii.eqb p "_" || Ascii.eqb (ascii_lower c) (ascii_lower p))
            && like_match pattern' text'
        end
  end.

(** [text LIKE pattern]: both operands end at their first U+0000. *)
Definition like (pattern text : string) : bool :=
  like_match (until_nul pattern) (until_nul text).

(** [column LIKE ?]: a [NULL] column matches nothing. *)
Definition column_like (column : pyval) (pattern : string) : bool :=
  match column with
  | PyStr text => like pattern text
  | PyNone => false
  end.

(** The [WHERE] clause of the filtered query. *)
Definition matches (pattern : string) (r : Row.t) : bool :=
  like pattern (Row.ign r) || like pattern (Row.role r) || column_like (Row.team r) pattern.

(** The length of a text in bytes, a character above 127 taking two;
    U+0000 and what follows it count. *)
Definition byte_length (s : string) : Z :=
  fold_right (fun c n => (if (nat_of_ascii c <? 128)%nat then 1 else 2) + n) 0
             (list_ascii_of_string s).

(** SQLite refuses a [LIKE] pattern of more than 50000 bytes when it
    comes to match a row against it, with an [OperationalError]. *)
Definition like_pattern_limit : Z := 50000.

Section Ordering.
(** [ORDER BY ign COLLATE NOCASE]: the rows come back sorted by name,
    the ASCII letters compared without regard to case; the order among
    names that compare equal is SQLite's choice. *)
Variable order_by_ign_nocase : list Row.t -> list Row.t.

Definition get_all (filter_text : string) (d : db) : res (list Player) :=
  if negb (String.eqb filter_text "") then
    let pattern := "%" +:+ filter_text +:+ "%" in
    if (like_pattern_limit <? byte_length pattern)
       && match players d with [] => false | _ :: _ => true end
    then Raise (Exn PlainException "LIKE or GLOB pattern too complex")
    else Ok (map from_row (order_by_ign_nocase (List.filter (matches pattern) (players d))))
  else Ok (map from_row (order_by_ign_nocase (players d))).
End Ordering.

End RepositoryCrud.

(* ===================================================================== *)
(** * src/database/models.py: [Player.add_game]                           *)
(* ===================================================================== *)

Module ModelsOps.
Import Py.
Import Models.

(** [add_game], answering the outcome of the call and the player
    object as the call leaves it; [now] is the reading of
    [datetime.now()]. The counters are added to one after the other:
    when [total_minutes] is [None] its [+=] raises after the integer
    fields have changed and before [last_updated] is set. *)
Definition add_game (now : datetime) (self : Player)
    (kills deaths assists gold cs damage : Z) (minutes : float) (won : bool)
  : res unit * Player :=
  let counted (total_minutes : option float) (last_updated : option datetime) :=
    {| ign := ign self; role := role self; team := team self;
       games_played := games_played self + 1;
       wins := wins self + (if won then 1 else 0);
       Models.kills := Models.kills self + kills;
       Models.deaths := Models.deaths self + deaths;
       Models.assists := Models.assists self + assists;
       total_gold := total_gold self + gold;
       total_cs := total_cs self + cs;
       total_damage := total_damage self + damage;
       total_minutes := total_minutes;
       id := id self;
       last_updated := last_updated |} in
  match total_minutes self with
  | Some total => (Ok tt, counted (Some (float_add total minutes)) (Some now))
  | None =>
      (Raise (Exn TypeError "unsupported operand type(s) for +=: 'NoneType' and 'float'"),
       counted None (last_updated self))
  end.

(** [Player(ign=..., role=..., team=...)], the other fields at their
    defaults. *)
Definition new_player (ign role team : pyval) : Player :=
  {| ign := ign; role := role; team := team;
     games_played := 0; wins := 0; Models.kills := 0; Models.deaths := 0;
     Models.assists := 0; total_gold := 0; total_cs := 0; total_damage := 0;
     total_minutes := Some float_zero; id := None; last_updated := None |}.

End ModelsOps.

(* ===================================================================== *)
(** * src/services/player_service.py: the other operations                *)
(* ===================================================================== *)

Module PlayerServiceOps.
Import Py.
Import Leaguepedia.
Import LeaguepediaClient.
Import LeaguepediaQueries.
Import Models.
Import Repository.
Import PlayerService.

(** [s.strip()] *)
Definition str_strip (s : string) : string :=
  string_of_list_ascii (strip (list_ascii_of_string s)).

(** [player.ign = ign] *)
Definition set_ign (self : Player) (name : pyval) : Player :=
  {| ign := name; role := role self; team := team self;
     games_played := games_played self; wins := wins self;
     kills := kills self; deaths := deaths self; assists := assists self;
     total_gold := total_gold self; total_cs := total_cs self;
     total_damage := total_damage self; total_minutes := total_minutes self;
     id := id self; last_updated := last_updated self |}.

(** [not player.ign or not player.ign.strip()] *)
Definition name_missing (name : pyval) : bool :=
  match name with
  | PyNone => true
  | PyStr s => negb (truthy name) || negb (truthy (PyStr (str_strip s)))
  end.

(** [player.ign.strip()]; [None] has no such method, and the guard
    before keeps it away. *)
Definition stripped (name : pyval) : pyval :=
  match name with
  | PyStr s => PyStr (str_strip s)
  | PyNone => PyNone
  end.

(** [add_player] *)
Definition add_player (now : datetime) (player : Player) (d : db) : write_result :=
  if name_missing (ign player)
  then ((false, Some "Player name cannot be empty"), player, d)
  else add now (set_ign player (stripped (ign player))) d.

(** [update_player] *)
Definition update_player (now : datetime) (player : Player) (d : db) : write_result :=
  match id player with
  | None => ((false, Some "Player ID is required for update"), player, d)
  | Some _ =>
      if name_missing (ign player)
      then ((false, Some "Player name cannot be empty"), player, d)
      else update now (set_ign player (stripped (ign player))) d
  end.

Section Tournaments.
Variable server : nat -> request -> http_outcome.

(** [get_available_tournaments]: any exception of the query is answered
    with the empty list. *)
Definition get_available_tournaments (year : string) (s : service)
  : list pyval * service :=
  match get_tournaments server year (api_client s) with
  | (Ok names, c) => (names, {| api_client := c; repo := repo s |})
  | (Raise _, c) => ([], {| api_client := c; repo := repo s |})
  end.

(** [test_api_connection] *)
Definition test_api_connection (s : service) : res bool * service :=
  let '(answer, c) := test_connection server (api_client s) in
  (answer, {| api_client := c; repo := repo s |}).
End Tournaments.

End PlayerServiceOps.

(* ===================================================================== *)
(** * src/services/stats_service.py: the distributions                    *)
(* ===================================================================== *)

Module StatsService.
Import Py.
Import Models.
Import Repository.
Import RepositoryCrud.

(** [p.role or "Unknown"] *)
Definition or_unknown (v : pyval) : pyval :=
  if truthy v then v else PyStr "Unknown".

(** One turn of the counting loop:
    [distribution[key] = distribution.get(key, 0) + 1]. *)
Definition count_step (field : Player -> pyval) (distribution : PyDict.dict pyval Z)
    (p : Player) : PyDict.dict pyval Z :=
  let key := or_unknown (field p) in
  PyDict.set distribution key (default 0 (PyDict.get distribution key) + 1).

Section Stats.
Variable order_by_ign_nocase : list Row.t -> list Row.t.

Definition get_role_distribution (d : db) : res (PyDict.dict pyval Z) :=
  res_bind (get_all order_by_ign_nocase "" d) (fun players =>
  Ok (fold_left (count_step role) players [])).

Definition get_team_distribution (d : db) : res (PyDict.dict pyval Z) :=
  res_bind (get_all order_by_ign_nocase "" d) (fun players =>
  Ok (fold_left (count_step team) players [])).
End Stats.

End StatsService.

(* ===================================================================== *)
(** * src/api/leaguepedia.py: the image scan of [search_player_image]     *)
(* ===================================================================== *)

Module ImageSearch.
Import Py.
Import Leaguepedia.

(** [s.replace(old, new)] for a character [old]. *)
Fixpoint replace_char (old : ascii) (new : string) (s : string) : string :=
  match s with
  | EmptyString => EmptyString
  | String c s' =>
      if Ascii.eqb c old then new +:+ replace_char old new s'
      else String c (replace_char old new s')
  end.

(** [s.endswith(suffix)] *)
Fixpoint endswith (s suffix : string) : bool :=
  String.eqb s suffix
  || match s with
     | EmptyString => false
     | String _ s' => endswith s' suffix
     end.

(** The search prefixes, most specific first: [Team_Player] when there
    is a team, then the player name. *)
Definition image_prefixes (player_name : string) (team : pyval) : list string :=
  match team with
  | PyStr t =>
      if truthy team
      then [replace_char "." "" (replace_char " " "_" t) +:+ "_" +:+ player_name; player_name]
      else [player_name]
  | PyNone => [player_name]
  end.

Definition extensions : list string := [".png"; ".jpg"; ".jpeg"; ".webp"].

Definition skip_patterns : list string :=
  [ "logo"; "icon"; "banner"; "emote"; "allstar"; "signature";
    "sticker"; "split"; "trophy"; "mvp"; "championship"; "team";
    "roster"; "group"; "celebration"; "stage"; "interview";
    "square"; "infobox"; "tab"; "header" ].

(** [player_name.lower().replace(" ", "_")] *)
Definition player_key (player_name : string) : string :=
  replace_char " " "_" (lower player_name).

(** [team.lower().replace(" ", "_") if team else ""] *)
Definition team_key (team : pyval) : string :=
  match team with
  | PyStr t => if truthy team then replace_char " " "_" (lower t) else ""
  | PyNone => ""
  end.

(** The three [continue] tests: an image extension, no skip pattern,
    and the player name in the file name. *)
Definition qualifies (player_lower img_name : string) : bool :=
  existsb (endswith img_name) extensions
  && negb (existsb (fun skip => contains skip img_name) skip_patterns)
  && contains player_lower img_name.

(** The bonus of the first of the years 2025, 2024 and 2023 that occurs
    in the file name: [(int(year) - 2020) * 10]. *)
Definition year_bonus (img_name : string) : Z :=
  if contains "2025" img_name then (2025 - 2020) * 10
  else if contains "2024" img_name then (2024 - 2020) * 10
  else if contains "2023" img_name then (2023 - 2020) * 10
  else 0.

(** The tie-breaker: [(int(timestamp[:4]) - 2020) * 2] when the
    timestamp is truthy and its first four characters read as an int. *)
Definition timestamp_bonus (timestamp : pyval) : Z :=
  if truthy timestamp then
    match timestamp with
    | PyStr t =>
        match int_of_string (String.substring 0 4 t) with
        | Some ts_year => (ts_year - 2020) * 2
        | None => 0
        end
    | PyNone => 0
    end
  else 0.

(** The score of an image, in the order of the code: the team, the
    year, the photo pattern, the penalty for a long name and the
    tie-breaker. The length is that of the embedding's strings, as
    everywhere: one [ascii] for a character. *)
Definition score_of (team_lower img_name : string) (timestamp : pyval) : Z :=
  (if truthy (PyStr team_lower) && contains team_lower img_name then 100 else 0)
  + year_bonus img_name
  + (if contains "player" img_name || contains "headshot" img_name then 20 else 0)
  + (if 50 <? Z.of_nat (String.length img_name) then -10 else 0)
  + timestamp_bonus timestamp.

(** One turn of [for img in images], on [(best_image, best_score)]. *)
Definition scan_step (player_lower team_lower : string) (best : option row * Z) (img : row)
  : res (option row * Z) :=
  res_bind (lower_method (get_or img "name" (PyStr ""))) (fun img_name =>
  if negb (qualifies player_lower img_name) then Ok best
  else
    let score := score_of team_lower img_name (get_or img "timestamp" (PyStr "")) in
    if snd best <? score then Ok (Some img, score) else Ok best).

(** The scan of the images of one response. An exception ends the scan
    and, through the handler of [search_player_image], the search. *)
Fixpoint scan_images (player_lower team_lower : string) (best : option row * Z)
    (images : list row) : res (option row * Z) :=
  match images with
  | [] => Ok best
  | img :: images' =>
      res_bind (scan_step player_lower team_lower best img) (fun best' =>
      scan_images player_lower team_lower best' images')
  end.

(** [best_image = None] and [best_score = -1] *)
Definition no_image : option row * Z := (None, -1).

End ImageSearch.


(* ===================================================================== *)
(** * Notions used in the statements                                      *)
(* ===================================================================== *)

(** ** Float literals

    The binary64 values of the decimal literals used in the examples, as
    mantissa and exponent ([float.hex] and [math.frexp] give them). *)

Module Literals.
Import Py.

Definition float_22 : float := S754_finite false 6192449487634432 (-48).
Definition float_25_2 : float := S754_finite false 7093169413108531 (-48).
Definition float_28 : float := S754_finite false 7881299347898368 (-48).
Definition float_28_1 : float := S754_finite false 7909446845569434 (-48).
Definition float_28_3 : float := S754_finite false 7965741840911565 (-48).
Definition float_30 : float := S754_finite false 8444249301319680 (-48).
Definition float_50 : float := S754_finite false 7036874417766400 (-47).
Definition float_58 : float := S754_finite false 8162774324609024 (-47).
(** [81.6] and its successor [81.60000000000001] *)
Definition float_81_6 : float := S754_finite false 5742089524897382 (-46).
Definition float_81_6_up : float := S754_finite false 5742089524897383 (-46).
(** [22 / 6], that is [3.6666666666666665] *)
Definition float_22_over_6 : float := S754_finite false 8256599316845909 (-51).
(** [2.0 ** 53] *)
Definition float_2_pow_53 : float := S754_finite false 4503599627370496 1.
End Literals.

(** ** The query filter *)

Module QueryNotions.
Import Py.
Import LeaguepediaClient.

(** The leagues below tier 1 that the design document has the regional
    filters leave out, by the text that marks their pages. *)
Definition tier2_marks : list string :=
  [ "Academy"; "Challengers"; "Amateur"; "CL"; "LDL"; "LTAN"; "LTAS"; "NLC";
    "Prime%League"; "Ultraliga"; "SuperLiga"; "LFL"; "LVP"; "PCS"; "VCS";
    "LJL"; "LLA"; "CBLOL"; "LCO"; "TCL" ].

(** The conjunct that leaves out the pages with [mark] in their name. *)
Definition exclusion_of (mark : string) : string :=
  "SP.OverviewPage NOT LIKE '%" +:+ mark +:+ "%'".

(** The three alternatives of the LCK pattern for 2025. *)
Definition lck_2025_alternatives : list string :=
  [ "SP.OverviewPage LIKE 'LCK/2025%'";
    "SP.OverviewPage LIKE 'LCK 2025%'";
    "SP.OverviewPage LIKE '%LCK%Cup%2025%'" ].

(** The LCK pattern and the Worlds pattern for 2025, written out. *)
Definition lck_2025 : string :=
  "(SP.OverviewPage LIKE 'LCK/2025%' OR SP.OverviewPage LIKE 'LCK 2025%'"
  +:+ " OR SP.OverviewPage LIKE '%LCK%Cup%2025%')".

Definition worlds_2025 : string :=
  "(SP.OverviewPage LIKE '%2025%Season%World%Championship%'"
  +:+ " OR SP.OverviewPage LIKE '%World%Championship%2025%'"
  +:+ " OR SP.OverviewPage LIKE '%Worlds%2025%'"
  +:+ " OR SP.OverviewPage LIKE '%2025%Worlds%')".
End QueryNotions.

(** ** The login handshake *)

Module LoginNotions.
Import Py.
Import LeaguepediaClient.

(** The wiki acknowledges the handshake started in state [c]: the token
    request yields a non-empty token, and the credential post carrying it
    is answered with the result "Success". *)
Definition acknowledged (server : nat -> request -> http_outcome) (c : client) : bool :=
  match server (exchanges c) GetLoginToken with
  | Json data =>
      truthy (logintoken data)
      && match server (S (exchanges c))
                 (PostLogin Config.BOT_USERNAME Config.BOT_PASSWORD (logintoken data)) with
         | Json result => bool_decide (login_result result = PyStr "Success")
         | Raises _ => false
         end
  | Raises _ => false
  end.

(** A wiki that hands out a token and accepts the credentials. *)
Definition welcoming_wiki : nat -> request -> http_outcome :=
  fun _ r =>
    match r with
    | GetLoginToken =>
        Json {| logintoken := PyStr "token"; login_result := PyNone;
                error := None; cargoquery := [] |}
    | PostLogin _ _ _ =>
        Json {| logintoken := PyNone; login_result := PyStr "Success";
                error := None; cargoquery := [] |}
    | GetCargo _ _ _ =>
        Json {| logintoken := PyNone; login_result := PyNone;
                error := None; cargoquery := [] |}
    end.

(** A wiki that cannot be reached. *)
Definition unreachable_wiki : nat -> request -> http_outcome :=
  fun _ _ => Raises (Exn RequestException "connection timed out").
End LoginNotions.

(** ** The retry loop of [_cargo_query] *)

Module RetryNotions.
Import Py.
Import Leaguepedia.
Import LeaguepediaClient.

(** The response carries a rate-limit error. *)
Definition rate_limited (o : http_outcome) : bool :=
  match o with
  | Json data =>
      match error data with
      | Some err => String.eqb (code err) "ratelimited"
      | None => false
      end
  | Raises _ => false
  end.

(** The exchange raised a [RequestException]. *)
Definition transport_failure (o : http_outcome) : bool :=
  match o with
  | Raises e => bool_decide (exn_cls e = RequestException)
  | Json _ => false
  end.

(** The outcome makes attempt number [attempt] go on to the next one. *)
Definition retriable (attempt : nat) (o : http_outcome) : bool :=
  rate_limited o || (transport_failure o && (attempt <? Config.API_MAX_RETRIES - 1)%nat).

(** The client after one attempt that ended in a back-off of [seconds]. *)
Definition backed_off (r : request) (seconds : Z) (c : client) : client :=
  {| is_logged_in := is_logged_in c;
     exchanges := S (exchanges c);
     log := ((log c ++ [Throttled]) ++ [Sent r]) ++ [Slept seconds] |}.

(** The client after one attempt that ended without a back-off. *)
Definition exchanged (r : request) (c : client) : client :=
  {| is_logged_in := is_logged_in c;
     exchanges := S (exchanges c);
     log := (log c ++ [Throttled]) ++ [Sent r] |}.

(** A cargo response with no rows and no error. *)
Definition empty_body : body :=
  {| logintoken := PyNone; login_result := PyNone; error := None; cargoquery := [] |}.

Definition rate_limit_body : body :=
  {| logintoken := PyNone; login_result := PyNone;
     error := Some {| code := "ratelimited"; info := "slow down" |};
     cargoquery := [] |}.

Definition rows_body (rows : list row) : body :=
  {| logintoken := PyNone; login_result := PyNone; error := None; cargoquery := rows |}.

(** A wiki whose result set is empty. *)
Definition empty_wiki : nat -> request -> http_outcome :=
  fun _ _ => Json empty_body.

(** A wiki that answers the first [k] exchanges with a rate-limit error
    and every later one with [rows]. *)
Definition rate_limited_then (k : nat) (rows : list row) : nat -> request -> http_outcome :=
  fun n _ => if (n <? k)%nat then Json rate_limit_body else Json (rows_body rows).

(** A wiki that is unreachable for the first [k] exchanges and answers
    every later one with a rate-limit error. *)
Definition unreachable_then_rate_limited (k : nat) : nat -> request -> http_outcome :=
  fun n _ => if (n <? k)%nat then Raises (Exn RequestException "connection reset")
             else Json rate_limit_body.

Definition logged_in_client : client :=
  {| is_logged_in := true; exchanges := 0; log := [] |}.

Definition any_query : query :=
  {| tables := "T"; fields := "F"; where_ := ""; join_on := ""; order_by := ""; group_by := "" |}.

(** The reading of the design document: a rate-limit answer does not use
    up an attempt, so however many of them precede the data, the data is
    returned. *)
Definition rate_limits_outside_budget : Prop :=
  forall (k : nat) (rows : list row),
    fst (_cargo_query (rate_limited_then k rows) any_query 500 0 logged_in_client) = Ok rows.
End RetryNotions.

(** ** The paginator *)

Module PaginatorNotions.
Import Py.
Import Leaguepedia.
Import LeaguepediaClient.


(** A wiki holding [total] result rows: a cargo request for [limit] rows
    from [offset] gets the rows of that window. *)
Definition paged_wiki (total : Z) : nat -> request -> http_outcome :=
  fun _ r =>
    match r with
    | GetCargo _ limit offset =>
        Json {| logintoken := PyNone; login_result := PyNone; error := None;
                cargoquery :=
                  replicate (Z.to_nat (Z.min limit (total - offset))) ∅ |}
    | _ => Json {| logintoken := PyStr "token"; login_result := PyStr "Success";
                   error := None; cargoquery := [] |}
    end.

(** The offsets of the cargo requests in a trace. *)
Definition cargo_offsets (events : list event) : list Z :=
  omap (fun ev => match ev with Sent (GetCargo _ _ offset) => Some offset | _ => None end) events.



End PaginatorNotions.

(** ** Row normalisation *)

Module NormalizerNotions.
Import Py.
Import Leaguepedia.

(** A conversion for the examples. It knows plain decimal notation
    only (optional sign, digits with an optional fractional part, white
    space around), the form in which the wiki writes game lengths, and
    gives the nearest float to the decimal. *)
Fixpoint decimal_digits (acc : Z) (scale : Z) (in_fraction seen_digit : bool)
    (l : list ascii) : option (Z * Z) :=
  match l with
  | [] => if seen_digit then Some (acc, scale) else None
  | c :: l' =>
      match digit_of c with
      | Some d =>
          decimal_digits (10 * acc + d) (if in_fraction then scale + 1 else scale)
                         in_fraction true l'
      | None =>
          if (Ascii.eqb c "." && negb in_fraction)%bool
          then decimal_digits acc scale true seen_digit l'
          else None
      end
  end.

Definition decimal_float_of_string (s : string) : option float :=
  match rev (skip_spaces (rev (skip_spaces (list_ascii_of_string s)))) with
  | [] => None
  | c :: l' =>
      let '(negative, body) :=
        if Ascii.eqb c "-" then (true, l')
        else if Ascii.eqb c "+" then (false, l')
        else (false, c :: l') in
      match decimal_digits 0 0 false false body with
      | Some (m, k) =>
          let x := SFdiv prec emax (int_as_SF m) (int_as_SF (10 ^ k)) in
          Some (if negative then SFopp x else x)
      | None => None
      end
  end.

Definition is_text (v : pyval) : bool :=
  match v with
  | PyStr _ => true
  | PyNone => false
  end.

(** The rows that reach the output: the win flag is absent or a string,
    and the player identity is a non-empty string. *)
Definition accepted (r : row) : bool :=
  is_text (get_or r "PlayerWin" (PyStr "")) && truthy (get_or r "Link" (PyStr "")).

(** The record built from a row. *)
Definition stats_of (float_of_string : string -> option float) (r : row) : GameStats :=
  {| game_id := get_or r "GameId" (PyStr "");
     player_name := get_or r "Link" (PyStr "");
     role := get_or r "Role" (PyStr "");
     team := get_or r "Team" (PyStr "");
     champion := get_or r "Champion" (PyStr "");
     kills := safe_int (get r "Kills") 0;
     deaths := safe_int (get r "Deaths") 0;
     assists := safe_int (get r "Assists") 0;
     gold := safe_int (get r "Gold") 0;
     cs := safe_int (get r "CS") 0;
     damage := safe_int (get r "DamageToChampions") 0;
     won := match get_or r "PlayerWin" (PyStr "") with
            | PyStr s => truthy_token (lower s)
            | PyNone => false
            end;
     game_length_minutes := parse_game_length float_of_string (get r "Gamelength Number") |}.

(** The reading of the design document: a row is left out exactly when
    its player identity is empty. *)
Definition rejects_only_nameless (float_of_string : string -> option float) : Prop :=
  forall r : row,
    normalize_rows float_of_string [r] = []
    <-> truthy (get_or r "Link" (PyStr "")) = false.

(** A row of a named player whose win flag is [null]. *)
Definition row_with_null_win_flag : row :=
  {[ "Link" := PyStr "Faker"; "PlayerWin" := PyNone; "Kills" := PyStr "5" ]}.

(** The same row without a win flag, and with [null] for its kills and
    its game length. *)
Definition row_without_win_flag : row :=
  {[ "Link" := PyStr "Faker"; "Kills" := PyStr "5" ]}.

Definition row_with_null_numbers : row :=
  {[ "Link" := PyStr "Faker"; "PlayerWin" := PyStr "Yes"; "Kills" := PyNone;
     "Gamelength Number" := PyNone ]}.

(** A row with letters for kills and no game length. *)
Definition row_with_bad_numbers : row :=
  {[ "Link" := PyStr "Faker"; "PlayerWin" := PyStr "Yes"; "Kills" := PyStr "abc";
     "Deaths" := PyStr "2" ]}.
End NormalizerNotions.

(** ** The import operation *)

Module ImportNotions.
Import Py.
Import Leaguepedia.
Import LeaguepediaClient.
Import Repository.
Import PlayerService.

(** The reading of the design document: an import that fetched no game
    record reports no error. *)
Definition zero_yield_without_error : Prop :=
  forall float_of_string server clock tournament year observed s,
    fst (fetch_stage float_of_string server tournament year observed s) = Ok [] ->
    fst (import_from_leaguepedia float_of_string server clock tournament year observed s)
    = (0, 0, None).

Definition fresh_service : service :=
  {| api_client := new_client; repo := empty_db |}.
End ImportNotions.

(** ** The aggregator *)

Module AggregatorNotions.
Import Py.
Import Leaguepedia.
Import Literals.

(** The games of one player, in input order. *)
Definition games_of (name : pyval) (game_stats : list GameStats) : list GameStats :=
  filter (fun gs => player_name gs = name) game_stats.

(** The integer accumulators of an entry. *)
Definition integer_totals (t : Totals.t) : list Z :=
  [ Totals.games_played t; Totals.wins t; Totals.kills t; Totals.deaths t;
    Totals.assists t; Totals.total_gold t; Totals.total_cs t; Totals.total_damage t ].

(** All the numeric accumulators of an entry. *)
Definition numeric_totals (t : Totals.t) : list Z * float :=
  (integer_totals t, Totals.total_minutes t).

(** The value left in a field that each game overwrites when its own
    value is truthy. *)
Definition latest (field : GameStats -> pyval) (games : list GameStats) (initial : pyval)
  : pyval :=
  fold_left (fun current gs => if truthy (field gs) then field gs else current) games initial.

(** The float sum of the game lengths, accumulated from [0.0] in list
    order. *)
Definition minutes_in_order (games : list GameStats) : float :=
  fold_left float_add (map game_length_minutes games) float_zero.

(** The reading of the design document: all numeric totals, the minutes
    included, are the same for every ordering of the input. *)
Definition totals_order_independent : Prop :=
  forall (l l' : list GameStats) (name : pyval),
    Permutation l l' ->
    numeric_totals <$> PyDict.get (aggregate_player_stats l) name
    = numeric_totals <$> PyDict.get (aggregate_player_stats l') name.

(** A game of Faker's with the given score, result and length. *)
Definition faker_game (k d a : Z) (w : bool) (role team : string) (minutes : float)
  : GameStats :=
  {| game_id := PyStr "g"; player_name := PyStr "Faker";
     role := PyStr role; team := PyStr team; champion := PyStr "Azir";
     kills := k; deaths := d; assists := a; gold := 0; cs := 0; damage := 0;
     won := w; game_length_minutes := minutes |}.

(** The scenario of the design document: a win and a loss of Faker's. *)
Definition two_games : list GameStats :=
  [ faker_game 5 2 10 true "Mid" "T1" float_30;
    faker_game 2 4 5 false "Mid" "T1" float_28 ].

Definition three_games : list GameStats :=
  [ faker_game 5 2 10 true "Mid" "SKT" float_28_1;
    faker_game 3 1 8 true "" "T1" float_28_3;
    faker_game 2 4 5 false "" "" float_25_2 ].
End AggregatorNotions.

(** ** The reconciler *)

Module RepositoryNotions.
Import Py.
Import Models.
Import Repository.
Import Literals.

(** The constraints of the schema: [id] is the primary key and [ign] is
    [UNIQUE]. *)
Definition consistent (d : db) : Prop :=
  NoDup (map Row.id (players d)) /\ NoDup (map Row.ign (players d)).

(** The player binds to a statement without an error: [ign] and [role]
    are strings and the integers fit. *)
Definition storable (p : Player) : Prop :=
  (exists i, Models.ign p = PyStr i) /\ (exists r, Models.role p = PyStr r)
  /\ ints_bind p = true.

(** The player as read back once stored under [rowid] at time [now]:
    the fields as they were passed, but for the minutes: a NaN is read
    back as [None] and a zero without its sign. *)
Definition stored (p : Player) (rowid : Z) (now : datetime) : Player :=
  {| Models.ign := Models.ign p; Models.role := Models.role p; Models.team := Models.team p;
     Models.games_played := Models.games_played p; Models.wins := Models.wins p;
     Models.kills := Models.kills p; Models.deaths := Models.deaths p;
     Models.assists := Models.assists p; Models.total_gold := Models.total_gold p;
     Models.total_cs := Models.total_cs p; Models.total_damage := Models.total_damage p;
     Models.total_minutes :=
       match Models.total_minutes p with
       | None | Some S754_nan => None
       | Some (S754_zero _) => Some float_zero
       | Some minutes => Some minutes
       end;
     Models.id := Some rowid; Models.last_updated := Some now |}.

(** [upsert] run twice, the second time on what the first left. *)
Definition upsert_twice (t1 t2 : datetime) (p : Player) (d : db) : write_result :=
  let '(_, p1, d1) := upsert t1 p d in upsert t2 p1 d1.

(** The reading of the design document: the store after two reconciles
    in a row is the store after the first. *)
Definition reconcile_twice_is_once : Prop :=
  forall (t1 t2 : datetime) (p : Player) (d : db),
    snd (upsert_twice t1 t2 p d) = snd (upsert t1 p d).

(** A row with its time stamp set aside, and a database with the time
    stamps of the rows of one name set aside. *)
Definition untimed (r : Row.t) : Row.t :=
  {| Row.id := Row.id r; Row.ign := Row.ign r; Row.role := Row.role r;
     Row.team := Row.team r; Row.games_played := Row.games_played r;
     Row.wins := Row.wins r; Row.kills := Row.kills r; Row.deaths := Row.deaths r;
     Row.assists := Row.assists r; Row.total_gold := Row.total_gold r;
     Row.total_cs := Row.total_cs r; Row.total_damage := Row.total_damage r;
     Row.total_minutes := Row.total_minutes r; Row.last_updated := 0 |}.

Definition timeless (name : pyval) (d : db) : db :=
  {| players := map (fun r => if decide (PyStr (Row.ign r) = name) then untimed r else r)
                    (players d);
     seq := seq d |}.

(** Faker after one game, and after two. *)
Definition faker_one_game : Player :=
  {| Models.ign := PyStr "Faker"; Models.role := PyStr "Mid"; Models.team := PyStr "T1";
     Models.games_played := 1; Models.wins := 1; Models.kills := 5; Models.deaths := 2;
     Models.assists := 10; Models.total_gold := 15000; Models.total_cs := 250;
     Models.total_damage := 25000; Models.total_minutes := Some float_30;
     Models.id := None; Models.last_updated := None |}.

Definition faker_two_games : Player :=
  {| Models.ign := PyStr "Faker"; Models.role := PyStr "Mid"; Models.team := PyStr "T1";
     Models.games_played := 2; Models.wins := 1; Models.kills := 7; Models.deaths := 6;
     Models.assists := 15; Models.total_gold := 25000; Models.total_cs := 430;
     Models.total_damage := 40000; Models.total_minutes := Some float_58;
     Models.id := None; Models.last_updated := None |}.

(** The [UPDATE]'s effect on one row. *)
Definition replace_row (rowid : Z) (r : Row.t) (r' : Row.t) : Row.t :=
  if Row.id r' =? rowid then r else r'.
End RepositoryNotions.

(** ** Derived rates of a player *)

Module ModelsNotions.
Import Py.
Import Models.
Import Literals.

(** The reading of the design document: without deaths the KDA is the
    integer [kills + assists] itself, for every player record. *)
Definition kda_exact_without_deaths : Prop :=
  forall p : Player,
    deaths p = 0 ->
    exists x, kda p = Ok x /\ float_is_int x (kills p + assists p).

(** A player record with the given counters and minutes. *)
Definition player_with (games won k d a g : Z) (minutes : float) : Player :=
  {| ign := PyStr "Faker"; role := PyStr "Mid"; team := PyStr "T1";
     games_played := games; wins := won; kills := k; deaths := d; assists := a;
     total_gold := g; total_cs := 0; total_damage := 0; total_minutes := Some minutes;
     id := None; last_updated := None |}.
End ModelsNotions.

(** ** Image URLs *)

Module ScaledUrlNotions.
Import Py.
Import LeaguepediaQueries.


End ScaledUrlNotions.

(** ** The cost of a query: exchanges and back-off *)

Module BudgetNotions.
Import Py.
Import Leaguepedia.
Import LeaguepediaClient.
Import LeaguepediaQueries.
Import PlayerService.

(** The seconds of back-off ([time.sleep(wait_time)]) among the events. *)
Definition slept (events : list event) : Z :=
  fold_right (fun ev total => match ev with Slept s => s + total | _ => total end) 0 events.

(** The requests sent among the events, oldest first. *)
Definition sent (events : list event) : list request :=
  omap (fun ev => match ev with Sent r => Some r | _ => None end) events.

Definition is_cargo (r : request) : bool :=
  match r with
  | GetCargo _ _ _ => true
  | _ => false
  end.

(** [c'] is [c] after the effects [events]: the trace grew by them and
    one exchange was counted for each request. *)
Definition run (c c' : client) (events : list event) : Prop :=
  log c' = log c ++ events
  /\ exchanges c' = (exchanges c + length (sent events))%nat.

(** From [c] to [c'] at most [n] exchanges were made and at most [z]
    seconds were spent in back-off. *)
Definition within (n : nat) (z : Z) (c c' : client) : Prop :=
  exists events, run c c' events /\ (length (sent events) <= n)%nat /\ 0 <= slept events <= z.

(** The longest back-off of attempt number [attempt]. *)
Definition backoff_cap (attempt : nat) : Z := 5 * (Z.of_nat attempt + 1).

Definition backoff_caps (attempts : list nat) : Z :=
  fold_right (fun attempt total => backoff_cap attempt + total) 0 attempts.

(** A wiki that rate-limits every cargo request and acknowledges every
    handshake. *)
Definition throttling_wiki : nat -> request -> http_outcome :=
  fun _ r =>
    match r with
    | GetLoginToken =>
        Json {| logintoken := PyStr "token"; login_result := PyNone;
                error := None; cargoquery := [] |}
    | PostLogin _ _ _ =>
        Json {| logintoken := PyNone; login_result := PyStr "Success";
                error := None; cargoquery := [] |}
    | GetCargo _ _ _ =>
        Json {| logintoken := PyNone; login_result := PyNone;
                error := Some {| code := "ratelimited"; info := "slow down" |};
                cargoquery := [] |}
    end.

(** A wiki that rate-limits the first [k] exchanges and then reports a
    database error. *)
Definition failing_wiki (k : nat) : nat -> request -> http_outcome :=
  fun n _ =>
    Json {| logintoken := PyNone; login_result := PyNone;
            error := Some (if (n <? k)%nat
                           then {| code := "ratelimited"; info := "slow down" |}
                           else {| code := "internal_api_error_DBQueryError";
                                   info := "Database query error" |});
            cargoquery := [] |}.
End BudgetNotions.

(** ** The connection test and the tournament list *)

Module ProbeNotions.
Import Py.
Import Leaguepedia.
Import LeaguepediaClient.
Import LeaguepediaQueries.
Import PlayerService.
Import PlayerServiceOps.
Import BudgetNotions.

(** The value is truthy: not [None] and not empty. *)
Definition is_truthy (v : pyval) : Prop := truthy v = true.

(** A wiki that lists the given overview pages for every query. *)
Definition listing_wiki (pages : list pyval) : nat -> request -> http_outcome :=
  fun _ r =>
    match r with
    | GetLoginToken =>
        Json {| logintoken := PyStr "token"; login_result := PyNone;
                error := None; cargoquery := [] |}
    | PostLogin _ _ _ =>
        Json {| logintoken := PyNone; login_result := PyStr "Success";
                error := None; cargoquery := [] |}
    | GetCargo _ _ _ =>
        Json {| logintoken := PyNone; login_result := PyNone; error := None;
                cargoquery := map (fun page => {[ "OverviewPage" := page ]}) pages |}
    end.
End ProbeNotions.

(** ** The scope of the scoreboard query *)

Module ScopeNotions.
Import Py.
Import Leaguepedia.
Import LeaguepediaClient.
Import PlayerService.
Import BudgetNotions.

(** The leagues and events whose pattern is fixed by their name. *)
Definition named_scopes : list string := ["LCK"; "LPL"; "LEC"; "WORLDS"; "MSI"].

(** The two patterns of the LCS, for 2025 and for "Lcs" in 2024,
    written out. *)
Definition lta_2025 : string :=
  "(SP.OverviewPage LIKE '%LTA%2025%' OR SP.OverviewPage LIKE '%LCS%2025%'"
  +:+ " OR SP.OverviewPage LIKE '%Americas%2025%')".

Definition lcs_2024 : string :=
  "(SP.OverviewPage LIKE '%Lcs%2024%' OR SP.OverviewPage LIKE '%Lcs/2024%')".

(** [int(year)] returns: [year] is an int literal. *)
Definition int_literal_year (year : string) : Prop := exists y, int_of_str year = Ok y.
End ScopeNotions.

(** ** Reading the numbers of a row *)

Module ParseNotions.
Import Py.
Import Leaguepedia.
Import LeaguepediaQueries.

(** The value of a run of decimal digits read after [acc]. *)
Definition read_digits (acc : Z) (l : list ascii) : Z :=
  fold_left (fun acc c => 10 * acc + default 0 (digit_of c)) l acc.

Definition is_digit (c : ascii) : Prop := exists d, digit_of c = Some d.
End ParseNotions.

(** ** The aggregated dictionary as a whole *)

Module TotalsNotions.
Import Py.
Import Leaguepedia.
Import AggregatorNotions.

(** The sum of a counter over the records of a list. *)
Definition total {A : Type} (f : A -> Z) (l : list A) : Z :=
  fold_right (fun x acc => f x + acc) 0 l.

(** The counter that an aggregated field sums up. *)
Definition one (gs : GameStats) : Z := 1.
Definition win (gs : GameStats) : Z := if won gs then 1 else 0.

(** The eight integer fields with the counters they add up. *)
Definition counters : list ((Totals.t -> Z) * (GameStats -> Z)) :=
  [ (Totals.games_played, one); (Totals.wins, win);
    (Totals.kills, kills); (Totals.deaths, deaths); (Totals.assists, assists);
    (Totals.total_gold, gold); (Totals.total_cs, cs); (Totals.total_damage, damage) ].

(** The names in order of first appearance. *)
Fixpoint first_appearances (seen : list pyval) (l : list GameStats) : list pyval :=
  match l with
  | [] => []
  | gs :: l' =>
      if bool_decide (player_name gs ∈ seen) then first_appearances seen l'
      else player_name gs :: first_appearances (player_name gs :: seen) l'
  end.

(** [Player.add_game] fed with the fields of a game record. *)
Definition add_record (now : Models.datetime) (p : Models.Player) (gs : GameStats)
  : res unit * Models.Player :=
  ModelsOps.add_game now p (kills gs) (deaths gs) (assists gs) (gold gs) (cs gs) (damage gs)
           (game_length_minutes gs) (won gs).

(** The records added one by one to the same player object; the run
    ends with the first call that raises. *)
Fixpoint add_records (now : Models.datetime) (p : Models.Player) (games : list GameStats)
  : res unit * Models.Player :=
  match games with
  | [] => (Ok tt, p)
  | gs :: rest =>
      match add_record now p gs with
      | (Ok _, p') => add_records now p' rest
      | (Raise e, p') => (Raise e, p')
      end
  end.

(** The numeric fields of a player object, in the order of
    [numeric_totals]. *)
Definition player_totals (p : Models.Player) : list Z * option float :=
  ([ Models.games_played p; Models.wins p; Models.kills p; Models.deaths p;
     Models.assists p; Models.total_gold p; Models.total_cs p; Models.total_damage p ],
   Models.total_minutes p).
End TotalsNotions.

(** ** From the wiki to the table *)

Module PipelineNotions.
Import Py.
Import Leaguepedia.
Import LeaguepediaClient.
Import Repository.
Import PlayerService.
Import RepositoryNotions.

(** The player binds to a statement: the boolean form of [storable]. *)
Definition binds (p : Models.Player) : bool :=
  NormalizerNotions.is_text (Models.ign p) && NormalizerNotions.is_text (Models.role p)
  && ints_bind p.

(** A wiki that holds the given rows and sends them for every cargo
    request. *)
Definition rows_wiki (rows : list row) : nat -> request -> http_outcome :=
  fun _ r =>
    match r with
    | GetLoginToken =>
        Json {| logintoken := PyStr "token"; login_result := PyNone;
                error := None; cargoquery := [] |}
    | PostLogin _ _ _ =>
        Json {| logintoken := PyNone; login_result := PyStr "Success";
                error := None; cargoquery := [] |}
    | GetCargo _ _ _ =>
        Json {| logintoken := PyNone; login_result := PyNone; error := None;
                cargoquery := rows |}
    end.

(** Two games of Faker's and one of a player whose role is [null]. *)
Definition three_rows : list row :=
  [ {[ "Link" := PyStr "Faker"; "Role" := PyStr "Mid"; "Team" := PyStr "T1";
       "PlayerWin" := PyStr "Yes"; "Kills" := PyStr "5"; "Deaths" := PyStr "2";
       "Assists" := PyStr "10" ]};
    {[ "Link" := PyStr "Faker"; "Role" := PyStr "Mid"; "Team" := PyStr "T1";
       "PlayerWin" := PyStr "No"; "Kills" := PyStr "2"; "Deaths" := PyStr "4";
       "Assists" := PyStr "5" ]};
    {[ "Link" := PyStr "Ghost"; "Role" := PyNone; "PlayerWin" := PyStr "Yes" ]} ].
End PipelineNotions.

(** ** The table under every operation of the repository *)

Module CrudNotions.
Import Py.
Import Models.
Import Repository.
Import RepositoryCrud.
Import RepositoryNotions.

(** The writes of the repository. *)
Inductive op : Type :=
| Add (now : datetime) (player : Player)
| Update (now : datetime) (player : Player)
| Upsert (now : datetime) (player : Player)
| Delete (player_id : Z)
| ClearAll.

(** The database after one write. *)
Definition apply (o : op) (d : db) : db :=
  match o with
  | Add now player => snd (add now player d)
  | Update now player => snd (update now player d)
  | Upsert now player => snd (upsert now player d)
  | Delete player_id => snd (delete player_id d)
  | ClearAll => snd (clear_all d)
  end.

(** The database after a run of writes, oldest first. *)
Definition history (ops : list op) (d : db) : db :=
  fold_left (fun d o => apply o d) ops d.

(** No key of the table is above the [AUTOINCREMENT] counter. *)
Definition sequenced (d : db) : Prop :=
  forall r, In r (players d) -> Row.id r <= seq d.

(** A player object with the given name and role, and no key. *)
Definition named (name role : string) : Player :=
  ModelsOps.new_player (PyStr name) (PyStr role) (PyStr "").
End CrudNotions.

(** ** Searching the table *)

Module SearchNotions.
Import Py.
Import Models.
Import Repository.
Import RepositoryCrud.

(** The text holds no wildcard of [LIKE] and no U+0000. *)
Definition plain (filter_text : string) : bool :=
  forallb (fun c => negb (Ascii.eqb c "%") && negb (Ascii.eqb c "_")
                    && negb (Ascii.eqb c Ascii.zero))
          (list_ascii_of_string filter_text).

(** A text with its ASCII capitals made small. *)
Fixpoint nocase (s : string) : string :=
  match s with
  | EmptyString => EmptyString
  | String c s' => String (ascii_lower c) (nocase s')
  end.

(** The column is a text in which, before its first U+0000,
    [filter_text] occurs, the ASCII letters compared without regard to
    case. *)
Definition mentions (filter_text : string) (column : pyval) : bool :=
  match column with
  | PyStr text => contains (nocase filter_text) (nocase (until_nul text))
  | PyNone => false
  end.

Definition row_mentions (filter_text : string) (r : Row.t) : bool :=
  mentions filter_text (PyStr (Row.ign r))
  || mentions filter_text (PyStr (Row.role r))
  || mentions filter_text (Row.team r).

(** The column is a text that does not begin with U+0000 and is not
    empty. *)
Definition has_character (column : pyval) : bool :=
  match column with
  | PyStr text => negb (String.eqb (until_nul text) "")
  | PyNone => false
  end.

(** One of the three searched columns holds such a text. *)
Definition has_text (r : Row.t) : bool :=
  has_character (PyStr (Row.ign r)) || has_character (PyStr (Row.role r))
  || has_character (Row.team r).
End SearchNotions.

(** ** Adding and updating players by hand *)

Module ServiceNotions.
Import Py.
Import Models.
Import Repository.
Import PlayerService.
Import PlayerServiceOps.
Import RepositoryNotions.

(** The text neither begins nor ends with white space. *)
Definition tight (s : string) : Prop :=
  match list_ascii_of_string s with
  | [] => True
  | c :: rest => is_space c = false /\ is_space (List.last rest c) = false
  end.

(** The name is [None], empty or made of white space only. *)
Definition blank (name : pyval) : bool :=
  match name with
  | PyNone => true
  | PyStr s => forallb is_space (list_ascii_of_string s)
  end.

(** A player object with the given name, no role, team or key. *)
Definition unnamed (name : pyval) : Player :=
  ModelsOps.new_player name (PyStr "") (PyStr "").
End ServiceNotions.

(** ** The distributions of the dashboard *)

Module StatsNotions.
Import Py.
Import Models.
Import Repository.
Import RepositoryCrud.
Import StatsService.

(** How often [key] occurs in a list of keys. *)
Definition tally (key : pyval) (keys : list pyval) : Z :=
  Z.of_nat (length (List.filter (fun k => bool_decide (k = key)) keys)).

(** The entry of [key] in a distribution over [keys]: its tally, and no
    entry for a key that does not occur. *)
Definition entry (key : pyval) (keys : list pyval) : option Z :=
  if tally key keys =? 0 then None else Some (tally key keys).

(** The key under which the distribution counts a row. *)
Definition role_key (r : Row.t) : pyval := or_unknown (PyStr (Row.role r)).
Definition team_key (r : Row.t) : pyval := or_unknown (Row.team r).

(** The sum of the counts of a distribution. *)
Definition counted (distribution : PyDict.dict pyval Z) : Z :=
  fold_right (fun kv acc => snd kv + acc) 0 distribution.

(** An [ORDER BY ign COLLATE NOCASE] that keeps rows of equal names in
    table order: sorting by insertion. *)
Fixpoint nocase_le (a b : string) : bool :=
  match a, b with
  | EmptyString, _ => true
  | String _ _, EmptyString => false
  | String x a', String y b' =>
      let x' := nat_of_ascii (ascii_lower x) in
      let y' := nat_of_ascii (ascii_lower y) in
      (x' <? y')%nat || ((x' =? y')%nat && nocase_le a' b')
  end.

Fixpoint insert_row (r : Row.t) (sorted : list Row.t) : list Row.t :=
  match sorted with
  | [] => [r]
  | x :: rest =>
      if nocase_le (Row.ign x) (Row.ign r) then x :: insert_row r rest
      else r :: sorted
  end.

Definition sort_rows (rows : list Row.t) : list Row.t :=
  fold_left (fun sorted r => insert_row r sorted) rows [].

(** Three players, two of them mid laners, one without a role or team. *)
Definition row_of (key : Z) (name role : string) (team : pyval) : Row.t :=
  {| Row.id := key; Row.ign := name; Row.role := role; Row.team := team;
     Row.games_played := 0; Row.wins := 0; Row.kills := 0; Row.deaths := 0;
     Row.assists := 0; Row.total_gold := 0; Row.total_cs := 0; Row.total_damage := 0;
     Row.total_minutes := Some float_zero; Row.last_updated := 0 |}.

Definition roster : db :=
  {| players := [ row_of 1 "Faker" "Mid" (PyStr "T1");
                  row_of 2 "chovy" "Mid" (PyStr "GEN");
                  row_of 3 "Zeus" "" PyNone ];
     seq := 3 |}.
End StatsNotions.

(** ** The choice of a player image *)

Module ImageNotions.
Import Py.
Import Leaguepedia.
Import ImageSearch.

(** The score of an image that passes the three tests of the scan, and
    [None] for one that does not. *)
Definition candidate (player_lower team_lower : string) (img : row) : option Z :=
  match lower_method (get_or img "name" (PyStr "")) with
  | Ok img_name =>
      if qualifies player_lower img_name
      then Some (score_of team_lower img_name (get_or img "timestamp" (PyStr "")))
      else None
  | Raise _ => None
  end.

(** An image with the given file name and upload time. *)
Definition image (name timestamp : string) : row :=
  {[ "name" := PyStr name; "timestamp" := PyStr timestamp ]}.
End ImageNotions.


(* ===================================================================== *)
(** * Properties                                                          *)
(* ===================================================================== *)

(** ** The query filter *)

Module QueryFacts.
Import Py.
Import LeaguepediaClient.
Import QueryNotions.

(** C8. For the label "LCK" and the year "2025" the filter is the LCK
    pattern followed by the twenty tier-2 exclusions, in the order of
    the list: it contains every one of them and each of the three
    LCK-specific alternatives. For the label "Worlds" the filter is the
    Worlds pattern alone, whatever the year; for the year "2025" it is
    the pattern written out, none of the twenty exclusions occurs in it,
    and it contains no [NOT LIKE] at all. *)
Theorem where_clause_tier2_exclusions :
  length tier2_marks = 20%nat
  /\ where_clause "LCK" "2025"
     = Ok (join " AND " (lck_2025 :: map exclusion_of tier2_marks))
  /\ (exists w,
        where_clause "LCK" "2025" = Ok w
        /\ Forall (fun mark => contains (exclusion_of mark) w = true) tier2_marks
        /\ Forall (fun pat => contains pat w = true) lck_2025_alternatives)
  /\ (forall year,
        where_parts "Worlds" year = Ok [worlds_pattern year]
        /\ where_clause "Worlds" year = Ok (worlds_pattern year))
  /\ where_clause "Worlds" "2025" = Ok worlds_2025
  /\ Forall (fun mark => contains (exclusion_of mark) worlds_2025 = false) tier2_marks
  /\ contains "NOT LIKE" worlds_2025 = false.
Proof.
  split; [reflexivity |].
  split; [vm_compute; reflexivity |].
  split.
  { eexists. split; [reflexivity |]. split.
    - unfold tier2_marks. repeat (constructor; [vm_compute; reflexivity |]). constructor.
    - unfold lck_2025_alternatives.
      repeat (constructor; [vm_compute; reflexivity |]). constructor. }
  split; [intros year; split; reflexivity |].
  split; [vm_compute; reflexivity |].
  split; [| vm_compute; reflexivity].
  unfold tier2_marks. repeat (constructor; [vm_compute; reflexivity |]). constructor.
Qed.
End QueryFacts.

(** ** The login handshake *)

Module LoginFacts.
Import Py.
Import LeaguepediaClient.
Import LoginNotions.

(** Closes a branch of [login]'s case analysis once the run has been
    evaluated. *)
Ltac login_branch Hin :=
  eexists; split; [reflexivity |]; simpl; rewrite ?Hin;
  repeat split; try reflexivity; try discriminate; try lia.

(** C9. [login] never raises. It answers [True] exactly when the client
    was already logged in or the wiki acknowledges the handshake with
    "Success", and the client is logged in afterwards exactly in that case.
    A logged-in client is returned untouched: no exchange is made.
    Otherwise at most two exchanges are made. *)
Theorem login_idempotent_total (server : nat -> request -> http_outcome) (c : client) :
  exists c',
    login server c = (Ok (is_logged_in c || acknowledged server c), c')
    /\ is_logged_in c' = is_logged_in c || acknowledged server c
    /\ (is_logged_in c = true -> c' = c)
    /\ (exchanges c <= exchanges c' <= exchanges c + 2)%nat.
Proof.
  unfold login, acknowledged.
  destruct (is_logged_in c) eqn:Hin.
  - exists c. rewrite Hin. simpl. repeat split; auto; lia.
  - unfold try_except, bind, _rate_limit, emit, exchange, ret, set_logged_in, record. simpl.
    destruct (server (exchanges c) GetLoginToken) as [e | data]; simpl;
      [login_branch Hin |].
    destruct (truthy (logintoken data)); simpl; [| login_branch Hin].
    destruct (server (S (exchanges c)) _) as [e | result]; simpl; [login_branch Hin |].
    unfold bool_decide.
    destruct (decide_rel eq (login_result result) (PyStr "Success")) as [Hack | Hack];
      destruct (decide (login_result result = PyStr "Success")); try contradiction;
      simpl; login_branch Hin.
Qed.

(** A first login against a wiki that accepts the credentials succeeds
    after two exchanges, and a second login is answered from the flag;
    against an unreachable wiki the login fails and the client stays
    logged out. *)
Lemma login_idempotent_total_witness :
  (exists c',
      login welcoming_wiki new_client = (Ok true, c')
      /\ is_logged_in c' = true
      /\ exchanges c' = 2%nat
      /\ login welcoming_wiki c' = (Ok true, c'))
  /\ (exists c',
        login unreachable_wiki new_client = (Ok false, c')
        /\ is_logged_in c' = false).
Proof.
  split.
  - destruct (login_idempotent_total welcoming_wiki new_client) as [c' (Hrun & Hflag & _ & _)].
    exists c'. split; [exact Hrun |]. split; [exact Hflag |].
    split; [injection Hrun as <-; reflexivity |].
    destruct (login_idempotent_total welcoming_wiki c') as [c'' (Hrun' & _ & Hsame & _)].
    rewrite Hrun', (Hsame Hflag), Hflag. reflexivity.
  - destruct (login_idempotent_total unreachable_wiki new_client) as [c' (Hrun & Hflag & _ & _)].
    exists c'. split; [exact Hrun | exact Hflag].
Defined.
End LoginFacts.

(** ** The retry loop of [_cargo_query] *)

Module RetryFacts.
Import Py.
Import Leaguepedia.
Import LeaguepediaClient.
Import RetryNotions.

Section Retry.
Variable server : nat -> request -> http_outcome.
Variable r : request.

Lemma attempt_once_rate_limited attempt c :
  rate_limited (server (exchanges c) r) = true ->
  attempt_once server r attempt c
  = (Ok None, backed_off r (5 * (Z.of_nat attempt + 1)) c).
Proof.
  unfold rate_limited, attempt_once, bind, _rate_limit, emit, exchange, record, ret. simpl.
  destruct (server (exchanges c) r) as [e | data]; [discriminate |].
  destruct (error data) as [err |]; [| discriminate].
  intros ->. reflexivity.
Qed.

Lemma attempt_once_transport_retry attempt c :
  transport_failure (server (exchanges c) r) = true ->
  (attempt < Config.API_MAX_RETRIES - 1)%nat ->
  attempt_once server r attempt c
  = (Ok None, backed_off r (3 * (Z.of_nat attempt + 1)) c).
Proof.
  unfold transport_failure, attempt_once, bind, _rate_limit, emit, exchange, record, ret. simpl.
  destruct (server (exchanges c) r) as [e | data]; [| discriminate].
  intros He Hlt. apply bool_decide_eq_true in He.
  destruct (decide (exn_cls e = RequestException)); [| contradiction].
  apply Nat.ltb_lt in Hlt. simpl in Hlt. rewrite Hlt. reflexivity.
Qed.

Lemma attempt_once_transport_last attempt c e :
  server (exchanges c) r = Raises e ->
  exn_cls e = RequestException ->
  (Config.API_MAX_RETRIES - 1 <= attempt)%nat ->
  attempt_once server r attempt c = (Raise e, exchanged r c).
Proof.
  unfold attempt_once, bind, _rate_limit, emit, exchange, record, ret. simpl.
  intros -> He Hge.
  destruct (decide (exn_cls e = RequestException)); [| contradiction].
  apply Nat.ltb_ge in Hge. simpl in Hge. rewrite Hge. reflexivity.
Qed.

Lemma attempt_once_rows attempt c data :
  server (exchanges c) r = Json data ->
  error data = None ->
  attempt_once server r attempt c = (Ok (Some (cargoquery data)), exchanged r c).
Proof.
  unfold attempt_once, bind, _rate_limit, emit, exchange, record, ret. simpl.
  intros -> ->. reflexivity.
Qed.

Lemma attempt_once_retriable attempt c :
  retriable attempt (server (exchanges c) r) = true ->
  exists seconds, attempt_once server r attempt c = (Ok None, backed_off r seconds c).
Proof.
  unfold retriable. intros H. apply orb_true_iff in H as [H | H].
  - eexists. apply attempt_once_rate_limited, H.
  - apply andb_true_iff in H as [H1 H2]. apply Nat.ltb_lt in H2.
    eexists. apply attempt_once_transport_retry; assumption.
Qed.

(** Every attempt performs exactly one exchange and leaves the login
    flag alone. *)
Lemma attempt_once_exchanges attempt c :
  exchanges (snd (attempt_once server r attempt c)) = S (exchanges c)
  /\ is_logged_in (snd (attempt_once server r attempt c)) = is_logged_in c.
Proof.
  unfold attempt_once, bind, _rate_limit, emit, exchange, record, ret. simpl.
  destruct (server (exchanges c) r) as [e | data].
  - destruct (decide (exn_cls e = RequestException)); [| auto].
    destruct (_ <? _)%nat; auto.
  - destruct (error data) as [err |]; [| auto].
    destruct (String.eqb _ _); auto.
Qed.

(** The loop never performs more exchanges than it has attempts. *)
Lemma retry_loop_bounded attempts :
  forall c,
    (exchanges (snd (retry_loop server r attempts c)) <= exchanges c + length attempts)%nat
    /\ is_logged_in (snd (retry_loop server r attempts c)) = is_logged_in c.
Proof.
  induction attempts as [| attempt rest IH]; intros c; simpl.
  - split; [lia | reflexivity].
  - unfold bind.
    destruct (attempt_once_exchanges attempt c) as [Hex Hin].
    destruct (attempt_once server r attempt c) as [[[rows |] | e] c1]; simpl in *.
    + rewrite Hex. split; [lia | assumption].
    + destruct (IH c1) as [IH1 IH2]. rewrite IH2. split; [lia | assumption].
    + split; [lia | assumption].
Qed.

(** When every attempt of the list is retriable, the loop falls out of
    its last turn and the empty list is returned. *)
Lemma retry_loop_exhausted attempts :
  forall c,
    (forall i attempt, attempts !! i = Some attempt ->
                       retriable attempt (server (exchanges c + i)%nat r) = true) ->
    exists c',
      retry_loop server r attempts c = (Ok [], c')
      /\ exchanges c' = (exchanges c + length attempts)%nat.
Proof.
  induction attempts as [| attempt rest IH]; intros c Hall; simpl.
  - exists c. split; [reflexivity | lia].
  - unfold bind.
    destruct (attempt_once_retriable attempt c) as [seconds ->].
    { specialize (Hall 0%nat attempt eq_refl). rewrite Nat.add_0_r in Hall. exact Hall. }
    destruct (IH (backed_off r seconds c)) as [c' [Hrun Hex]].
    { intros i a Hi. specialize (Hall (S i) a Hi).
      replace (exchanges (backed_off r seconds c) + i)%nat
        with (exchanges c + S i)%nat by (simpl; lia).
      exact Hall. }
    exists c'. split; [exact Hrun |]. rewrite Hex. simpl. lia.
Qed.

(** The same, when the attempts before the last are retriable and the
    last one meets a transport failure: the exception reaches the caller. *)
Lemma retry_loop_surfaces attempts last e :
  forall c,
    (forall i attempt, attempts !! i = Some attempt ->
                       retriable attempt (server (exchanges c + i)%nat r) = true) ->
    server (exchanges c + length attempts)%nat r = Raises e ->
    exn_cls e = RequestException ->
    (Config.API_MAX_RETRIES - 1 <= last)%nat ->
    exists c', retry_loop server r (attempts ++ [last]) c = (Raise e, c').
Proof.
  induction attempts as [| attempt rest IH]; intros c Hall Hlast He Hge; simpl.
  - unfold bind. rewrite Nat.add_0_r in Hlast.
    rewrite (attempt_once_transport_last last c e Hlast He Hge). eauto.
  - unfold bind.
    destruct (attempt_once_retriable attempt c) as [seconds ->].
    { specialize (Hall 0%nat attempt eq_refl). rewrite Nat.add_0_r in Hall. exact Hall. }
    apply (IH (backed_off r seconds c)); try assumption.
    + intros i a Hi. specialize (Hall (S i) a Hi).
      replace (exchanges (backed_off r seconds c) + i)%nat
        with (exchanges c + S i)%nat by (simpl; lia).
      exact Hall.
    + replace (exchanges (backed_off r seconds c) + length rest)%nat
        with (exchanges c + length (attempt :: rest))%nat by (simpl; lia).
      exact Hlast.
Qed.
End Retry.

Lemma ensure_logged_in_when_logged_in server c :
  is_logged_in c = true -> ensure_logged_in server c = (Ok tt, c).
Proof. unfold ensure_logged_in. intros ->. reflexivity. Qed.

Lemma ensure_logged_in_ok server c :
  ensure_logged_in server c = (Ok tt, snd (ensure_logged_in server c)).
Proof.
  unfold ensure_logged_in. destruct (is_logged_in c); [reflexivity |].
  destruct (login server c). reflexivity.
Qed.

(** The handshake before the loop: at most two exchanges, and none for
    a client that is logged in. *)
Lemma ensure_logged_in_exchanges server c :
  (exchanges (snd (ensure_logged_in server c)) <= exchanges c + 2)%nat
  /\ (is_logged_in c = true -> snd (ensure_logged_in server c) = c).
Proof.
  unfold ensure_logged_in. destruct (is_logged_in c) eqn:Hin.
  { split; [simpl; lia | reflexivity]. }
  split; [| discriminate].
  unfold login. rewrite Hin.
  unfold try_except, bind, _rate_limit, emit, exchange, ret, set_logged_in, record. simpl.
  destruct (server (exchanges c) GetLoginToken) as [e | data]; simpl; [lia |].
  destruct (truthy (logintoken data)); simpl; [| lia].
  destruct (server (S (exchanges c)) _) as [e | result]; simpl; [lia |].
  destruct (decide (login_result result = PyStr "Success")); simpl; lia.
Qed.

Lemma cargo_query_unfold server q limit offset c :
  _cargo_query server q limit offset c
  = retry_loop server (GetCargo q (Z.min limit Config.API_MAX_LIMIT) offset)
      (List.seq 0 Config.API_MAX_RETRIES) (snd (ensure_logged_in server c)).
Proof.
  unfold _cargo_query, bind at 1. rewrite ensure_logged_in_ok. reflexivity.
Qed.

Lemma lookup_seq_5 i attempt :
  List.seq 0 Config.API_MAX_RETRIES !! i = Some attempt -> attempt = i /\ (i < 5)%nat.
Proof.
  unfold Config.API_MAX_RETRIES. simpl.
  destruct i as [| [| [| [| [| i]]]]]; simpl; intros H; inversion H; split; lia.
Qed.

(** C10. When each of the five attempts is answered with a rate-limit
    error, [_cargo_query] returns the empty list without raising, after
    exactly five exchanges; a wiki whose result set is empty yields the
    same return value. *)
Theorem cargo_query_rate_limited_returns_empty
    (server : nat -> request -> http_outcome) (q : query) (limit offset : Z) (c : client) :
  let c0 := snd (ensure_logged_in server c) in
  (forall i, (i < 5)%nat ->
     rate_limited (server (exchanges c0 + i)%nat
                     (GetCargo q (Z.min limit Config.API_MAX_LIMIT) offset)) = true) ->
  fst (_cargo_query server q limit offset c) = Ok []
  /\ exchanges (snd (_cargo_query server q limit offset c)) = (exchanges c0 + 5)%nat
  /\ fst (_cargo_query server q limit offset c)
     = fst (_cargo_query empty_wiki q limit offset c).
Proof.
  intros c0 Hall.
  rewrite cargo_query_unfold. fold c0.
  destruct (retry_loop_exhausted server
              (GetCargo q (Z.min limit Config.API_MAX_LIMIT) offset)
              (List.seq 0 Config.API_MAX_RETRIES) c0)
    as [c' [Hrun Hex]].
  { intros i attempt Hi. apply lookup_seq_5 in Hi as [-> Hlt].
    unfold retriable. rewrite (Hall i Hlt). reflexivity. }
  rewrite Hrun. simpl. split; [reflexivity |]. split; [exact Hex |].
  rewrite cargo_query_unfold. simpl.
  unfold bind, attempt_once, bind, _rate_limit, emit, exchange, record, ret, empty_wiki. simpl.
  reflexivity.
Qed.

(** A wiki that is rate limited for good: the call comes back empty. *)
Lemma cargo_query_rate_limited_returns_empty_witness :
  fst (_cargo_query (rate_limited_then 5 []) any_query 500 0 logged_in_client) = Ok []
  /\ exchanges (snd (_cargo_query (rate_limited_then 5 []) any_query 500 0 logged_in_client)) = 5%nat
  /\ fst (_cargo_query (rate_limited_then 5 []) any_query 500 0 logged_in_client)
     = fst (_cargo_query empty_wiki any_query 500 0 logged_in_client).
Proof.
  apply (cargo_query_rate_limited_returns_empty
           (rate_limited_then 5 []) any_query 500 0 logged_in_client).
  intros i Hi. simpl.
  destruct i as [| [| [| [| [| i]]]]]; [reflexivity .. | lia].
Defined.

(** Five rate-limit answers use up the whole budget: the rows the wiki
    would send on a sixth attempt are never asked for. *)
Lemma rate_limits_outside_budget_fails : ~ rate_limits_outside_budget.
Proof.
  intros H. specialize (H 5%nat [∅]). vm_compute in H. discriminate H.
Qed.

(** C4, as the code has it. Rate-limit answers and transport failures draw
    on one budget of [API_MAX_RETRIES] attempts: after the handshake,
    which takes at most two exchanges and none when the client is
    logged in, a call never sends the query more than five times, so
    that it performs at most seven exchanges, and five when logged
    in. A rate-limited attempt backs off for
    [5 * (attempt + 1)] seconds, a failed one for [3 * (attempt + 1)].
    When the first four attempts are retriable, a transport failure on
    the fifth is raised to the caller, while a rate-limit answer on the
    fifth ends the call with the empty list. *)
Theorem cargo_query_shared_retry_budget
    (server : nat -> request -> http_outcome) (q : query) (limit offset : Z) (c : client) :
  let c0 := snd (ensure_logged_in server c) in
  let r := GetCargo q (Z.min limit Config.API_MAX_LIMIT) offset in
  (exchanges (snd (_cargo_query server q limit offset c)) <= exchanges c0 + 5)%nat
  /\ (exchanges (snd (_cargo_query server q limit offset c)) <= exchanges c + 7)%nat
  /\ (is_logged_in c = true ->
      (exchanges (snd (_cargo_query server q limit offset c)) <= exchanges c + 5)%nat)
  /\ (forall attempt c1,
        rate_limited (server (exchanges c1) r) = true ->
        attempt_once server r attempt c1
        = (Ok None, backed_off r (5 * (Z.of_nat attempt + 1)) c1))
  /\ (forall attempt c1,
        transport_failure (server (exchanges c1) r) = true ->
        (attempt < 4)%nat ->
        attempt_once server r attempt c1
        = (Ok None, backed_off r (3 * (Z.of_nat attempt + 1)) c1))
  /\ ((forall i, (i < 4)%nat -> retriable i (server (exchanges c0 + i)%nat r) = true) ->
      forall e,
        server (exchanges c0 + 4)%nat r = Raises e ->
        exn_cls e = RequestException ->
        fst (_cargo_query server q limit offset c) = Raise e)
  /\ ((forall i, (i < 4)%nat -> retriable i (server (exchanges c0 + i)%nat r) = true) ->
      rate_limited (server (exchanges c0 + 4)%nat r) = true ->
      fst (_cargo_query server q limit offset c) = Ok []).
Proof.
  intros c0 r. rewrite cargo_query_unfold. fold c0. fold r.
  pose proof (retry_loop_bounded server r (List.seq 0 Config.API_MAX_RETRIES) c0) as [Hloop _].
  change (length (List.seq 0 Config.API_MAX_RETRIES)) with 5%nat in Hloop.
  destruct (ensure_logged_in_exchanges server c) as [Hshake Hnone]. fold c0 in Hshake, Hnone.
  split; [| split; [| split; [| split; [| split; [| split]]]]].
  - exact Hloop.
  - lia.
  - intros Hin. pose proof (f_equal exchanges (Hnone Hin)) as E. lia.
  - intros attempt c1. apply attempt_once_rate_limited.
  - intros attempt c1. apply attempt_once_transport_retry.
  - intros Hall e Hlast He.
    destruct (retry_loop_surfaces server r (List.seq 0 4) 4%nat e c0) as [c' Hrun].
    + intros i attempt Hi.
      assert (attempt = i /\ (i < 4)%nat) as [-> Hlt].
      { simpl in Hi. destruct i as [| [| [| [| i]]]]; simpl in Hi; inversion Hi; split; lia. }
      apply Hall, Hlt.
    + exact Hlast.
    + exact He.
    + simpl. lia.
    + change (List.seq 0 Config.API_MAX_RETRIES) with (List.seq 0 4 ++ [4%nat]).
      rewrite Hrun. reflexivity.
  - intros Hall Hlast.
    destruct (retry_loop_exhausted server r (List.seq 0 Config.API_MAX_RETRIES) c0)
      as [c' [Hrun _]].
    + intros i attempt Hi. apply lookup_seq_5 in Hi as [-> Hlt].
      destruct (decide (i < 4)%nat) as [Hi4 | Hi4]; [apply Hall, Hi4 |].
      assert (i = 4%nat) as -> by lia.
      unfold retriable. rewrite Hlast. reflexivity.
    + rewrite Hrun. reflexivity.
Qed.

(** Five failed exchanges in a row raise the last failure; four failed
    exchanges followed by a rate-limit answer come back empty. *)
Lemma cargo_query_shared_retry_budget_witness :
  fst (_cargo_query (unreachable_then_rate_limited 5) any_query 500 0 logged_in_client)
  = Raise (Exn RequestException "connection reset")
  /\ fst (_cargo_query (unreachable_then_rate_limited 4) any_query 500 0 logged_in_client)
     = Ok [].
Proof.
  destruct (cargo_query_shared_retry_budget
              (unreachable_then_rate_limited 5) any_query 500 0 logged_in_client)
    as (_ & _ & _ & _ & _ & Hraise & _).
  destruct (cargo_query_shared_retry_budget
              (unreachable_then_rate_limited 4) any_query 500 0 logged_in_client)
    as (_ & _ & _ & _ & _ & _ & Hempty).
  split.
  - apply Hraise; [| reflexivity | reflexivity].
    intros i Hi. destruct i as [| [| [| [| i]]]]; [reflexivity .. | lia].
  - apply Hempty; [| reflexivity].
    intros i Hi. destruct i as [| [| [| [| i]]]]; [reflexivity .. | lia].
Defined.
End RetryFacts.

(** ** The paginator *)

Module PaginatorFacts.
Import Py.
Import Leaguepedia.
Import LeaguepediaClient.
Import PaginatorNotions.

Section Pages.
Variable server : nat -> request -> http_outcome.
Variable q : query.













(** Whatever the loop returns has at most 2500 rows. *)
Lemma query_all_loop_capped progress_callback fuel :
  forall all_results offset c rows,
    fst (query_all_loop server fuel q progress_callback all_results offset c) = Ok (Some rows) ->
    Z.of_nat (length rows) <= max_results.
Proof.
  induction fuel as [| fuel IH]; intros all_results offset c rows.
  - discriminate.
  - simpl. unfold bind at 1.
    destruct (_cargo_query server q Config.API_MAX_LIMIT offset c) as [[results | e] c1];
      [| discriminate].
    unfold bind at 1.
    destruct (match progress_callback with
              | Some f => f (Z.of_nat (length (all_results ++ results)))
              | None => ret tt
              end c1) as [[[] | e] c2]; [| discriminate].
    destruct (_ || _).
    + simpl. intros [= <-]. rewrite length_take. unfold max_results. lia.
    + apply IH.
Qed.


End Pages.


(** A wiki with 1234 rows is read in three pages, at offsets 0, 500 and
    1000, and all its rows come back. *)
Example cargo_query_all_short_source :
  let '(result, c) :=
    _cargo_query_all (paged_wiki 1234) RetryNotions.any_query None new_client in
  (length <$> match result with Ok rows => Some rows | Raise _ => None end) = Some 1234%nat
  /\ cargo_offsets (log c) = [0; 500; 1000].
Proof. vm_compute. split; reflexivity. Qed.

End PaginatorFacts.

(** ** Row normalisation *)

Module NormalizerFacts.
Import Py.
Import Leaguepedia.
Import NormalizerNotions.

Section Normalizer.
Variable float_of_string : string -> option float.

Lemma parse_row_text r :
  is_text (get_or r "PlayerWin" (PyStr "")) = true ->
  parse_row float_of_string r = Ok (stats_of float_of_string r).
Proof.
  unfold parse_row, stats_of.
  destruct (get_or r "PlayerWin" (PyStr "")); [discriminate | reflexivity].
Qed.

Lemma parse_row_null r :
  is_text (get_or r "PlayerWin" (PyStr "")) = false ->
  exists e, parse_row float_of_string r = Raise e.
Proof.
  unfold parse_row.
  destruct (get_or r "PlayerWin" (PyStr "")); [simpl; eauto | discriminate].
Qed.

Lemma normalize_step_accepted game_stats r :
  normalize_step float_of_string game_stats r
  = if accepted r then game_stats ++ [stats_of float_of_string r] else game_stats.
Proof.
  unfold normalize_step, accepted.
  destruct (is_text (get_or r "PlayerWin" (PyStr ""))) eqn:Htext.
  - rewrite (parse_row_text r Htext). reflexivity.
  - destruct (parse_row_null r Htext) as [e ->]. reflexivity.
Qed.

Lemma fold_normalize_step results :
  forall game_stats,
    fold_left (normalize_step float_of_string) results game_stats
    = game_stats ++ map (stats_of float_of_string) (List.filter accepted results).
Proof.
  induction results as [| r results IH]; intros game_stats; simpl.
  - rewrite app_nil_r. reflexivity.
  - rewrite IH, normalize_step_accepted.
    destruct (accepted r); simpl; [rewrite <- app_assoc |]; reflexivity.
Qed.

Lemma safe_int_unparsable s default :
  int_of_string s = None -> safe_int (PyStr s) default = default.
Proof.
  intros H. unfold safe_int. rewrite H. destruct (truthy (PyStr s)); reflexivity.
Qed.

Lemma parse_game_length_default gl :
  gl = PyNone \/ gl = PyStr "" \/ (exists s, gl = PyStr s /\ float_of_string s = None) ->
  parse_game_length float_of_string gl = default_game_length.
Proof.
  intros [-> | [-> | [s [-> Hs]]]]; try reflexivity.
  unfold parse_game_length. rewrite Hs. destruct (truthy (PyStr s)); reflexivity.
Qed.

(** The output is, in input order, one record for each row whose win
    flag is absent or a string and whose player identity is truthy; a
    row is left out exactly when its identity is falsy or its win flag
    is no string. A numeric field that does not parse is read as 0 (so
    is an absent one), and the game length is 30.0 when the field is
    absent, empty or does not parse. *)
Lemma normalize_rows_kept :
  (forall results,
      normalize_rows float_of_string results
      = map (stats_of float_of_string) (List.filter accepted results))
  /\ (forall r,
        normalize_rows float_of_string [r] = []
        <-> truthy (get_or r "Link" (PyStr "")) = false
            \/ is_text (get_or r "PlayerWin" (PyStr "")) = false)
  /\ (forall s default, int_of_string s = None -> safe_int (PyStr s) default = default)
  /\ safe_int (PyStr "abc") 0 = 0
  /\ safe_int PyNone 0 = 0
  /\ (forall gl,
        gl = PyNone \/ gl = PyStr "" \/ (exists s, gl = PyStr s /\ float_of_string s = None) ->
        parse_game_length float_of_string gl = default_game_length).
Proof.
  assert (Hall : forall results,
             normalize_rows float_of_string results
             = map (stats_of float_of_string) (List.filter accepted results)).
  { intros results. unfold normalize_rows. apply fold_normalize_step. }
  split; [exact Hall |]. split; [| split; [| split; [| split]]].
  - intros r. rewrite Hall. simpl. unfold accepted.
    destruct (get_or r "PlayerWin" (PyStr "")) as [| w]; simpl.
    + split; [auto | reflexivity].
    + destruct (truthy (get_or r "Link" (PyStr ""))); simpl.
      * split; [discriminate | intros [H | H]; discriminate].
      * split; [auto | reflexivity].
  - apply safe_int_unparsable.
  - reflexivity.
  - reflexivity.
  - apply parse_game_length_default.
Qed.

(** C6. The row of a named player whose win flag is [null]:
    [r.get("PlayerWin", "")] answers the [null], [.lower()] raises
    [AttributeError], and the handler of the loop skips the row, so the
    output is empty although the player identity is not. With the win
    flag absent the same row is kept, as a game not won, and a [null]
    in the kills or the game length of a row is read as the default
    and the row kept: the row is not left out for an empty identity,
    against the reading of the design document. *)
Theorem null_win_flag_drops_row :
  truthy (get_or row_with_null_win_flag "Link" (PyStr "")) = true
  /\ parse_row float_of_string row_with_null_win_flag
     = Raise (Exn AttributeError "'NoneType' object has no attribute 'lower'")
  /\ normalize_rows float_of_string [row_with_null_win_flag] = []
  /\ (exists stats,
        normalize_rows float_of_string [row_without_win_flag] = [stats]
        /\ player_name stats = PyStr "Faker" /\ won stats = false /\ kills stats = 5)
  /\ (exists stats,
        normalize_rows float_of_string [row_with_null_numbers] = [stats]
        /\ player_name stats = PyStr "Faker" /\ won stats = true /\ kills stats = 0
        /\ game_length_minutes stats = default_game_length)
  /\ ~ rejects_only_nameless float_of_string.
Proof.
  split; [reflexivity |]. split; [reflexivity |]. split; [reflexivity |].
  split; [eexists; split; [reflexivity |]; repeat split; reflexivity |].
  split; [eexists; split; [reflexivity |]; repeat split; reflexivity |].
  intros H. destruct (H row_with_null_win_flag) as [H1 _].
  specialize (H1 eq_refl). discriminate H1.
Qed.
End Normalizer.

(** The row with letters for kills is kept, with 0 kills and a game of
    30 minutes. *)
Example normalize_rows_bad_numbers :
  normalize_rows decimal_float_of_string [row_with_bad_numbers]
  = [stats_of decimal_float_of_string row_with_bad_numbers]
  /\ kills (stats_of decimal_float_of_string row_with_bad_numbers) = 0
  /\ deaths (stats_of decimal_float_of_string row_with_bad_numbers) = 2
  /\ game_length_minutes (stats_of decimal_float_of_string row_with_bad_numbers)
     = default_game_length
  /\ parse_game_length decimal_float_of_string (PyStr "n/a") = default_game_length.
Proof.
  destruct (normalize_rows_kept decimal_float_of_string)
    as (Hall & _ & _ & _ & _ & Hlen).
  split; [rewrite Hall; reflexivity |].
  split; [reflexivity |]. split; [reflexivity |]. split; [reflexivity |].
  apply Hlen. right. right. exists "n/a". split; reflexivity.
Qed.
End NormalizerFacts.

(** ** The import operation *)

Module ImportFacts.
Import Py.
Import Leaguepedia.
Import LeaguepediaClient.
Import Repository.
Import PlayerService.
Import ImportNotions.

Lemma no_data_message_not_failure tournament year e :
  failure_outcome e <> (0, 0, Some (no_data_message tournament year)).
Proof.
  unfold failure_outcome, no_data_message, rate_limit_message.
  destruct (contains "ratelimit" (lower (exn_msg e))); simpl; intros H; inversion H.
Qed.

(** C5, as the code has it. An import whose fetch stage yields no game
    record returns [(0, 0, "No data found for <tournament> <year>")]: the
    explanation travels in the error-message slot. The database is left
    as it was, and no failure of the import produces this outcome. *)
Theorem import_zero_yield
    (float_of_string : string -> option float)
    (server : nat -> request -> http_outcome) (clock : nat -> Models.datetime)
    (tournament year : string) (observed : bool) (s : service) :
  fst (fetch_stage float_of_string server tournament year observed s) = Ok [] ->
  import_from_leaguepedia float_of_string server clock tournament year observed s
  = ((0, 0, Some (no_data_message tournament year)),
     {| api_client := snd (fetch_stage float_of_string server tournament year observed s);
        repo := repo s |})
  /\ (forall e, failure_outcome e <> (0, 0, Some (no_data_message tournament year))).
Proof.
  intros Hfetch. split; [| intros e; apply no_data_message_not_failure].
  unfold import_from_leaguepedia.
  destruct (fetch_stage float_of_string server tournament year observed s)
    as [[game_stats | e] c2]; simpl in Hfetch; [| discriminate].
  injection Hfetch as ->. reflexivity.
Qed.

(** An import of LCK 2025 from a wiki that has no rows. *)
Lemma import_zero_yield_witness :
  import_from_leaguepedia NormalizerNotions.decimal_float_of_string RetryNotions.empty_wiki
    (fun _ => 0) "LCK" "2025" false fresh_service
  = ((0, 0, Some "No data found for LCK 2025"),
     {| api_client :=
          snd (fetch_stage NormalizerNotions.decimal_float_of_string RetryNotions.empty_wiki
                 "LCK" "2025" false fresh_service);
        repo := empty_db |})
  /\ (forall e, failure_outcome e <> (0, 0, Some "No data found for LCK 2025")).
Proof.
  apply (import_zero_yield NormalizerNotions.decimal_float_of_string RetryNotions.empty_wiki
           (fun _ => 0) "LCK" "2025" false fresh_service).
  vm_compute. reflexivity.
Defined.

Lemma zero_yield_without_error_fails : ~ zero_yield_without_error.
Proof.
  intros H.
  specialize (H NormalizerNotions.decimal_float_of_string RetryNotions.empty_wiki
                (fun _ => 0) "LCK" "2025" false fresh_service).
  assert (Hfetch : fst (fetch_stage NormalizerNotions.decimal_float_of_string
                          RetryNotions.empty_wiki "LCK" "2025" false fresh_service) = Ok [])
    by (vm_compute; reflexivity).
  specialize (H Hfetch). vm_compute in H. discriminate H.
Qed.
End ImportFacts.

(** ** The aggregator *)

Module AggregatorFacts.
Import Py.
Import Leaguepedia.
Import Literals.
Import AggregatorNotions.

Section Dict.
Context {V : Type}.
Implicit Types (d : PyDict.dict pyval V) (k : pyval) (v : V).

Lemma dict_get_set_eq d k v : PyDict.get (PyDict.set d k v) k = Some v.
Proof.
  induction d as [| [k' v'] d IH]; simpl.
  - destruct (decide (k = k)); [reflexivity | contradiction].
  - destruct (decide (k' = k)) as [-> | Hne]; simpl.
    + destruct (decide (k = k)); [reflexivity | contradiction].
    + destruct (decide (k' = k)); [contradiction | exact IH].
Qed.

Lemma dict_get_set_ne d k k' v :
  k <> k' -> PyDict.get (PyDict.set d k v) k' = PyDict.get d k'.
Proof.
  intros Hne. induction d as [| [k0 v0] d IH]; simpl.
  - destruct (decide (k = k')); [contradiction | reflexivity].
  - destruct (decide (k0 = k)) as [-> | Hne0]; simpl.
    + destruct (decide (k = k')); [contradiction | reflexivity].
    + destruct (decide (k0 = k')); [reflexivity | exact IH].
Qed.
End Dict.

(** The entry of a player after a run of the loop: the games of that
    player, folded into the entry found at the start or, failing that,
    into the fresh entry of the player's first game. *)
Lemma aggregate_fold name l :
  forall players,
    PyDict.get (fold_left aggregate_step l players) name
    = match games_of name l with
      | [] => PyDict.get players name
      | first :: _ =>
          Some (fold_left add_game (games_of name l)
                  (default (fresh_totals first) (PyDict.get players name)))
      end.
Proof.
  unfold games_of.
  induction l as [| gs l IH]; intros players; [reflexivity |].
  simpl fold_left. rewrite IH.
  destruct (decide (player_name gs = name)) as [Heq | Hne].
  - rewrite (filter_cons_True (fun gs' => player_name gs' = name) gs l Heq). unfold aggregate_step.
    rewrite Heq, dict_get_set_eq. simpl.
    destruct (filter _ l); reflexivity.
  - rewrite (filter_cons_False (fun gs' => player_name gs' = name) gs l Hne).
    unfold aggregate_step.
    rewrite (dict_get_set_ne _ _ _ _ Hne). reflexivity.
Qed.

Lemma aggregate_step_lookup players gs :
  PyDict.get (aggregate_step players gs) (player_name gs)
  = Some (add_game (default (fresh_totals gs) (PyDict.get players (player_name gs))) gs).
Proof.
  unfold aggregate_step. rewrite dict_get_set_eq.
  destruct (PyDict.get players (player_name gs)); reflexivity.
Qed.

Lemma aggregate_lookup name l :
  PyDict.get (aggregate_player_stats l) name
  = match games_of name l with
    | [] => None
    | first :: _ => Some (fold_left add_game (games_of name l) (fresh_totals first))
    end.
Proof. unfold aggregate_player_stats. rewrite aggregate_fold. reflexivity. Qed.

Lemma integer_totals_add_game p p' gs :
  integer_totals p = integer_totals p' ->
  integer_totals (add_game p gs) = integer_totals (add_game p' gs).
Proof.
  unfold integer_totals. intros H. injection H as H1 H2 H3 H4 H5 H6 H7 H8.
  simpl. congruence.
Qed.

Lemma integer_totals_swap p gs1 gs2 :
  integer_totals (add_game (add_game p gs1) gs2)
  = integer_totals (add_game (add_game p gs2) gs1).
Proof.
  unfold integer_totals. simpl.
  repeat (apply (f_equal2 cons); [lia |]). reflexivity.
Qed.

Lemma integer_totals_fold games :
  forall p p',
    integer_totals p = integer_totals p' ->
    integer_totals (fold_left add_game games p) = integer_totals (fold_left add_game games p').
Proof.
  induction games as [| gs games IH]; intros p p' H; simpl; [exact H |].
  apply IH, integer_totals_add_game, H.
Qed.

(** The integer accumulators do not depend on the order of the games. *)
Lemma integer_totals_permutation games games' :
  Permutation games games' ->
  forall p p',
    integer_totals p = integer_totals p' ->
    integer_totals (fold_left add_game games p) = integer_totals (fold_left add_game games' p').
Proof.
  induction 1 as [| gs l l' _ IH | gs1 gs2 l | l l' l'' _ IH1 _ IH2]; intros p p' H.
  - exact H.
  - simpl. apply IH, integer_totals_add_game, H.
  - simpl. apply integer_totals_fold.
    rewrite integer_totals_swap.
    apply integer_totals_add_game, integer_totals_add_game, H.
  - rewrite (IH1 p p eq_refl). apply IH2, H.
Qed.

Lemma add_game_fields games :
  forall p,
    Totals.role (fold_left add_game games p) = latest role games (Totals.role p)
    /\ Totals.team (fold_left add_game games p) = latest team games (Totals.team p)
    /\ Totals.total_minutes (fold_left add_game games p)
       = fold_left float_add (map game_length_minutes games) (Totals.total_minutes p)
    /\ Totals.ign (fold_left add_game games p) = Totals.ign p.
Proof.
  unfold latest.
  induction games as [| gs games IH]; intros p; simpl; [auto |].
  destruct (IH (add_game p gs)) as (-> & -> & -> & ->). auto.
Qed.

(** C1, as the code has it. For every player: the integer totals are the
    same for every ordering of the input; the minutes are the float sum
    of the player's game lengths taken in input order; and [role] and
    [team] are those of the player's last record, each kept from the
    records before when the last one has it empty. *)
Theorem aggregate_player_stats_order :
  (forall (l l' : list GameStats) (name : pyval),
      Permutation l l' ->
      integer_totals <$> PyDict.get (aggregate_player_stats l) name
      = integer_totals <$> PyDict.get (aggregate_player_stats l') name)
  /\ (forall (l : list GameStats) (name : pyval) (t : Totals.t),
        PyDict.get (aggregate_player_stats l) name = Some t ->
        Totals.total_minutes t = minutes_in_order (games_of name l)
        /\ Totals.games_played t = Z.of_nat (length (games_of name l)))
  /\ (forall (before after : list GameStats) (gs : GameStats),
        Forall (fun gs' => player_name gs' <> player_name gs) after ->
        exists t,
          PyDict.get (aggregate_player_stats (before ++ gs :: after)) (player_name gs) = Some t
          /\ Totals.role t
             = (if truthy (role gs) then role gs
                else match PyDict.get (aggregate_player_stats before) (player_name gs) with
                     | Some earlier => Totals.role earlier
                     | None => role gs
                     end)
          /\ Totals.team t
             = (if truthy (team gs) then team gs
                else match PyDict.get (aggregate_player_stats before) (player_name gs) with
                     | Some earlier => Totals.team earlier
                     | None => team gs
                     end)).
Proof.
  split; [| split].
  - intros l l' name Hperm. rewrite !aggregate_lookup.
    assert (Hgames : Permutation (games_of name l) (games_of name l'))
      by (unfold games_of; rewrite Hperm; reflexivity).
    pose proof (integer_totals_permutation _ _ Hgames) as Hint.
    destruct (games_of name l) as [| first games] eqn:E1;
      destruct (games_of name l') as [| first' games'] eqn:E2.
    + reflexivity.
    + apply Permutation_nil_l in Hgames. discriminate.
    + symmetry in Hgames. apply Permutation_nil_l in Hgames. discriminate.
    + simpl fmap. f_equal. apply Hint. reflexivity.
  - intros l name t. rewrite aggregate_lookup.
    destruct (games_of name l) as [| first games] eqn:E; [discriminate |].
    intros [= <-].
    destruct (add_game_fields (first :: games) (fresh_totals first)) as (_ & _ & Hmin & _).
    split; [exact Hmin |].
    assert (Hcount : forall gl p,
               Totals.games_played (fold_left add_game gl p)
               = Totals.games_played p + Z.of_nat (length gl)).
    { induction gl as [| g gl IH]; intros p; simpl length; simpl fold_left; [simpl; lia |].
      rewrite IH. simpl. lia. }
    exact (Hcount (first :: games) (fresh_totals first)).
  - intros before after gs Hafter.
    assert (Hnone : games_of (player_name gs) after = []).
    { unfold games_of. induction Hafter as [| gs' after Hne _ IH]; [reflexivity |].
      rewrite (filter_cons_False (fun gs0 => player_name gs0 = player_name gs) gs' after Hne).
      exact IH. }
    assert (Hrun :
              PyDict.get (aggregate_player_stats (before ++ gs :: after)) (player_name gs)
              = Some (add_game
                        (default (fresh_totals gs)
                           (PyDict.get (aggregate_player_stats before) (player_name gs)))
                        gs)).
    { unfold aggregate_player_stats. rewrite fold_left_app. simpl fold_left.
      rewrite aggregate_fold, Hnone. apply aggregate_step_lookup. }
    rewrite Hrun. eexists. split; [reflexivity |].
    destruct (PyDict.get (aggregate_player_stats before) (player_name gs)) as [earlier |];
      simpl; split; destruct (truthy _); reflexivity.
Qed.

(** Faker's three games: the last record has no role and no team, so the
    role of the first and the team of the second remain; the integer
    totals are those of the reversed list. *)
Lemma aggregate_player_stats_order_witness :
  integer_totals <$> PyDict.get (aggregate_player_stats three_games) (PyStr "Faker")
  = integer_totals <$> PyDict.get (aggregate_player_stats (rev three_games)) (PyStr "Faker")
  /\ (Totals.role <$> PyDict.get (aggregate_player_stats three_games) (PyStr "Faker"))
     = Some (PyStr "Mid")
  /\ (Totals.team <$> PyDict.get (aggregate_player_stats three_games) (PyStr "Faker"))
     = Some (PyStr "T1").
Proof.
  destruct aggregate_player_stats_order as (Hperm & _ & _).
  split; [| split; reflexivity].
  apply Hperm. apply Permutation_rev.
Defined.

(** The minutes of Faker's three games add up to 81.60000000000001 in
    the given order and to 81.6 in the reverse order. *)
Example three_games_minutes :
  minutes_in_order three_games = float_81_6_up
  /\ minutes_in_order (rev three_games) = float_81_6.
Proof. split; vm_compute; reflexivity. Qed.

(** So the minutes are not the same for every ordering of the input. *)
Lemma totals_order_independent_fails : ~ totals_order_independent.
Proof.
  intros H.
  specialize (H three_games (rev three_games) (PyStr "Faker") (Permutation_rev _)).
  vm_compute in H. discriminate H.
Qed.

(** The scenario of the design document: 2 games, 1 win, 7 kills,
    6 deaths, 15 assists and 58 minutes, hence a KDA of 22/6 and a win
    rate of 50. *)
Example aggregate_player_stats_scenario :
  let entry := PyDict.get (aggregate_player_stats two_games) (PyStr "Faker") in
  integer_totals <$> entry = Some [2; 1; 7; 6; 15; 0; 0; 0]
  /\ Totals.total_minutes <$> entry = Some float_58
  /\ Models.kda <$> (PlayerService.player_of_totals <$> entry) = Some (Ok float_22_over_6)
  /\ Models.win_rate <$> (PlayerService.player_of_totals <$> entry) = Some (Ok float_50).
Proof. vm_compute. repeat split. Qed.
End AggregatorFacts.

(** ** The reconciler *)

Module RepositoryFacts.
Import Py.
Import Models.
Import Repository.
Import Literals.
Import RepositoryNotions.

Lemma set_id_set_id p a b : set_id (set_id p a) b = set_id p b.
Proof. reflexivity. Qed.

Lemma ints_bind_set_id p a : ints_bind (set_id p a) = ints_bind p.
Proof. reflexivity. Qed.

Lemma bind_row_set_id p a rowid now : bind_row (set_id p a) rowid now = bind_row p rowid now.
Proof. reflexivity. Qed.

Lemma bind_row_fields p rowid now r :
  bind_row p rowid now = inr r ->
  Row.id r = rowid /\ Models.ign p = PyStr (Row.ign r) /\ from_row r = stored p rowid now.
Proof.
  unfold bind_row. destruct p as [i ro te gp w k de a tg tc td tm pid lu]. simpl.
  destruct i as [| i]; [discriminate |]. destruct ro as [| ro]; [discriminate |].
  intros [= <-]. simpl. split; [reflexivity |]. split; [reflexivity |].
  unfold from_row, stored. simpl. destruct tm as [[sign | sign | | sign m e] |]; reflexivity.
Qed.

Lemma bind_row_time p rowid t1 t2 r1 r2 :
  bind_row p rowid t1 = inr r1 -> bind_row p rowid t2 = inr r2 -> Row.ign r2 = Row.ign r1.
Proof.
  intros H1 H2. apply bind_row_fields in H1 as (_ & H1 & _).
  apply bind_row_fields in H2 as (_ & H2 & _). congruence.
Qed.

Lemma bind_row_error p rowid t1 t2 msg :
  bind_row p rowid t1 = inl msg -> bind_row p rowid t2 = inl msg.
Proof.
  unfold bind_row. destruct (Models.ign p); [auto |].
  destruct (Models.role p); [auto | discriminate].
Qed.

Lemma bind_row_ok p rowid t1 t2 r1 :
  bind_row p rowid t1 = inr r1 -> exists r2, bind_row p rowid t2 = inr r2.
Proof.
  unfold bind_row. destruct (Models.ign p); [discriminate |].
  destruct (Models.role p); [discriminate | eauto].
Qed.

(** In a list without duplicate keys, equal keys mean the same element. *)
Lemma NoDup_map_eq {A B : Type} (f : A -> B) (l : list A) (x y : A) :
  NoDup (map f l) -> In x l -> In y l -> f x = f y -> x = y.
Proof.
  induction l as [| a l IH]; simpl; [contradiction |].
  intros Hnodup Hx Hy Hf. apply NoDup_cons in Hnodup as [Hnotin Hnodup].
  destruct Hx as [-> | Hx], Hy as [-> | Hy].
  - reflexivity.
  - exfalso. apply Hnotin. rewrite Hf. apply list_elem_of_In, in_map, Hy.
  - exfalso. apply Hnotin. rewrite <- Hf. apply list_elem_of_In, in_map, Hx.
  - apply IH; assumption.
Qed.

Section Table.
Variable s : string.
Variable rowid : Z.

Let named (r' : Row.t) : bool := String.eqb (Row.ign r') s.
Let keyed (r' : Row.t) : bool := Row.id r' =? rowid.
Let clash (r' : Row.t) : bool := negb (Row.id r' =? rowid) && String.eqb (Row.ign r') s.

Lemma find_named_Some l e :
  List.find named l = Some e -> In e l /\ Row.ign e = s.
Proof.
  intros H. apply find_some in H as [Hin Hname]. split; [exact Hin |].
  apply String.eqb_eq, Hname.
Qed.

Lemma find_named_None l :
  List.find named l = None -> existsb named l = false.
Proof.
  intros H. apply not_true_is_false. intros Hex.
  apply existsb_exists in Hex as [x [Hin Hx]].
  pose proof (find_none _ _ H x Hin) as Hnot. congruence.
Qed.

Lemma existsb_keyed_In l e : In e l -> Row.id e = rowid -> existsb keyed l = true.
Proof.
  intros Hin Hid. apply existsb_exists. exists e. split; [exact Hin |].
  apply Z.eqb_eq, Hid.
Qed.

(** After the update the first row named [s] is the new row. *)
Lemma find_named_replace r l e :
  Row.ign r = s ->
  List.find named l = Some e -> Row.id e = rowid ->
  List.find named (map (replace_row rowid r) l) = Some r.
Proof.
  intros Hr. induction l as [| r' l IH]; simpl; [discriminate |].
  intros Hfind Hid.
  destruct (Row.id r' =? rowid) eqn:E.
  - assert (replace_row rowid r r' = r) as ->
      by (unfold replace_row; rewrite E; reflexivity).
    unfold named. rewrite Hr, String.eqb_refl. reflexivity.
  - assert (replace_row rowid r r' = r') as ->
      by (unfold replace_row; rewrite E; reflexivity).
    destruct (named r') eqn:Hn.
    + injection Hfind as ->. apply Z.eqb_eq in Hid. congruence.
    + apply IH; assumption.
Qed.

Lemma existsb_keyed_replace r l :
  Row.id r = rowid ->
  existsb keyed (map (replace_row rowid r) l) = existsb keyed l.
Proof.
  intros Hr. induction l as [| r' l IH]; simpl; [reflexivity |].
  rewrite IH. f_equal. unfold replace_row, keyed.
  destruct (Row.id r' =? rowid) eqn:E; [| exact E].
  apply Z.eqb_eq, Hr.
Qed.

Lemma existsb_clash_replace r l :
  Row.id r = rowid ->
  existsb clash (map (replace_row rowid r) l) = existsb clash l.
Proof.
  intros Hr. induction l as [| r' l IH]; simpl; [reflexivity |].
  rewrite IH. f_equal. unfold replace_row, clash.
  destruct (Row.id r' =? rowid) eqn:E; [| rewrite E; reflexivity].
  apply Z.eqb_eq in Hr. rewrite Hr. reflexivity.
Qed.

Lemma replace_replace r1 r2 l :
  Row.id r1 = rowid ->
  map (replace_row rowid r2) (map (replace_row rowid r1) l) = map (replace_row rowid r2) l.
Proof.
  intros Hr. rewrite map_map. apply map_ext. intros r'.
  unfold replace_row. destruct (Row.id r' =? rowid) eqn:E; [| rewrite E; reflexivity].
  apply Z.eqb_eq in Hr. rewrite Hr. reflexivity.
Qed.

Lemma max_rowid_bound l r' : In r' l -> Row.id r' <= max_rowid l.
Proof.
  induction l as [| r0 l IH]; simpl; [contradiction |].
  intros [-> | Hin]; [lia |]. specialize (IH Hin). lia.
Qed.

(** Rows below the key are left alone by the update. *)
Lemma replace_above r l :
  max_rowid l < rowid -> map (replace_row rowid r) l = l.
Proof.
  intros Hmax. rewrite <- (map_id l) at 2. apply map_ext_in. intros r' Hin.
  unfold replace_row. pose proof (max_rowid_bound l r' Hin).
  destruct (Z.eqb_spec (Row.id r') rowid); [lia | reflexivity].
Qed.

Lemma existsb_clash_unnamed l :
  existsb named l = false -> existsb clash l = false.
Proof.
  induction l as [| r' l IH]; simpl; [reflexivity |].
  intros H. apply orb_false_iff in H as [H1 H2].
  unfold clash at 1. unfold named in H1. rewrite H1, andb_false_r. apply IH, H2.
Qed.

(** Under the constraints the row named [s] clashes with no other. *)
Lemma existsb_clash_consistent l e :
  NoDup (map Row.ign l) ->
  In e l -> Row.ign e = s -> Row.id e = rowid ->
  existsb clash l = false.
Proof.
  intros Hnodup Hin Hname Hid. apply not_true_is_false. intros Hex.
  apply existsb_exists in Hex as [x [Hx Hclash]]. unfold clash in Hclash.
  apply andb_true_iff in Hclash as [Hkey Hsame].
  apply String.eqb_eq in Hsame.
  assert (x = e) as ->.
  { apply (NoDup_map_eq Row.ign l x e Hnodup Hx Hin). congruence. }
  apply Z.eqb_eq in Hid. rewrite Hid in Hkey. discriminate.
Qed.
End Table.

Lemma find_app_named (f : Row.t -> bool) (l l' : list Row.t) :
  List.find f (l ++ l') = match List.find f l with
                          | Some x => Some x
                          | None => List.find f l'
                          end.
Proof.
  induction l as [| x l IH]; simpl; [reflexivity |].
  destruct (f x); [reflexivity | exact IH].
Qed.

Lemma upsert_existing t p d s e :
  Models.ign p = PyStr s ->
  List.find (fun r => String.eqb (Row.ign r) s) (players d) = Some e ->
  upsert t p d = update t (set_id p (Some (Row.id e))) d.
Proof. intros Hign Hfind. unfold upsert, get_by_ign. rewrite Hign, Hfind. reflexivity. Qed.

Lemma upsert_new t p d s :
  Models.ign p = PyStr s ->
  List.find (fun r => String.eqb (Row.ign r) s) (players d) = None ->
  upsert t p d = add t p d.
Proof. intros Hign Hfind. unfold upsert, get_by_ign. rewrite Hign, Hfind. reflexivity. Qed.

(** The outcome of a successful [UPDATE] of the row with key [rowid]. *)
Lemma update_success t q d rowid r s :
  Models.id q = Some rowid ->
  ints_bind q = true ->
  existsb (fun r' => Row.id r' =? rowid) (players d) = true ->
  bind_row q rowid t = inr r ->
  Row.ign r = s ->
  existsb (fun r' => negb (Row.id r' =? rowid) && String.eqb (Row.ign r') s) (players d) = false ->
  update t q d
  = ((true, None), q, {| players := map (replace_row rowid r) (players d); seq := seq d |}).
Proof.
  intros Hid Hints Hkey Hbind Hname Hclash. unfold update.
  rewrite Hid, Hints, Hkey, Hbind, Hname, Hclash. reflexivity.
Qed.

(** The outcome of a successful [INSERT]. *)
Lemma add_success t p d r s :
  ints_bind p = true ->
  bind_row p (Z.max (seq d) (max_rowid (players d)) + 1) t = inr r ->
  Row.ign r = s ->
  existsb (fun r' => String.eqb (Row.ign r') s) (players d) = false ->
  add t p d
  = ((true, None), set_id p (Some (Z.max (seq d) (max_rowid (players d)) + 1)),
     {| players := players d ++ [r]; seq := Z.max (seq d) (max_rowid (players d)) + 1 |}).
Proof.
  intros Hints Hbind Hname Hclash. unfold add.
  rewrite Hints, Hbind, Hname, Hclash. reflexivity.
Qed.

(** Reconciling again, at any later time, gives what a single reconcile
    at that time gives. *)
Lemma upsert_absorbs t1 t2 p d : upsert_twice t1 t2 p d = upsert t2 p d.
Proof.
  unfold upsert_twice.
  destruct (Models.ign p) as [| s] eqn:Hign.
  - (* a NULL identity is refused by the insert *)
    assert (Hfail : exists msg, upsert t1 p d = ((false, Some msg), p, d)).
    { unfold upsert, get_by_ign, add, bind_row. rewrite Hign.
      destruct (ints_bind p); simpl; eauto. }
    destruct Hfail as [msg ->]. reflexivity.
  - destruct (List.find (fun r => String.eqb (Row.ign r) s) (players d)) as [e |] eqn:Hfind.
    + (* the identity is stored: UPDATE *)
      set (rowid := Row.id e). set (q := set_id p (Some rowid)).
      destruct (find_named_Some s (players d) e Hfind) as [Hin Hname].
      pose proof (existsb_keyed_In rowid (players d) e Hin eq_refl) as Hkey.
      assert (Hrhs : upsert t2 p d = update t2 q d) by (apply (upsert_existing t2 p d s e); assumption).
      assert (Hsame : upsert t2 q d = update t2 q d).
      { rewrite (upsert_existing t2 q d s e); [reflexivity | exact Hign | exact Hfind]. }
      rewrite (upsert_existing t1 p d s e Hign Hfind). fold rowid. fold q.
      rewrite Hrhs.
      destruct (ints_bind q) eqn:Hints.
      2:{ unfold update at 1. simpl Models.id. rewrite Hints. simpl. exact Hsame. }
      destruct (bind_row q rowid t1) as [msg | r1] eqn:Hbind1.
      { unfold update at 1. simpl Models.id. rewrite Hints, Hkey, Hbind1. simpl. exact Hsame. }
      destruct (existsb (fun r' => negb (Row.id r' =? rowid) && String.eqb (Row.ign r') s)
                  (players d)) eqn:Hclash.
      { destruct (bind_row_fields q rowid t1 r1 Hbind1) as (_ & Hr1 & _).
        assert (Row.ign r1 = s) as Hr1s by (simpl in Hr1; congruence).
        unfold update at 1. simpl Models.id. rewrite Hints, Hkey, Hbind1, Hr1s, Hclash.
        simpl. exact Hsame. }
      destruct (bind_row_fields q rowid t1 r1 Hbind1) as (Hid1 & Hr1 & _).
      assert (Row.ign r1 = s) as Hr1s by (simpl in Hr1; congruence).
      destruct (bind_row_ok q rowid t1 t2 r1 Hbind1) as [r2 Hbind2].
      pose proof (bind_row_time q rowid t1 t2 r1 r2 Hbind1 Hbind2) as Hr2.
      assert (Row.ign r2 = s) as Hr2s by congruence.
      rewrite (update_success t1 q d rowid r1 s eq_refl Hints Hkey Hbind1 Hr1s Hclash).
      rewrite (update_success t2 q d rowid r2 s eq_refl Hints Hkey Hbind2 Hr2s Hclash).
      set (d1 := {| players := map (replace_row rowid r1) (players d); seq := seq d |}).
      assert (Hfind1 : List.find (fun r => String.eqb (Row.ign r) s) (players d1) = Some r1).
      { apply (find_named_replace s rowid r1 (players d) e); auto. }
      rewrite (upsert_existing t2 q d1 s r1 Hign Hfind1).
      rewrite Hid1. change (set_id q (Some rowid)) with q.
      rewrite (update_success t2 q d1 rowid r2 s eq_refl Hints).
      * simpl. rewrite (replace_replace rowid r1 r2 (players d) Hid1). reflexivity.
      * simpl. rewrite (existsb_keyed_replace rowid r1 (players d) Hid1). exact Hkey.
      * exact Hbind2.
      * exact Hr2s.
      * simpl. rewrite (existsb_clash_replace s rowid r1 (players d) Hid1). exact Hclash.
    + (* the identity is new: INSERT, then UPDATE of the inserted row *)
      rewrite (upsert_new t1 p d s Hign Hfind), (upsert_new t2 p d s Hign Hfind).
      pose proof (find_named_None s (players d) Hfind) as Hfree.
      set (rowid := Z.max (seq d) (max_rowid (players d)) + 1).
      destruct (ints_bind p) eqn:Hints.
      2:{ unfold add at 1. rewrite Hints. simpl.
          rewrite (upsert_new t2 p d s Hign Hfind). reflexivity. }
      destruct (bind_row p rowid t1) as [msg | r1] eqn:Hbind1.
      { unfold add at 1. fold rowid. rewrite Hints, Hbind1. simpl.
        rewrite (upsert_new t2 p d s Hign Hfind). reflexivity. }
      destruct (bind_row_fields p rowid t1 r1 Hbind1) as (Hid1 & Hr1 & _).
      assert (Row.ign r1 = s) as Hr1s by congruence.
      destruct (bind_row_ok p rowid t1 t2 r1 Hbind1) as [r2 Hbind2].
      pose proof (bind_row_time p rowid t1 t2 r1 r2 Hbind1 Hbind2) as Hr2.
      assert (Row.ign r2 = s) as Hr2s by congruence.
      rewrite (add_success t1 p d r1 s Hints Hbind1 Hr1s Hfree).
      rewrite (add_success t2 p d r2 s Hints Hbind2 Hr2s Hfree).
      fold rowid.
      set (d1 := {| players := players d ++ [r1]; seq := rowid |}).
      assert (Hfind1 : List.find (fun r => String.eqb (Row.ign r) s) (players d1) = Some r1).
      { simpl. rewrite find_app_named, Hfind. simpl. rewrite Hr1s, String.eqb_refl. reflexivity. }
      rewrite (upsert_existing t2 (set_id p (Some rowid)) d1 s r1 Hign Hfind1).
      rewrite Hid1. rewrite set_id_set_id.
      assert (Hmax : max_rowid (players d) < rowid) by (unfold rowid; lia).
      rewrite (update_success t2 (set_id p (Some rowid)) d1 rowid r2 s eq_refl Hints).
      * simpl. rewrite map_app, (replace_above rowid r2 (players d) Hmax). simpl.
        unfold replace_row. rewrite Hid1, Z.eqb_refl. reflexivity.
      * simpl. rewrite existsb_app. simpl. rewrite Hid1, Z.eqb_refl.
        rewrite orb_true_r. reflexivity.
      * exact Hbind2.
      * exact Hr2s.
      * simpl. rewrite existsb_app. simpl. rewrite Hid1, Z.eqb_refl. simpl.
        rewrite (existsb_clash_unnamed s rowid (players d) Hfree). reflexivity.
Qed.

Lemma map_id_replace rowid r l :
  Row.id r = rowid -> map Row.id (map (replace_row rowid r) l) = map Row.id l.
Proof.
  intros Hr. rewrite map_map. apply map_ext. intros r'. unfold replace_row.
  destruct (Z.eqb_spec (Row.id r') rowid); congruence.
Qed.

Lemma map_ign_replace rowid r l :
  (forall r', In r' l -> Row.id r' = rowid -> Row.ign r' = Row.ign r) ->
  map Row.ign (map (replace_row rowid r) l) = map Row.ign l.
Proof.
  intros Hkey. rewrite map_map. apply map_ext_in. intros r' Hin. unfold replace_row.
  destruct (Z.eqb_spec (Row.id r') rowid) as [E | E]; [| reflexivity].
  symmetry. apply Hkey; assumption.
Qed.

(** The update leaves the rows of the other players where they are. *)
Lemma find_other_replace rowid r other l :
  (forall r', In r' l -> Row.id r' = rowid -> Row.ign r' = Row.ign r) ->
  Row.ign r <> other ->
  List.find (fun r' => String.eqb (Row.ign r') other) (map (replace_row rowid r) l)
  = List.find (fun r' => String.eqb (Row.ign r') other) l.
Proof.
  intros Hkey Hne. induction l as [| r' l IH]; simpl; [reflexivity |].
  rewrite IH by (intros x Hx; apply Hkey; right; exact Hx).
  unfold replace_row.
  destruct (Z.eqb_spec (Row.id r') rowid) as [E | E]; [| reflexivity].
  pose proof (Hkey r' (or_introl eq_refl) E) as Hsame.
  apply String.eqb_neq in Hne. rewrite Hne. rewrite Hsame, Hne. reflexivity.
Qed.

Lemma consistent_key d e :
  consistent d -> In e (players d) ->
  forall r', In r' (players d) -> Row.id r' = Row.id e -> Row.ign r' = Row.ign e.
Proof.
  intros [Hids _] Hin r' Hr' Hid.
  rewrite (NoDup_map_eq Row.id (players d) r' e Hids Hr' Hin Hid). reflexivity.
Qed.

Lemma storable_bind p rowid now :
  storable p -> exists r, bind_row p rowid now = inr r.
Proof.
  intros ([i Hi] & [ro Hro] & _). unfold bind_row. rewrite Hi, Hro. eauto.
Qed.

(** A stored identity: the row keeps its key and takes every column
    from the new totals. *)
Lemma upsert_replaces t p d existing :
  consistent d -> storable p ->
  get_by_ign d (Models.ign p) = Some existing ->
  exists rowid d',
    Models.id existing = Some rowid
    /\ upsert t p d = ((true, None), set_id p (Some rowid), d')
    /\ get_by_ign d' (Models.ign p) = Some (stored p rowid t)
    /\ length (players d') = length (players d)
    /\ seq d' = seq d
    /\ consistent d'
    /\ (forall other, other <> Models.ign p -> get_by_ign d' other = get_by_ign d other).
Proof.
  intros Hcons Hstor Hget.
  destruct Hstor as ([s Hign] & Hrole & Hints).
  unfold get_by_ign in Hget. rewrite Hign in Hget.
  destruct (List.find (fun r => String.eqb (Row.ign r) s) (players d)) as [e |] eqn:Hfind;
    [| discriminate].
  injection Hget as <-.
  set (rowid := Row.id e). set (q := set_id p (Some rowid)).
  destruct (find_named_Some s (players d) e Hfind) as [Hin Hname].
  pose proof (existsb_keyed_In rowid (players d) e Hin eq_refl) as Hkey.
  destruct (storable_bind q rowid t) as [r Hbind].
  { split; [eauto | split; [exact Hrole | exact Hints]]. }
  destruct (bind_row_fields q rowid t r Hbind) as (Hid & Hr & Hread).
  assert (Row.ign r = s) as Hrs by (simpl in Hr; congruence).
  assert (Hclash : existsb (fun r' => negb (Row.id r' =? rowid) && String.eqb (Row.ign r') s)
                     (players d) = false).
  { destruct Hcons as [_ Higns].
    apply (existsb_clash_consistent s rowid (players d) e Higns Hin Hname eq_refl). }
  assert (Hsame : forall r', In r' (players d) -> Row.id r' = rowid -> Row.ign r' = Row.ign r).
  { intros r' Hr' Hid'. rewrite (consistent_key d e Hcons Hin r' Hr' Hid'). congruence. }
  exists rowid, {| players := map (replace_row rowid r) (players d); seq := seq d |}.
  split; [reflexivity |]. split.
  { rewrite (upsert_existing t p d s e Hign Hfind).
    apply (update_success t q d rowid r s eq_refl Hints Hkey Hbind Hrs Hclash). }
  split.
  { unfold get_by_ign. rewrite Hign. simpl players.
    rewrite (find_named_replace s rowid r (players d) e Hrs Hfind eq_refl). simpl.
    rewrite Hread. reflexivity. }
  split; [simpl; apply length_map |]. split; [reflexivity |]. split.
  { destruct Hcons as [Hids Higns]. split; simpl.
    - rewrite (map_id_replace rowid r (players d) Hid). exact Hids.
    - rewrite (map_ign_replace rowid r (players d) Hsame). exact Higns. }
  intros other Hother. unfold get_by_ign. destruct other as [| o]; [reflexivity |].
  simpl players. rewrite (find_other_replace rowid r o (players d) Hsame); [reflexivity |].
  intros E. apply Hother. congruence.
Qed.

(** A new identity: one row is appended, under a key above all those in
    use. *)
Lemma upsert_inserts t p d :
  consistent d -> storable p ->
  get_by_ign d (Models.ign p) = None ->
  exists rowid r,
    upsert t p d
    = ((true, None), set_id p (Some rowid), {| players := players d ++ [r]; seq := rowid |})
    /\ from_row r = stored p rowid t
    /\ get_by_ign {| players := players d ++ [r]; seq := rowid |} (Models.ign p)
       = Some (stored p rowid t)
    /\ (forall r', In r' (players d) -> Row.id r' < rowid)
    /\ consistent {| players := players d ++ [r]; seq := rowid |}
    /\ (forall other, other <> Models.ign p ->
          get_by_ign {| players := players d ++ [r]; seq := rowid |} other
          = get_by_ign d other).
Proof.
  intros Hcons Hstor Hget.
  pose proof Hstor as ([s Hign] & Hrole & Hints).
  unfold get_by_ign in Hget. rewrite Hign in Hget.
  destruct (List.find (fun r => String.eqb (Row.ign r) s) (players d)) as [e |] eqn:Hfind;
    [discriminate |].
  pose proof (find_named_None s (players d) Hfind) as Hfree.
  set (rowid := Z.max (seq d) (max_rowid (players d)) + 1).
  destruct (storable_bind p rowid t Hstor) as [r Hbind].
  destruct (bind_row_fields p rowid t r Hbind) as (Hid & Hr & Hread).
  assert (Row.ign r = s) as Hrs by congruence.
  assert (Hbelow : forall r', In r' (players d) -> Row.id r' < rowid).
  { intros r' Hr'. pose proof (max_rowid_bound (players d) r' Hr'). unfold rowid. lia. }
  exists rowid, r. split.
  { rewrite (upsert_new t p d s Hign Hfind).
    apply (add_success t p d r s Hints Hbind Hrs Hfree). }
  split; [exact Hread |]. split.
  { unfold get_by_ign. rewrite Hign. simpl players. rewrite find_app_named, Hfind. simpl.
    rewrite Hrs, String.eqb_refl. simpl. rewrite Hread. reflexivity. }
  split; [exact Hbelow |]. split.
  { destruct Hcons as [Hids Higns]. split; simpl; rewrite map_app; simpl.
    - apply NoDup_app. split; [exact Hids |]. split; [| apply NoDup_singleton].
      intros x Hx Hx'. apply list_elem_of_singleton in Hx'. subst x.
      apply list_elem_of_In, in_map_iff in Hx as [r' [Hr'id Hr']].
      specialize (Hbelow r' Hr'). lia.
    - apply NoDup_app. split; [exact Higns |]. split; [| apply NoDup_singleton].
      intros x Hx Hx'. apply list_elem_of_singleton in Hx'. subst x.
      apply list_elem_of_In, in_map_iff in Hx as [r' [Hr'ign Hr']].
      assert (existsb (fun r0 => String.eqb (Row.ign r0) s) (players d) = true) as Hex.
      { apply existsb_exists. exists r'. split; [exact Hr' |].
        apply String.eqb_eq. congruence. }
      congruence. }
  intros other Hother. unfold get_by_ign. destruct other as [| o]; [reflexivity |].
  simpl players. rewrite find_app_named.
  destruct (List.find (fun r0 => String.eqb (Row.ign r0) o) (players d)); [reflexivity |].
  simpl. destruct (String.eqb_spec (Row.ign r) o) as [E | E]; [| reflexivity].
  exfalso. apply Hother. congruence.
Qed.

(** The constraints of the schema survive every reconcile. *)
Lemma upsert_consistent t p d : consistent d -> consistent (snd (upsert t p d)).
Proof.
  intros Hcons.
  destruct (Models.ign p) as [| s] eqn:Hign.
  - assert (Hfail : exists msg, upsert t p d = ((false, Some msg), p, d)).
    { unfold upsert, get_by_ign, add, bind_row. rewrite Hign.
      destruct (ints_bind p); simpl; eauto. }
    destruct Hfail as [msg ->]. exact Hcons.
  - destruct (ints_bind p) eqn:Hints.
    2:{ unfold upsert. destruct (get_by_ign d (Models.ign p)) as [existing |].
        - unfold update. simpl Models.id. destruct (Models.id existing); [| exact Hcons].
          rewrite ints_bind_set_id, Hints. exact Hcons.
        - unfold add. rewrite Hints. exact Hcons. }
    destruct (Models.role p) as [| ro] eqn:Hrole.
    { unfold upsert. destruct (get_by_ign d (Models.ign p)) as [existing |].
      - unfold update. simpl Models.id. destruct (Models.id existing); [| exact Hcons].
        rewrite ints_bind_set_id, Hints. simpl.
        destruct (existsb _ _); [| exact Hcons].
        unfold bind_row. simpl. rewrite Hign, Hrole. exact Hcons.
      - unfold add. rewrite Hints. unfold bind_row. rewrite Hign, Hrole. exact Hcons. }
    assert (Hstor : storable p) by (split; [eauto | split; [eauto | exact Hints]]).
    destruct (get_by_ign d (Models.ign p)) as [existing |] eqn:Hget.
    + destruct (upsert_replaces t p d existing Hcons Hstor Hget)
        as (rowid & d' & _ & -> & _ & _ & _ & Hcons' & _).
      exact Hcons'.
    + destruct (upsert_inserts t p d Hcons Hstor Hget)
        as (rowid & r & -> & _ & _ & _ & Hcons' & _).
      exact Hcons'.
Qed.

(** The clock decides nothing but the time stamp of the player's row. *)
Lemma bind_row_untimed p rowid t t' :
  match bind_row p rowid t, bind_row p rowid t' with
  | inl msg, inl msg' => msg = msg'
  | inr r, inr r' =>
      untimed r = untimed r' /\ Row.ign r = Row.ign r'
      /\ Models.ign p = PyStr (Row.ign r)
  | _, _ => False
  end.
Proof.
  unfold bind_row. destruct (Models.ign p), (Models.role p); simpl; auto.
Qed.

Lemma add_untimed t t' p d :
  fst (add t p d) = fst (add t' p d)
  /\ timeless (Models.ign p) (snd (add t p d)) = timeless (Models.ign p) (snd (add t' p d)).
Proof.
  unfold add. destruct (negb (ints_bind p)); [auto |].
  pose proof (bind_row_untimed p (Z.max (seq d) (max_rowid (players d)) + 1) t t') as H.
  destruct (bind_row p _ t) as [msg | r], (bind_row p _ t') as [msg' | r'];
    try contradiction; [subst; auto |].
  destruct H as (Hu & Hi & Hp). rewrite Hi.
  destruct (existsb _ (players d)); [auto |].
  split; [reflexivity |]. unfold timeless. cbn [snd players seq].
  rewrite !map_app. cbn [map]. rewrite Hp, <- Hi.
  destruct (decide (PyStr (Row.ign r) = PyStr (Row.ign r))); [| contradiction].
  rewrite Hu. reflexivity.
Qed.

Lemma update_untimed t t' p d :
  fst (update t p d) = fst (update t' p d)
  /\ timeless (Models.ign p) (snd (update t p d))
     = timeless (Models.ign p) (snd (update t' p d)).
Proof.
  unfold update. destruct (Models.id p) as [rowid |]; [| auto].
  destruct (negb (ints_bind p)); [auto |].
  destruct (negb (existsb _ (players d))); [auto |].
  pose proof (bind_row_untimed p rowid t t') as H.
  destruct (bind_row p rowid t) as [msg | r], (bind_row p rowid t') as [msg' | r'];
    try contradiction; [subst; auto |].
  destruct H as (Hu & Hi & Hp). rewrite Hi.
  destruct (existsb _ (players d)); [auto |].
  split; [reflexivity |]. unfold timeless. cbn [snd players seq]. f_equal.
  rewrite !map_map. apply map_ext. intros x.
  destruct (Row.id x =? rowid); [| reflexivity].
  rewrite Hp, <- Hi.
  destruct (decide (PyStr (Row.ign r) = PyStr (Row.ign r))); [exact Hu | contradiction].
Qed.

Lemma upsert_untimed t t' p d :
  fst (upsert t p d) = fst (upsert t' p d)
  /\ timeless (Models.ign p) (snd (upsert t p d))
     = timeless (Models.ign p) (snd (upsert t' p d)).
Proof.
  unfold upsert. destruct (get_by_ign d (Models.ign p)) as [existing |];
    [apply (update_untimed t t' (set_id p (Models.id existing)) d) | apply add_untimed].
Qed.

(** Faker reconciled at time 100 and again at time 200: the row is
    stamped 200, not 100 as after the first reconcile alone. *)
Lemma reconcile_twice_is_once_fails : ~ reconcile_twice_is_once.
Proof.
  intros H. specialize (H 100 200 faker_one_game empty_db).
  vm_compute in H. discriminate H.
Qed.

(** C2, as the code has it. Reconciling the same totals a second time
    leaves what the first reconcile left but for the time stamp of the
    player's row, which every reconcile sets anew: the result and the
    player object are those of the first reconcile, the rows differ
    at most in the time stamp of the rows of that name, and result,
    player object and database are exactly those of one reconcile at
    the later time;
    at equal times the second reconcile changes nothing. On a database
    that satisfies its constraints and for totals that bind: a stored
    identity keeps its row and key, and the row takes every column from
    the new totals, nothing being added to the old values, the minutes
    as the [REAL] column keeps them; a new identity gets one appended
    row; the rows of the other players are not touched, and the
    constraints still hold. *)
Theorem upsert_idempotent (t1 t2 : datetime) (p : Player) (d : db) :
  upsert_twice t1 t2 p d = upsert t2 p d
  /\ fst (upsert_twice t1 t2 p d) = fst (upsert t1 p d)
  /\ timeless (Models.ign p) (snd (upsert_twice t1 t2 p d))
     = timeless (Models.ign p) (snd (upsert t1 p d))
  /\ snd (upsert_twice t1 t1 p d) = snd (upsert t1 p d)
  /\ (consistent d -> consistent (snd (upsert t1 p d)))
  /\ (consistent d -> storable p ->
      forall existing,
        get_by_ign d (Models.ign p) = Some existing ->
        exists rowid d',
          Models.id existing = Some rowid
          /\ upsert t1 p d = ((true, None), set_id p (Some rowid), d')
          /\ get_by_ign d' (Models.ign p) = Some (stored p rowid t1)
          /\ length (players d') = length (players d)
          /\ (forall other, other <> Models.ign p ->
                get_by_ign d' other = get_by_ign d other))
  /\ (consistent d -> storable p ->
      get_by_ign d (Models.ign p) = None ->
      exists rowid r,
        upsert t1 p d
        = ((true, None), set_id p (Some rowid),
           {| players := players d ++ [r]; seq := rowid |})
        /\ from_row r = stored p rowid t1
        /\ (forall other, other <> Models.ign p ->
              get_by_ign {| players := players d ++ [r]; seq := rowid |} other
              = get_by_ign d other)).
Proof.
  split; [apply upsert_absorbs |].
  split; [rewrite upsert_absorbs; apply upsert_untimed |].
  split; [rewrite upsert_absorbs; apply upsert_untimed |].
  split; [rewrite upsert_absorbs; reflexivity |].
  split; [apply upsert_consistent |]. split.
  - intros Hcons Hstor existing Hget.
    destruct (upsert_replaces t1 p d existing Hcons Hstor Hget)
      as (rowid & d' & H1 & H2 & H3 & H4 & _ & _ & H5).
    exists rowid, d'. auto.
  - intros Hcons Hstor Hget.
    destruct (upsert_inserts t1 p d Hcons Hstor Hget)
      as (rowid & r & H1 & H2 & _ & _ & _ & H3).
    exists rowid, r. auto.
Qed.

(** Faker is stored after one game at time 100; the totals after two
    games are reconciled at time 200 and again at time 300. The row keeps
    key 1 and holds the two-game totals, not three games' worth. *)
Lemma upsert_idempotent_witness :
  let d1 := snd (upsert 100 faker_one_game empty_db) in
  upsert_twice 200 300 faker_two_games d1 = upsert 300 faker_two_games d1
  /\ get_by_ign (snd (upsert_twice 200 300 faker_two_games d1)) (PyStr "Faker")
     = Some (stored faker_two_games 1 300)
  /\ length (players (snd (upsert_twice 200 300 faker_two_games d1))) = 1%nat
  /\ (exists rowid d',
        Models.id (stored faker_one_game 1 100) = Some rowid
        /\ upsert 200 faker_two_games d1
           = ((true, None), set_id faker_two_games (Some rowid), d')
        /\ get_by_ign d' (PyStr "Faker") = Some (stored faker_two_games rowid 200)
        /\ length (players d') = length (players d1)
        /\ (forall other, other <> PyStr "Faker" ->
              get_by_ign d' other = get_by_ign d1 other)).
Proof.
  intros d1.
  destruct (upsert_idempotent 200 300 faker_two_games d1)
    as (Habsorb & _ & _ & _ & _ & Hreplace & _).
  split; [exact Habsorb |]. rewrite Habsorb. split; [reflexivity |].
  split; [reflexivity |].
  apply Hreplace.
  - split; simpl; apply NoDup_singleton.
  - split; [exists "Faker"; reflexivity |]. split; [exists "Mid"; reflexivity | reflexivity].
  - reflexivity.
Defined.
End RepositoryFacts.

(** ** Derived rates of a player *)

Module ModelsFacts.
Import Py.
Import Models.
Import Literals.
Import ModelsNotions.

Lemma digits2_pos_bounds (q : positive) :
  2 ^ (Zpos (digits2_pos q) - 1) <= Zpos q < 2 ^ Zpos (digits2_pos q).
Proof.
  induction q as [q IH | q IH |]; simpl digits2_pos.
  - rewrite Pos2Z.inj_succ.
    replace (Z.succ (Zpos (digits2_pos q)) - 1) with (Z.succ (Zpos (digits2_pos q) - 1)) by lia.
    rewrite !Z.pow_succ_r by lia. lia.
  - rewrite Pos2Z.inj_succ.
    replace (Z.succ (Zpos (digits2_pos q)) - 1) with (Z.succ (Zpos (digits2_pos q) - 1)) by lia.
    rewrite !Z.pow_succ_r by lia. lia.
  - simpl. lia.
Qed.

Lemma digits2_pos_unique (q : positive) (n : Z) :
  2 ^ (n - 1) <= Zpos q < 2 ^ n -> Zpos (digits2_pos q) = n.
Proof.
  intros [Hlo Hhi]. pose proof (digits2_pos_bounds q) as [Hlo' Hhi'].
  assert (0 < n).
  { destruct (Z_lt_le_dec 0 n) as [Hn | Hn]; [exact Hn |].
    assert (2 ^ n <= 2 ^ 0) by (apply Z.pow_le_mono_r; lia). simpl in *. lia. }
  destruct (Z.lt_trichotomy (Zpos (digits2_pos q)) n) as [Hlt | [Heq | Hgt]].
  - assert (2 ^ Zpos (digits2_pos q) <= 2 ^ (n - 1)) by (apply Z.pow_le_mono_r; lia). lia.
  - exact Heq.
  - assert (2 ^ n <= 2 ^ (Zpos (digits2_pos q) - 1)) by (apply Z.pow_le_mono_r; lia). lia.
Qed.

Lemma div_eucl_by_one (a : Z) : Z.div_eucl a 1 = (a, 0).
Proof.
  pose proof (Z.div_1_r a) as Hq. pose proof (Z.mod_1_r a) as Hr.
  unfold Z.div, Z.modulo in *. destruct (Z.div_eucl a 1) as [q r]. simpl in *. congruence.
Qed.

(** Dividing an integer of at most 53 bits by one is exact. *)
Lemma truediv_by_one_small (sign : bool) (p : positive) :
  Zpos p < 2 ^ 53 ->
  exists m e,
    SFdiv prec emax (S754_finite sign p 0) (S754_finite false 1 0) = S754_finite sign m e
    /\ e <= 0 /\ Zpos m = Zpos p * 2 ^ (- e).
Proof.
  intros Hsmall.
  pose proof (digits2_pos_bounds p) as [Hlo Hhi].
  set (d := Zpos (digits2_pos p)) in *.
  assert (Hd : 1 <= d <= 53).
  { split; [unfold d; lia |].
    destruct (Z_le_gt_dec d 53) as [H | H]; [exact H |].
    assert (2 ^ 53 <= 2 ^ (d - 1)) by (apply Z.pow_le_mono_r; lia). lia. }
  (* the mantissa scaled to 53 bits *)
  assert (Hhalf : exists half : positive, Zpos half = Zpos p * 2 ^ (53 - d)).
  { assert (0 < 2 ^ (53 - d)) by (apply Z.pow_pos_nonneg; lia).
    destruct (Zpos p * 2 ^ (53 - d)) as [| h | h] eqn:E; [lia | eauto | lia]. }
  destruct Hhalf as [half Hhalf].
  assert (Hdigits : Zpos (digits2_pos half) = 53).
  { apply digits2_pos_unique. rewrite Hhalf.
    replace (2 ^ (53 - 1)) with (2 ^ (d - 1) * 2 ^ (53 - d))
      by (rewrite <- Z.pow_add_r by lia; f_equal; lia).
    replace (2 ^ 53) with (2 ^ d * 2 ^ (53 - d))
      by (rewrite <- Z.pow_add_r by lia; f_equal; lia).
    assert (0 < 2 ^ (53 - d)) by (apply Z.pow_pos_nonneg; lia).
    split; [apply Z.mul_le_mono_nonneg_r; lia | apply Z.mul_lt_mono_pos_r; lia]. }
  exists half, (d - 53).
  split; [| split; [lia | rewrite Hhalf; f_equal; f_equal; lia]].
  unfold SFdiv, SFdiv_core_binary.
  change (Zdigits2 (Zpos p)) with d. change (Zdigits2 1) with 1.
  replace (Z.min (fexp prec emax (d + 0 - (1 + 0))) (0 - 0)) with (d - 54)
    by (unfold fexp, emin, prec, emax; lia).
  replace (0 - 0 - (d - 54)) with (54 - d) by lia.
  assert (Hshift : match 54 - d with
                   | 0 => Zpos p
                   | Zpos _ => Z.shiftl (Zpos p) (54 - d)
                   | Zneg _ => 0
                   end = Zpos (xO half)).
  { destruct (54 - d) as [| k | k] eqn:E; [lia | | lia].
    rewrite Z.shiftl_mul_pow2 by lia. rewrite <- E.
    replace (54 - d) with (Z.succ (53 - d)) by lia.
    rewrite Z.pow_succ_r by lia. lia. }
  rewrite Hshift, div_eucl_by_one.
  change (new_location 1 0) with loc_Exact.
  unfold binary_round_aux.
  assert (Hshr1 : shr_fexp prec emax (Zpos (xO half)) (d - 54) loc_Exact
                  = ({| shr_m := Zpos half; shr_r := false; shr_s := false |}, d - 53)).
  { unfold shr_fexp. simpl Zdigits2. rewrite Pos2Z.inj_succ, Hdigits.
    replace (fexp prec emax (Z.succ 53 + (d - 54)) - (d - 54)) with 1
      by (unfold fexp, emin, prec, emax; lia).
    simpl. f_equal. lia. }
  rewrite Hshr1. simpl shr_m. simpl loc_of_shr_record. simpl round_nearest_even.
  assert (Hshr2 : shr_fexp prec emax (Zpos half) (d - 53) loc_Exact
                  = ({| shr_m := Zpos half; shr_r := false; shr_s := false |}, d - 53)).
  { unfold shr_fexp. simpl Zdigits2. rewrite Hdigits.
    replace (fexp prec emax (53 + (d - 53)) - (d - 53)) with 0
      by (unfold fexp, emin, prec, emax; lia).
    reflexivity. }
  rewrite Hshr2. simpl shr_m.
  replace (d - 53 <=? emax - prec) with true
    by (symmetry; apply Z.leb_le; unfold emax, prec; lia).
  rewrite xorb_false_r. reflexivity.
Qed.

(** [n / 1] for an integer of magnitude at most [2^53]: no exception, and
    the float is [n] itself. *)
Lemma int_truediv_by_one_exact (n : Z) :
  - 2 ^ 53 <= n <= 2 ^ 53 ->
  exists x, int_truediv n 1 = Ok x /\ float_is_int x n.
Proof.
  intros Hn. unfold int_truediv. simpl (1 =? 0).
  destruct n as [| p | p].
  - eexists. split; [reflexivity |]. unfold float_is_int. simpl. reflexivity.
  - destruct (Z.eq_dec (Zpos p) (2 ^ 53)) as [E | E].
    + injection E as ->. eexists. split; [vm_compute; reflexivity |].
      unfold float_is_int. vm_compute. reflexivity.
    + destruct (truediv_by_one_small false p) as (m & e & Hdiv & He & Hm); [lia |].
      simpl int_as_SF. rewrite Hdiv. simpl. eexists. split; [reflexivity |].
      unfold float_is_int, float_value. cbv beta iota.
      destruct (0 <=? e) eqn:Hle.
      * apply Z.leb_le in Hle. assert (e = 0) as -> by lia. simpl in Hm |- *. lia.
      * exact Hm.
  - destruct (Z.eq_dec (Zpos p) (2 ^ 53)) as [E | E].
    + injection E as ->. eexists. split; [vm_compute; reflexivity |].
      unfold float_is_int. vm_compute. reflexivity.
    + destruct (truediv_by_one_small true p) as (m & e & Hdiv & He & Hm); [lia |].
      simpl int_as_SF. rewrite Hdiv. simpl. eexists. split; [reflexivity |].
      unfold float_is_int, float_value. cbv beta iota.
      destruct (0 <=? e) eqn:Hle.
      * apply Z.leb_le in Hle. assert (e = 0) as -> by lia. simpl in Hm |- *. lia.
      * simpl cond_Zopp. rewrite <- !Pos2Z.opp_pos, Hm. lia.
Qed.

Lemma float_eq_zero_false (x : float) : float_eq_zero x = false -> is_zero x = false.
Proof. destruct x as [sx | sx | | sx m e]; simpl; [discriminate | auto ..]. Qed.

Lemma per_minute_zero total p minutes :
  total_minutes p = Some minutes ->
  float_eq_zero minutes = true -> per_minute total p = Ok float_zero.
Proof. unfold per_minute. intros Hminutes Hzero. rewrite Hminutes, Hzero. reflexivity. Qed.

Lemma per_minute_nonzero total p minutes :
  total_minutes p = Some minutes ->
  float_eq_zero minutes = false ->
  per_minute total p
  = res_bind (float_of_int total) (fun x => Ok (SFdiv prec emax x minutes)).
Proof.
  intros Hminutes H. unfold per_minute, float_div.
  rewrite Hminutes, H, (float_eq_zero_false _ H). reflexivity.
Qed.

(** C7, as the code has it. The KDA is [(kills + assists) / max(deaths, 1)]
    in float arithmetic; without deaths it is [kills + assists] exactly
    whenever that sum is at most [2^53] in magnitude. The win rate is 0
    without games and [wins / games_played * 100] otherwise. For a
    player whose minutes are a float, the per-minute rates are 0 when
    the minutes compare equal to 0 and the total divided by the minutes
    otherwise; without minutes they raise [TypeError]. *)
Theorem player_rates (p : Player) :
  kda p = int_truediv (kills p + assists p) (Z.max (deaths p) 1)
  /\ (deaths p = 0 ->
      - 2 ^ 53 <= kills p + assists p <= 2 ^ 53 ->
      exists x, kda p = Ok x /\ float_is_int x (kills p + assists p))
  /\ (games_played p = 0 -> win_rate p = Ok float_zero)
  /\ (games_played p <> 0 ->
      win_rate p
      = res_bind (int_truediv (wins p) (games_played p)) (fun q => Ok (float_mul q float_100)))
  /\ (forall minutes,
        total_minutes p = Some minutes ->
        float_eq_zero minutes = true ->
        gold_per_min p = Ok float_zero
        /\ cs_per_min p = Ok float_zero
        /\ dmg_per_min p = Ok float_zero)
  /\ (forall minutes,
        total_minutes p = Some minutes ->
        float_eq_zero minutes = false ->
        gold_per_min p
        = res_bind (float_of_int (total_gold p)) (fun x => Ok (SFdiv prec emax x minutes))
        /\ cs_per_min p
           = res_bind (float_of_int (total_cs p)) (fun x => Ok (SFdiv prec emax x minutes))
        /\ dmg_per_min p
           = res_bind (float_of_int (total_damage p))
               (fun x => Ok (SFdiv prec emax x minutes)))
  /\ (total_minutes p = None ->
      forall rate, In rate [gold_per_min; cs_per_min; dmg_per_min] ->
                   exists msg, rate p = Raise (Exn TypeError msg)).
Proof.
  split; [reflexivity |]. split; [| split; [| split; [| split; [| split]]]].
  - intros Hdeaths Hrange. unfold kda. rewrite Hdeaths. simpl Z.max.
    apply int_truediv_by_one_exact, Hrange.
  - intros Hgames. unfold win_rate. rewrite Hgames. reflexivity.
  - intros Hgames. unfold win_rate. apply Z.eqb_neq in Hgames. rewrite Hgames. reflexivity.
  - intros minutes Hminutes Hzero. unfold gold_per_min, cs_per_min, dmg_per_min.
    rewrite !(per_minute_zero _ p minutes Hminutes Hzero). auto.
  - intros minutes Hminutes Hnonzero. unfold gold_per_min, cs_per_min, dmg_per_min.
    rewrite !(per_minute_nonzero _ p minutes Hminutes Hnonzero). auto.
  - intros Hnone rate Hrate. eexists.
    destruct Hrate as [<- | [<- | [<- | []]]];
      unfold gold_per_min, cs_per_min, dmg_per_min, per_minute; rewrite Hnone; reflexivity.
Qed.

(** The scenario of the design document: two games, one won, 7 kills,
    6 deaths, 15 assists, 58 minutes; and the same player without
    deaths. *)
Lemma player_rates_witness :
  kda (player_with 2 1 7 6 15 25000 float_58) = Ok float_22_over_6
  /\ win_rate (player_with 2 1 7 6 15 25000 float_58) = Ok float_50
  /\ (exists x, kda (player_with 2 1 7 0 15 25000 float_58) = Ok x /\ float_is_int x 22)
  /\ kda (player_with 2 1 7 0 15 25000 float_58) = Ok float_22
  /\ win_rate (player_with 0 0 0 0 0 0 float_zero) = Ok float_zero
  /\ gold_per_min (player_with 0 0 0 0 0 0 float_zero) = Ok float_zero.
Proof.
  pose proof (player_rates (player_with 2 1 7 0 15 25000 float_58))
    as (_ & Hexact & _).
  pose proof (player_rates (player_with 0 0 0 0 0 0 float_zero))
    as (_ & _ & Hwin & _ & Hmin & _).
  split; [vm_compute; reflexivity |]. split; [vm_compute; reflexivity |].
  split; [apply Hexact; [reflexivity | simpl; lia] |].
  split; [vm_compute; reflexivity |].
  split; [apply Hwin; reflexivity | apply (Hmin float_zero); reflexivity].
Defined.

(** With [2^53] kills and one assist the KDA is [2^53], one short of
    [kills + assists]. *)
Example kda_beyond_53_bits :
  kda (player_with 1 1 (2 ^ 53) 0 1 0 float_zero) = Ok float_2_pow_53.
Proof. vm_compute. reflexivity. Qed.

Lemma kda_exact_without_deaths_fails : ~ kda_exact_without_deaths.
Proof.
  intros H.
  destruct (H (player_with 1 1 (2 ^ 53) 0 1 0 float_zero) eq_refl) as [x [Hkda Hx]].
  vm_compute in Hkda. injection Hkda as <-.
  vm_compute in Hx. discriminate Hx.
Qed.
End ModelsFacts.

(** ** Image URLs *)

Module ScaledUrlFacts.
Import Py.
Import LeaguepediaQueries.
Import ScaledUrlNotions.

Lemma append_nil_l (s : string) : "" +:+ s = s.
Proof. reflexivity. Qed.

Lemma append_cons (c : ascii) (a b : string) : String c a +:+ b = String c (a +:+ b).
Proof. reflexivity. Qed.

Lemma append_assoc (a b c : string) : (a +:+ b) +:+ c = a +:+ (b +:+ c).
Proof.
  induction a as [| x a IH]; [reflexivity |].
  rewrite !append_cons, IH. reflexivity.
Qed.

Lemma prefix_nil (s : string) : String.prefix "" s = true.
Proof. destruct s; reflexivity. Qed.

Lemma prefix_cons (c x : ascii) (sub s : string) :
  String.prefix (String c sub) (String x s) = bool_decide (c = x) && String.prefix sub s.
Proof.
  simpl. destruct (ascii_dec c x) as [E | E].
  - rewrite (bool_decide_eq_true_2 _ E). reflexivity.
  - rewrite (bool_decide_eq_false_2 _ E). reflexivity.
Qed.

Lemma contains_cons (sub : string) (c : ascii) (s : string) :
  contains sub (String c s) = String.prefix sub (String c s) || contains sub s.
Proof. reflexivity. Qed.

Lemma contains_nil (sub : string) : contains sub "" = String.prefix sub "" || false.
Proof. reflexivity. Qed.

Lemma prefix_append (sub s : string) : String.prefix sub (sub +:+ s) = true.
Proof.
  induction sub as [| c sub IH]; [apply prefix_nil |].
  rewrite append_cons, prefix_cons, IH, bool_decide_eq_true_2; reflexivity.
Qed.

Lemma contains_here (sub s : string) : String.prefix sub s = true -> contains sub s = true.
Proof.
  intros H. destruct s; [rewrite contains_nil | rewrite contains_cons]; rewrite H; reflexivity.
Qed.

Lemma contains_append_r (sub a b : string) :
  contains sub b = true -> contains sub (a +:+ b) = true.
Proof.
  intros H. induction a as [| c a IH]; [exact H |].
  rewrite append_cons, contains_cons, IH. apply orb_true_r.
Qed.

Lemma prefix_append_l (sub a b : string) :
  String.prefix sub a = true -> String.prefix sub (a +:+ b) = true.
Proof.
  revert a. induction sub as [| c sub IH]; intros a H; [apply prefix_nil |].
  destruct a as [| x a]; [discriminate H |].
  rewrite append_cons, prefix_cons. rewrite prefix_cons in H.
  apply andb_true_iff in H as [-> H]. rewrite (IH a H). reflexivity.
Qed.

Lemma contains_append_l (sub a b : string) :
  contains sub a = true -> contains sub (a +:+ b) = true.
Proof.
  induction a as [| c a IH]; intros H.
  - rewrite contains_nil, orb_false_r in H. destruct sub; [| discriminate H].
    apply contains_here, prefix_nil.
  - rewrite contains_cons in H. rewrite append_cons, contains_cons.
    apply orb_true_iff in H as [H | H].
    + pose proof (prefix_append_l sub (String c a) b H) as H'.
      rewrite append_cons in H'. rewrite H'. reflexivity.
    + rewrite (IH H). apply orb_true_r.
Qed.

(** Whether one character occurs in a string. *)
Lemma contains_char_cons (sep c : ascii) (s : string) :
  contains (String sep "") (String c s) = bool_decide (sep = c) || contains (String sep "") s.
Proof. rewrite contains_cons, prefix_cons, prefix_nil, andb_true_r. reflexivity. Qed.

(** A string in which the separator occurs splits in two at its first
    occurrence. *)
Lemma split_once_found (sep : ascii) (s : string) :
  contains (String sep "") s = true ->
  exists base rest,
    split_once sep s = [base; rest]
    /\ s = base +:+ String sep rest
    /\ contains (String sep "") base = false.
Proof.
  induction s as [| c s IH]; [discriminate |].
  rewrite contains_char_cons. cbn [split_once].
  destruct (Ascii.eqb_spec c sep) as [-> | Hne].
  - intros _. exists "", s. auto.
  - rewrite bool_decide_eq_false_2 by congruence. cbn [orb].
    intros H. destruct (IH H) as (base & rest & -> & -> & Hfree).
    exists (String c base), rest. split; [reflexivity |]. split; [reflexivity |].
    rewrite contains_char_cons, Hfree, bool_decide_eq_false_2 by congruence. reflexivity.
Qed.

(** The converse: the split of [base], the separator and [rest] when
    [base] holds no separator. *)
Lemma split_once_at (sep : ascii) (base rest : string) :
  contains (String sep "") base = false ->
  split_once sep (base +:+ String sep rest) = [base; rest]
  /\ contains (String sep "") (base +:+ String sep rest) = true.
Proof.
  induction base as [| c base IH].
  - intros _. rewrite append_nil_l, contains_char_cons. cbn [split_once].
    rewrite Ascii.eqb_refl, bool_decide_eq_true_2 by reflexivity. auto.
  - rewrite contains_char_cons. intros H. apply orb_false_iff in H as [Hc H].
    apply bool_decide_eq_false in Hc.
    destruct (IH H) as [Hsplit Hin].
    rewrite append_cons, contains_char_cons, Hin, orb_true_r. cbn [split_once].
    destruct (Ascii.eqb_spec c sep) as [-> | _]; [contradiction |].
    rewrite Hsplit. auto.
Qed.

(** X1. [_make_scaled_url] never raises, and scaling is idempotent whatever the
    widths: a URL that was scaled once is returned unchanged. [None], and
    every URL without [/revision/latest] or with [/scale-to-width]
    already in it, come back as they are; in any other URL the segment
    [/scale-to-width-down/<width>] goes just before the first [?], the
    query string being kept, or at the end when there is no [?]. *)
Theorem make_scaled_url_idempotent (url : pyval) (width width' : Z) :
  exists scaled,
    _make_scaled_url url width = Ok scaled
    /\ _make_scaled_url scaled width' = Ok scaled
    /\ (url = PyNone -> scaled = PyNone)
    /\ (forall u, url = PyStr u ->
          contains "/revision/latest" u = false \/ contains "/scale-to-width" u = true ->
          scaled = url)
    /\ (forall base query,
          url = PyStr (base +:+ "?" +:+ query) ->
          contains "?" base = false ->
          contains "/revision/latest" (base +:+ "?" +:+ query) = true ->
          contains "/scale-to-width" (base +:+ "?" +:+ query) = false ->
          scaled = PyStr (base +:+ "/scale-to-width-down/" +:+ str_of_int width
                          +:+ "?" +:+ query))
    /\ (forall u, url = PyStr u ->
          contains "?" u = false ->
          contains "/revision/latest" u = true ->
          contains "/scale-to-width" u = false ->
          scaled = PyStr (u +:+ "/scale-to-width-down/" +:+ str_of_int width)).
Proof.
  destruct url as [| u].
  { exists PyNone. repeat split; try reflexivity; intros; discriminate. }
  unfold _make_scaled_url at 1.
  destruct (negb (truthy (PyStr u))) eqn:Hempty.
  { exists (PyStr u). split; [reflexivity |]. split.
    - unfold _make_scaled_url. rewrite Hempty. reflexivity.
    - split; [discriminate |]. split; [reflexivity |].
      apply negb_true_iff in Hempty. simpl in Hempty. apply negb_false_iff in Hempty.
      apply String.eqb_eq in Hempty. subst u.
      split.
      + intros base query E _ H. injection E as E. rewrite <- E in H. discriminate.
      + intros u E _ H. injection E as <-. discriminate. }
  destruct (contains "/revision/latest" u) eqn:Hrev; simpl.
  2:{ exists (PyStr u). split; [reflexivity |]. split.
      - unfold _make_scaled_url. rewrite Hempty, Hrev. reflexivity.
      - split; [discriminate |]. split; [reflexivity |]. split.
        + intros base query E _ H. injection E as E. congruence.
        + intros u' E _ H. injection E as <-. congruence. }
  destruct (contains "/scale-to-width" u) eqn:Hscaled; simpl.
  { exists (PyStr u). split; [reflexivity |]. split.
    - unfold _make_scaled_url. rewrite Hempty, Hrev, Hscaled. reflexivity.
    - split; [discriminate |]. split; [reflexivity |]. split.
      + intros base query E _ _ H. injection E as E. congruence.
      + intros u' E _ _ H. injection E as <-. congruence. }
  assert (Hmark : forall a b, contains "/scale-to-width" (a +:+ "/scale-to-width-down/" +:+ b) = true).
  { intros a b. apply contains_append_r, contains_here.
    apply (prefix_append "/scale-to-width" ("-down/" +:+ b)). }
  assert (Hagain : forall a b,
             _make_scaled_url (PyStr (a +:+ "/scale-to-width-down/" +:+ b)) width'
             = Ok (PyStr (a +:+ "/scale-to-width-down/" +:+ b))).
  { intros a b. unfold _make_scaled_url.
    rewrite Hmark, andb_false_r. destruct a; reflexivity. }
  destruct (contains "?" u) eqn:Hq.
  - destruct (split_once_found "?" u Hq) as (base & query & Hsplit & Hu & Hfree).
    rewrite Hsplit.
    eexists. split; [reflexivity |]. split.
    + apply Hagain.
    + split; [discriminate |]. split.
      { intros u' E [H | H]; injection E as <-; congruence. }
      split.
      * intros base' query' E Hfree' _ _. injection E as E.
        destruct (split_once_at "?" base' query' Hfree') as [Hsplit' _].
        change (base' +:+ "?" +:+ query') with (base' +:+ String "?" query') in E.
        rewrite <- E, Hsplit in Hsplit'. injection Hsplit' as -> ->. reflexivity.
      * intros u' E H. injection E as <-. congruence.
  - eexists. split; [reflexivity |]. split.
    + apply Hagain.
    + split; [discriminate |]. split.
      { intros u' E [H | H]; injection E as <-; congruence. }
      split.
      * intros base' query' E Hfree' _ _. injection E as E.
        destruct (split_once_at "?" base' query' Hfree') as [_ Hin].
        change (base' +:+ "?" +:+ query') with (base' +:+ String "?" query') in E.
        rewrite <- E in Hin. congruence.
      * intros u' E _ _ _. injection E as <-. reflexivity.
Qed.
End ScaledUrlFacts.

(** ** The cost of a query: exchanges and back-off *)

Module BudgetFacts.
Import Py.
Import Leaguepedia.
Import LeaguepediaClient.
Import LeaguepediaQueries.
Import PlayerService.
Import BudgetNotions.

Lemma slept_app (a b : list event) : slept (a ++ b) = slept a + slept b.
Proof.
  induction a as [| ev a IH]; simpl; [lia |]. destruct ev; rewrite ?IH; lia.
Qed.

Lemma sent_app (a b : list event) : sent (a ++ b) = sent a ++ sent b.
Proof. unfold sent. apply omap_app. Qed.

Lemma run_refl c : run c c [].
Proof. split; [rewrite app_nil_r; reflexivity | simpl; lia]. Qed.

Lemma run_trans c1 c2 c3 ev1 ev2 :
  run c1 c2 ev1 -> run c2 c3 ev2 -> run c1 c3 (ev1 ++ ev2).
Proof.
  intros [H1 H1'] [H2 H2']. split.
  - rewrite H2, H1, app_assoc. reflexivity.
  - rewrite H2', H1', sent_app, length_app. lia.
Qed.

Lemma run_record ev c : run c (record ev c) [ev] \/ exists r, ev = Sent r.
Proof.
  destruct ev; try (left; split; [reflexivity | simpl; lia]). right. eauto.
Qed.

Lemma within_refl c : within 0 0 c c.
Proof. exists []. split; [apply run_refl |]. simpl. split; lia. Qed.

Lemma within_trans n1 z1 n2 z2 c1 c2 c3 :
  within n1 z1 c1 c2 -> within n2 z2 c2 c3 -> within (n1 + n2) (z1 + z2) c1 c3.
Proof.
  intros (e1 & R1 & N1 & Z1) (e2 & R2 & N2 & Z2).
  exists (e1 ++ e2). split; [apply (run_trans _ _ _ _ _ R1 R2) |].
  rewrite sent_app, length_app, slept_app. split; lia.
Qed.

Lemma within_weaken n z n' z' c c' :
  (n <= n')%nat -> z <= z' -> within n z c c' -> within n' z' c c'.
Proof.
  intros Hn Hz (e & R & N & Z). exists e. split; [exact R |]. split; lia.
Qed.

Lemma within_exchanges n z c c' :
  within n z c c' -> (exchanges c <= exchanges c' <= exchanges c + n)%nat.
Proof. intros (e & [_ R] & N & _). lia. Qed.

Lemma within_notify observed s current total c :
  within 0 0 c (notify observed (Progress s current total) c).
Proof.
  unfold notify. destruct observed; [| apply within_refl].
  exists [Progress s current total]. split; [split; [reflexivity | simpl; lia] |].
  simpl. split; lia.
Qed.

Lemma backoff_cap_pos attempt : 0 < backoff_cap attempt.
Proof. unfold backoff_cap. lia. Qed.

Lemma backoff_caps_nonneg attempts : 0 <= backoff_caps attempts.
Proof.
  induction attempts as [| a l IH]; simpl; [lia |]. pose proof (backoff_cap_pos a). lia.
Qed.

Lemma backoff_caps_cons attempt attempts :
  backoff_caps (attempt :: attempts) = backoff_cap attempt + backoff_caps attempts.
Proof. reflexivity. Qed.

Ltac trace := repeat rewrite <- app_assoc; reflexivity.

Section Budget.
Variable server : nat -> request -> http_outcome.

(** The handshake: at most two exchanges, none of them a cargo request,
    and no back-off; nothing at all for a client that is logged in. *)
Lemma login_run c :
  exists events,
    run c (snd (login server c)) events
    /\ slept events = 0
    /\ (length (sent events) <= 2)%nat
    /\ Forall (fun r => is_cargo r = false) (sent events)
    /\ (is_logged_in c = true -> events = []).
Proof.
  unfold login. destruct (is_logged_in c) eqn:Hin.
  { exists []. split; [apply run_refl |]. simpl. repeat split; auto. }
  unfold try_except, bind, _rate_limit, emit, exchange, record, ret, set_logged_in. simpl.
  destruct (server (exchanges c) GetLoginToken) as [e | data]; simpl.
  { exists [Throttled; Sent GetLoginToken].
    split; [split; [trace | simpl; lia] |]. simpl.
    repeat split; try lia; try discriminate. repeat constructor. }
  destruct (truthy (logintoken data)); simpl.
  2:{ exists [Throttled; Sent GetLoginToken].
      split; [split; [trace | simpl; lia] |]. simpl.
      repeat split; try lia; try discriminate. repeat constructor. }
  set (post := PostLogin Config.BOT_USERNAME Config.BOT_PASSWORD (logintoken data)).
  assert (Hgoal : forall c',
             log c' = (((log c ++ [Throttled]) ++ [Sent GetLoginToken]) ++ [Throttled])
                        ++ [Sent post] ->
             exchanges c' = S (S (exchanges c)) ->
             exists events,
               run c c' events /\ slept events = 0 /\ (length (sent events) <= 2)%nat
               /\ Forall (fun r => is_cargo r = false) (sent events)
               /\ (false = true -> events = [])).
  { intros c' Hlog Hex.
    exists [Throttled; Sent GetLoginToken; Throttled; Sent post].
    split; [split; [rewrite Hlog; trace | rewrite Hex; simpl; lia] |]. simpl.
    repeat split; try lia; try discriminate. repeat constructor. }
  destruct (server (S (exchanges c)) post) as [e | result]; simpl.
  { apply Hgoal; reflexivity. }
  destruct (decide (login_result result = PyStr "Success")); simpl;
    apply Hgoal; reflexivity.
Qed.

Lemma ensure_logged_in_run c :
  exists events,
    run c (snd (ensure_logged_in server c)) events
    /\ slept events = 0
    /\ (length (sent events) <= 2)%nat
    /\ Forall (fun r => is_cargo r = false) (sent events)
    /\ (is_logged_in c = true -> events = []).
Proof.
  unfold ensure_logged_in. destruct (is_logged_in c) eqn:Hin.
  - exists []. split; [apply run_refl |]. simpl. repeat split; auto.
  - destruct (login_run c) as (events & R & S & N & F & _).
    destruct (login server c) as [b c']. simpl in *.
    exists events. repeat split; try assumption; try apply R. discriminate.
Qed.

(** One attempt: the throttle, the request, and at most one back-off,
    which is positive and within the cap of the attempt. An attempt
    that does not go on to the next one does not back off. *)
Lemma attempt_once_run r attempt c :
  exists pause,
    run c (snd (attempt_once server r attempt c)) ([Throttled; Sent r] ++ pause)
    /\ (pause = []
        \/ exists seconds,
             pause = [Slept seconds] /\ 0 < seconds <= backoff_cap attempt
             /\ fst (attempt_once server r attempt c) = Ok None)
    /\ (fst (attempt_once server r attempt c) = Ok None -> pause <> []).
Proof.
  unfold attempt_once, bind, _rate_limit, emit, exchange, record, ret, backoff_cap. simpl.
  destruct (server (exchanges c) r) as [e | data]; simpl.
  - destruct (decide (exn_cls e = RequestException)); simpl.
    + destruct (_ <? _)%nat; simpl.
      * exists [Slept (3 * (Z.of_nat attempt + 1))].
        split; [split; [simpl; trace | simpl; lia] |].
        split; [right; eexists; split; [reflexivity |]; split; [lia | reflexivity] |].
        discriminate.
      * exists []. split; [split; [simpl; trace | simpl; lia] |].
        split; [left; reflexivity | discriminate].
    + exists []. split; [split; [simpl; trace | simpl; lia] |].
      split; [left; reflexivity | discriminate].
  - destruct (error data) as [err |]; simpl.
    + destruct (String.eqb (code err) "ratelimited"); simpl.
      * exists [Slept (5 * (Z.of_nat attempt + 1))].
        split; [split; [simpl; trace | simpl; lia] |].
        split; [right; eexists; split; [reflexivity |]; split; [lia | reflexivity] |].
        discriminate.
      * exists []. split; [split; [simpl; trace | simpl; lia] |].
        split; [left; reflexivity | discriminate].
    + exists []. split; [split; [simpl; trace | simpl; lia] |].
      split; [left; reflexivity | discriminate].
Qed.

(** The retry loop: the same request once per attempt made, at least
    once when there is an attempt to make; the back-off stays within
    the caps of the attempts, and within the caps of all but the last
    attempt unless the call comes back empty. *)
Lemma retry_loop_run r attempts :
  forall c,
    exists events n,
      run c (snd (retry_loop server r attempts c)) events
      /\ sent events = replicate n r
      /\ (n <= length attempts)%nat
      /\ (attempts <> [] -> (1 <= n)%nat)
      /\ 0 <= slept events <= backoff_caps attempts
      /\ (fst (retry_loop server r attempts c) <> Ok [] ->
          slept events <= backoff_caps (removelast attempts)).
Proof.
  induction attempts as [| attempt rest IH]; intros c.
  - exists [], 0%nat. simpl. split; [apply run_refl |].
    repeat split; try lia; try reflexivity. intros H. contradiction.
  - cbn [retry_loop]. unfold bind.
    destruct (attempt_once_run r attempt c) as (pause & R & Hpause & Hnext).
    pose proof (backoff_cap_pos attempt) as Hcap.
    pose proof (backoff_caps_nonneg rest) as Hrest.
    pose proof (backoff_caps_nonneg (removelast (attempt :: rest))) as Hfront.
    destruct (attempt_once server r attempt c) as [[[rows |] | e] c1] eqn:Hatt;
      cbn [fst snd] in *.
    + destruct Hpause as [-> | (s & _ & _ & Hcontra)]; [| discriminate].
      exists [Throttled; Sent r], 1%nat. split; [exact R |].
      rewrite backoff_caps_cons. simpl sent. simpl slept. simpl length.
      repeat split; try lia.
    + destruct Hpause as [-> | (s & -> & Hs & _)]; [exfalso; apply Hnext; reflexivity |].
      destruct (IH c1) as (events & n & R' & Hsent & Hn & _ & Hz & Hlast).
      exists (([Throttled; Sent r] ++ [Slept s]) ++ events), (S n).
      split; [apply (run_trans _ _ _ _ _ R R') |].
      rewrite sent_app, slept_app, Hsent, backoff_caps_cons.
      simpl sent. simpl slept. simpl length.
      repeat split; try lia.
      intros Hres. specialize (Hlast Hres).
      destruct rest as [| a rest']; [exfalso; apply Hres; reflexivity |].
      change (removelast (attempt :: a :: rest')) with (attempt :: removelast (a :: rest')).
      rewrite backoff_caps_cons. lia.
    + destruct Hpause as [-> | (s & _ & _ & Hcontra)]; [| discriminate].
      exists [Throttled; Sent r], 1%nat. split; [exact R |].
      rewrite backoff_caps_cons. simpl sent. simpl slept. simpl length.
      repeat split; try lia.
Qed.

(** Attempts answered in a retriable way are passed over: the loop goes
    on with the remaining attempts, one exchange later for each. *)
Lemma retry_loop_skips r before :
  forall c rest,
    (forall i attempt, before !! i = Some attempt ->
                       RetryNotions.retriable attempt (server (exchanges c + i)%nat r) = true) ->
    exists c',
      retry_loop server r (before ++ rest) c = retry_loop server r rest c'
      /\ exchanges c' = (exchanges c + length before)%nat
      /\ is_logged_in c' = is_logged_in c.
Proof.
  induction before as [| attempt before IH]; intros c rest Hall.
  - exists c. simpl. repeat split; lia.
  - simpl. unfold bind.
    destruct (RetryFacts.attempt_once_retriable server r attempt c) as [seconds ->].
    { specialize (Hall 0%nat attempt eq_refl). rewrite Nat.add_0_r in Hall. exact Hall. }
    destruct (IH (RetryNotions.backed_off r seconds c) rest) as (c' & Hrun & Hex & Hin).
    { intros i a Hi. specialize (Hall (S i) a Hi).
      replace (exchanges (RetryNotions.backed_off r seconds c) + i)%nat
        with (exchanges c + S i)%nat by (simpl; lia).
      exact Hall. }
    exists c'. split; [exact Hrun |]. split; [rewrite Hex; simpl; lia | rewrite Hin; reflexivity].
Qed.

(** An answer that is neither data nor retriable ends the loop at once
    with an exception. *)
Lemma attempt_once_api_error r attempt c data err :
  server (exchanges c) r = Json data ->
  error data = Some err ->
  code err <> "ratelimited" ->
  attempt_once server r attempt c
  = (Raise (Exn PlainException ("API error: " +:+ info err)), RetryNotions.exchanged r c).
Proof.
  intros Hs He Hc.
  unfold attempt_once, bind, _rate_limit, emit, exchange, record, ret. simpl.
  rewrite Hs, He. destruct (String.eqb_spec (code err) "ratelimited"); [contradiction |].
  reflexivity.
Qed.

Lemma attempt_once_foreign r attempt c e :
  server (exchanges c) r = Raises e ->
  exn_cls e <> RequestException ->
  attempt_once server r attempt c = (Raise e, RetryNotions.exchanged r c).
Proof.
  intros Hs He.
  unfold attempt_once, bind, _rate_limit, emit, exchange, record, ret. simpl.
  rewrite Hs. destruct (decide (exn_cls e = RequestException)); [contradiction |].
  reflexivity.
Qed.

(** One query: the handshake when the client is not logged in, then
    between one and five requests. *)
Lemma cargo_query_within q limit offset c :
  within 7 75 c (snd (_cargo_query server q limit offset c))
  /\ (fst (_cargo_query server q limit offset c) <> Ok [] ->
      within 7 50 c (snd (_cargo_query server q limit offset c))).
Proof.
  rewrite RetryFacts.cargo_query_unfold.
  destruct (ensure_logged_in_run c) as (hs & Rh & Sh & Nh & _ & _).
  destruct (retry_loop_run
              (GetCargo q (Z.min limit Config.API_MAX_LIMIT) offset)
              (List.seq 0 Config.API_MAX_RETRIES) (snd (ensure_logged_in server c)))
    as (ev & n & Rr & Hsent & Hn & _ & Hz & Htight).
  assert (Hlen : (length (sent ev) <= 5)%nat).
  { rewrite Hsent, length_replicate. exact Hn. }
  change (backoff_caps (List.seq 0 Config.API_MAX_RETRIES)) with 75 in Hz.
  change (backoff_caps (removelast (List.seq 0 Config.API_MAX_RETRIES))) with 50 in Htight.
  split.
  - exists (hs ++ ev). split; [apply (run_trans _ _ _ _ _ Rh Rr) |].
    rewrite sent_app, length_app, slept_app. split; lia.
  - intros Hres. specialize (Htight Hres).
    exists (hs ++ ev). split; [apply (run_trans _ _ _ _ _ Rh Rr) |].
    rewrite sent_app, length_app, slept_app. split; lia.
Qed.

(** The page loop as the import runs it, with its progress observer. *)
Lemma query_all_loop_within q observed fuel :
  forall all_results offset c,
    within (7 * fuel) (50 * Z.of_nat fuel + 25) c
      (snd (query_all_loop server fuel q (Some (api_progress observed))
              all_results offset c)).
Proof.
  induction fuel as [| fuel IH]; intros all_results offset c.
  - simpl. apply (within_weaken 0 0); [lia | lia | apply within_refl].
  - cbn [query_all_loop]. unfold bind at 1.
    destruct (cargo_query_within q Config.API_MAX_LIMIT offset c) as [Hany Htight].
    destruct (_cargo_query server q Config.API_MAX_LIMIT offset c) as [[results | e] c1];
      cbn [fst snd] in *.
    2:{ apply (within_weaken 7 75); [lia | lia | exact Hany]. }
    unfold bind at 1. unfold api_progress at 1.
    set (c2 := notify observed _ c1).
    assert (H12 : within 0 0 c1 c2) by apply within_notify.
    destruct ((Z.of_nat (length results) <? Config.API_MAX_LIMIT)
              || (max_results <=? Z.of_nat (length (all_results ++ results)))) eqn:Hstop.
    + unfold ret. cbn [snd].
      apply (within_weaken (7 + 0) (75 + 0)); [lia | lia |].
      apply (within_trans _ _ _ _ _ _ _ Hany H12).
    + apply orb_false_iff in Hstop as [Hfull _].
      apply Z.ltb_ge in Hfull. unfold Config.API_MAX_LIMIT in Hfull.
      assert (Hrows : Ok results <> Ok (@nil row)).
      { intros E. injection E as ->. simpl in Hfull. lia. }
      specialize (Htight Hrows).
      apply (within_weaken (7 + 0 + 7 * fuel) (50 + 0 + (50 * Z.of_nat fuel + 25))); [lia | lia |].
      apply (within_trans _ _ _ _ _ _ _ (within_trans _ _ _ _ _ _ _ Htight H12)).
      apply IH.
Qed.

Lemma cargo_query_all_within q observed c :
  within 35 275 c (snd (_cargo_query_all server q (Some (api_progress observed)) c)).
Proof.
  unfold _cargo_query_all, bind.
  pose proof (query_all_loop_within q observed 5 [] 0 c) as H.
  destruct (query_all_loop server 5 q (Some (api_progress observed)) [] 0 c)
    as [[[rows |] | e] c1]; cbn [snd] in *;
    (apply (within_weaken (7 * 5) (50 * Z.of_nat 5 + 25)); [simpl; lia | simpl; lia | exact H]).
Qed.
(** [login] answers with the login flag it leaves behind. *)
Lemma login_answer c :
  exists answer c',
    login server c = (Ok answer, c') /\ is_logged_in c' = answer.
Proof.
  unfold login. destruct (is_logged_in c) eqn:Hin; [eauto |].
  unfold try_except, bind, _rate_limit, emit, exchange, record, ret, set_logged_in. simpl.
  destruct (server (exchanges c) GetLoginToken) as [e | data]; simpl; [eauto |].
  destruct (truthy (logintoken data)); simpl; [| eauto].
  destruct (server (S (exchanges c)) _) as [e | result]; simpl; [eauto |].
  destruct (decide (login_result result = PyStr "Success")); simpl; eauto.
Qed.

(** A client that is logged in goes straight to the attempts. *)
Lemma cargo_query_logged_in q limit offset c :
  is_logged_in c = true ->
  within 5 75 c (snd (_cargo_query server q limit offset c))
  /\ is_logged_in (snd (_cargo_query server q limit offset c)) = true.
Proof.
  intros Hin. rewrite RetryFacts.cargo_query_unfold.
  rewrite (RetryFacts.ensure_logged_in_when_logged_in server c Hin). cbn [snd].
  destruct (retry_loop_run
              (GetCargo q (Z.min limit Config.API_MAX_LIMIT) offset)
              (List.seq 0 Config.API_MAX_RETRIES) c)
    as (ev & n & Rr & Hsent & Hn & _ & Hz & _).
  split.
  - exists ev. split; [exact Rr |]. rewrite Hsent, length_replicate.
    change (backoff_caps (List.seq 0 Config.API_MAX_RETRIES)) with 75 in Hz.
    split; [exact Hn | exact Hz].
  - destruct (RetryFacts.retry_loop_bounded server
                (GetCargo q (Z.min limit Config.API_MAX_LIMIT) offset)
                (List.seq 0 Config.API_MAX_RETRIES) c) as [_ ->].
    exact Hin.
Qed.

Lemma save_all_within clock observed total_players items :
  forall i imported_count c d,
    within 0 0 c (snd (fst (save_all clock observed total_players items i imported_count c d))).
Proof.
  induction items as [| [name stats] items IH]; intros i imported_count c d.
  - apply within_refl.
  - cbn [save_all].
    destruct (Repository.upsert (clock i) (player_of_totals stats) d) as [[[success msg] p] d'].
    eapply (within_trans 0 0 0 0); [apply within_notify | apply IH].
Qed.
End Budget.

(** The cargo requests of one query: between one and five times the
    same request. *)
Lemma cargo_query_requests
    (server : nat -> request -> http_outcome) (q : query) (limit offset : Z) (c : client) :
  exists n,
    (1 <= n <= 5)%nat
    /\ List.filter is_cargo
         (sent (drop (length (log c)) (log (snd (_cargo_query server q limit offset c)))))
       = replicate n (GetCargo q (Z.min limit Config.API_MAX_LIMIT) offset).
Proof.
  rewrite RetryFacts.cargo_query_unfold.
  destruct (ensure_logged_in_run server c) as (hs & [Hlog Hex] & _ & _ & Fh & _).
  destruct (retry_loop_run server
              (GetCargo q (Z.min limit Config.API_MAX_LIMIT) offset)
              (List.seq 0 Config.API_MAX_RETRIES) (snd (ensure_logged_in server c)))
    as (ev & n & [Hlog' _] & Hsent & Hn & Hone & _).
  exists n. split; [split; [apply Hone; discriminate | exact Hn] |].
  rewrite Hlog', Hlog, <- app_assoc, drop_app_length, sent_app, List.filter_app, Hsent.
  assert (List.filter is_cargo (sent hs) = []) as ->.
  { clear -Fh. induction Fh as [| r l Hr _ IH]; [reflexivity |].
    simpl. rewrite Hr. exact IH. }
  simpl. clear. induction n as [| n IH]; [reflexivity |]. simpl. rewrite IH. reflexivity.
Qed.

(** X2. The cost of one [_cargo_query]. The trace grows by the handshake, which
    is empty for a client that is logged in and otherwise makes at most
    two exchanges, none of them a cargo request, and then by the
    attempts: between one and five times the same cargo request, which
    asks for [min(limit, API_MAX_LIMIT)] rows. The query goes out even
    when the handshake failed. The back-off between the attempts adds
    up to at most 75 seconds, and to at most 50 unless the call comes
    back empty. *)
Theorem cargo_query_backoff_budget
    (server : nat -> request -> http_outcome) (q : query) (limit offset : Z) (c : client) :
  exists handshake attempts n,
    log (snd (_cargo_query server q limit offset c)) = log c ++ handshake ++ attempts
    /\ exchanges (snd (_cargo_query server q limit offset c))
       = (exchanges c + length (sent handshake) + n)%nat
    /\ (is_logged_in c = true -> handshake = [])
    /\ (length (sent handshake) <= 2)%nat
    /\ Forall (fun r => is_cargo r = false) (sent handshake)
    /\ slept handshake = 0
    /\ sent attempts = replicate n (GetCargo q (Z.min limit Config.API_MAX_LIMIT) offset)
    /\ (1 <= n <= 5)%nat
    /\ 0 <= slept attempts <= 75
    /\ (fst (_cargo_query server q limit offset c) <> Ok [] -> slept attempts <= 50).
Proof.
  rewrite RetryFacts.cargo_query_unfold.
  destruct (ensure_logged_in_run server c) as (hs & [Hlog Hex] & Sh & Nh & Fh & Hin).
  destruct (retry_loop_run server
              (GetCargo q (Z.min limit Config.API_MAX_LIMIT) offset)
              (List.seq 0 Config.API_MAX_RETRIES) (snd (ensure_logged_in server c)))
    as (ev & n & [Hlog' Hex'] & Hsent & Hn & Hone & Hz & Htight).
  exists hs, ev, n.
  split; [rewrite Hlog', Hlog, app_assoc; reflexivity |].
  split; [rewrite Hex', Hex, Hsent, length_replicate; reflexivity |].
  split; [exact Hin |]. split; [exact Nh |]. split; [exact Fh |]. split; [exact Sh |].
  split; [exact Hsent |].
  split; [split; [apply Hone; discriminate | exact Hn] |].
  split; [exact Hz | exact Htight].
Qed.

(** X3. Errors that are not retried. Whatever number of attempts were answered
    in a retriable way before, an answer that carries an API error other
    than [ratelimited] raises [Exception("API error: <info>")], and an
    exception that is not a [RequestException] is raised as it is; no
    further request is made. *)
Theorem cargo_query_errors_not_retried
    (server : nat -> request -> http_outcome) (q : query) (limit offset : Z) (c : client)
    (k : nat) :
  let c0 := snd (ensure_logged_in server c) in
  let r := GetCargo q (Z.min limit Config.API_MAX_LIMIT) offset in
  (k < 5)%nat ->
  (forall i, (i < k)%nat ->
     RetryNotions.retriable i (server (exchanges c0 + i)%nat r) = true) ->
  (forall data err,
      server (exchanges c0 + k)%nat r = Json data ->
      error data = Some err ->
      code err <> "ratelimited" ->
      fst (_cargo_query server q limit offset c)
      = Raise (Exn PlainException ("API error: " +:+ info err))
      /\ exchanges (snd (_cargo_query server q limit offset c)) = (exchanges c0 + k + 1)%nat)
  /\ (forall e,
        server (exchanges c0 + k)%nat r = Raises e ->
        exn_cls e <> RequestException ->
        fst (_cargo_query server q limit offset c) = Raise e
        /\ exchanges (snd (_cargo_query server q limit offset c)) = (exchanges c0 + k + 1)%nat).
Proof.
  intros c0 r Hk Hbefore.
  rewrite RetryFacts.cargo_query_unfold. fold c0. fold r.
  assert (Hsplit : List.seq 0 Config.API_MAX_RETRIES
                   = List.seq 0 k ++ k :: List.seq (S k) (4 - k)).
  { change Config.API_MAX_RETRIES with 5%nat.
    replace 5%nat with (k + S (4 - k))%nat at 1 by lia.
    rewrite seq_app. reflexivity. }
  rewrite Hsplit.
  destruct (retry_loop_skips server r (List.seq 0 k) c0 (k :: List.seq (S k) (4 - k)))
    as (c1 & -> & Hex & _).
  { intros i attempt Hi. apply lookup_seq in Hi as [-> Hi]. apply Hbefore, Hi. }
  rewrite length_seq in Hex. rewrite <- Hex.
  split.
  - intros data err Hs He Hc. cbn [retry_loop]. unfold bind.
    rewrite (attempt_once_api_error server r k c1 data err Hs He Hc).
    split; [reflexivity | simpl; lia].
  - intros e Hs He. cbn [retry_loop]. unfold bind.
    rewrite (attempt_once_foreign server r k c1 e Hs He).
    split; [reflexivity | simpl; lia].
Qed.

(** After two rate-limit answers the database error of the third
    attempt is raised; the fourth and fifth attempts are not made. *)
Lemma cargo_query_errors_not_retried_witness :
  fst (_cargo_query (failing_wiki 2) RetryNotions.any_query 500 0 RetryNotions.logged_in_client)
  = Raise (Exn PlainException "API error: Database query error")
  /\ exchanges (snd (_cargo_query (failing_wiki 2) RetryNotions.any_query 500 0
                       RetryNotions.logged_in_client)) = 3%nat.
Proof.
  destruct (cargo_query_errors_not_retried (failing_wiki 2) RetryNotions.any_query 500 0
              RetryNotions.logged_in_client 2) as [Hapi _].
  - lia.
  - intros i Hi. destruct i as [| [| i]]; [reflexivity | reflexivity | lia].
  - apply (Hapi {| logintoken := PyNone; login_result := PyNone;
                    error := Some {| code := "internal_api_error_DBQueryError";
                                     info := "Database query error" |};
                    cargoquery := [] |}
                 {| code := "internal_api_error_DBQueryError";
                    info := "Database query error" |}); [reflexivity | reflexivity |].
    discriminate.
Defined.

(** X4. The cost of an import. Whatever the wiki answers, one run of
    [import_from_leaguepedia] makes at most 35 HTTP exchanges (five pages,
    each with a handshake of two and five attempts) and spends at most
    275 seconds in the back-off of the retry loop (50 for each of four
    full pages, 75 for the last). *)
Theorem import_budget
    (float_of_string : string -> option float)
    (server : nat -> request -> http_outcome) (clock : nat -> Models.datetime)
    (tournament year : string) (observed : bool) (s : service) :
  exists events,
    let c' := api_client (snd (import_from_leaguepedia float_of_string server clock
                                 tournament year observed s)) in
    log c' = log (api_client s) ++ events
    /\ exchanges c' = (exchanges (api_client s) + length (sent events))%nat
    /\ (length (sent events) <= 35)%nat
    /\ 0 <= slept events <= 275.
Proof.
  assert (H : within 35 275 (api_client s)
                (api_client (snd (import_from_leaguepedia float_of_string server clock
                                    tournament year observed s)))).
  { unfold import_from_leaguepedia.
    assert (Hfetch : within 35 275 (api_client s)
                       (snd (fetch_stage float_of_string server tournament year observed s))).
    { unfold fetch_stage, fetch_player_game_stats.
      pose proof (within_notify observed Fetching 0 0 (api_client s)) as H0.
      destruct (where_clause tournament year) as [w | e].
      - unfold bind.
        pose proof (cargo_query_all_within server (scoreboard_query w) observed
                      (notify observed (Progress Fetching 0 0) (api_client s))) as H1.
        destruct (_cargo_query_all server (scoreboard_query w) (Some (api_progress observed))
                    (notify observed (Progress Fetching 0 0) (api_client s)))
          as [[results | e] c1]; cbn [snd] in *;
          apply (within_trans 0 0 35 275 _ _ _ H0 H1).
      - unfold raise. cbn [snd].
        apply (within_weaken 0 0); [lia | lia | exact H0]. }
    destruct (fetch_stage float_of_string server tournament year observed s)
      as [[game_stats | e] c2]; cbn [snd] in *; [| exact Hfetch].
    destruct (Z.of_nat (length game_stats) =? 0); [exact Hfetch |].
    set (c3 := notify observed (Progress Aggregating 0 _) c2).
    set (c4 := notify observed (Progress Saving 0 _) c3).
    pose proof (save_all_within clock observed
                  (Z.of_nat (length (aggregate_player_stats game_stats)))
                  (aggregate_player_stats game_stats) 0 0 c4 (repo s)) as Hsave.
    destruct (save_all clock observed _ (aggregate_player_stats game_stats) 0 0 c4 (repo s))
      as [[imported_count c5] d]. cbn [fst snd api_client] in *.
    assert (H23 : within 0 0 c2 c3) by apply within_notify.
    assert (H34 : within 0 0 c3 c4) by apply within_notify.
    pose proof (within_notify observed Complete imported_count
                  (Z.of_nat (length (aggregate_player_stats game_stats))) c5) as H56.
    apply (within_weaken (35 + 0) (275 + 0)); [lia | lia |].
    apply (within_trans _ _ _ _ _ _ _ Hfetch).
    apply (within_trans 0 0 0 0 _ _ _ H23).
    apply (within_trans 0 0 0 0 _ _ _ H34).
    apply (within_trans 0 0 0 0 _ _ _ Hsave).
    exact H56. }
  destruct H as (events & [Hlog Hex] & Hn & Hz).
  exists events. cbv zeta. auto.
Qed.
End BudgetFacts.

(** ** The connection test and the tournament list *)

Module ProbeFacts.
Import Py.
Import Leaguepedia.
Import LeaguepediaClient.
Import LeaguepediaQueries.
Import PlayerService.
Import PlayerServiceOps.
Import BudgetNotions.
Import BudgetFacts.
Import ProbeNotions.

Lemma overview_pages_named (results : list row) :
  Forall is_truthy
    (map (fun r => get_or r "OverviewPage" (PyStr ""))
         (List.filter (fun r => truthy (get r "OverviewPage")) results)).
Proof.
  apply List.Forall_forall. intros v Hv.
  apply in_map_iff in Hv as (r & <- & Hr). apply filter_In in Hr as [_ Hr].
  unfold get, get_or in *. destruct (r !! "OverviewPage") as [page |]; [| discriminate].
  exact Hr.
Qed.

(** X5. [test_connection] never raises. It answers [True] exactly when
    the handshake succeeds and the probe query does not raise, and the
    client is then logged in; this includes the case in which the wiki
    answers all five attempts of the probe with a rate-limit error. At
    most seven exchanges are made and at most 75 seconds are spent in
    back-off. *)
Theorem test_connection_total (server : nat -> request -> http_outcome) (c : client) :
  exists answer c',
    test_connection server c = (Ok answer, c')
    /\ (answer = true -> is_logged_in c' = true)
    /\ (answer = true <->
        fst (login server c) = Ok true
        /\ forall e, fst (_cargo_query server probe_query 1 0 (snd (login server c))) <> Raise e)
    /\ within 7 75 c c'
    /\ (fst (login server c) = Ok true ->
        (forall i, (i < 5)%nat ->
           RetryNotions.rate_limited
             (server (exchanges (snd (login server c)) + i)%nat (GetCargo probe_query 1 0))
           = true) ->
        answer = true).
Proof.
  unfold test_connection, try_except, bind.
  destruct (login_run server c) as (hs & Rh & Sh & Nh & _ & _).
  assert (Hlogin : within 2 0 c (snd (login server c))).
  { exists hs. split; [exact Rh |]. split; [exact Nh | lia]. }
  destruct (login_answer server c) as (logged & c1 & Hl & Hflag).
  rewrite Hl in *. cbn [fst snd] in *.
  destruct logged; cbn [negb].
  2:{ exists false, c1. unfold ret. split; [reflexivity |]. split; [discriminate |].
      split; [split; [discriminate | intros [H _]; discriminate] |].
      split; [apply (within_weaken 2 0); [lia | lia | exact Hlogin] |].
      intros H. discriminate. }
  destruct (cargo_query_logged_in server probe_query 1 0 c1 Hflag) as [Hq Hkeep].
  assert (Hall : within 7 75 c (snd (_cargo_query server probe_query 1 0 c1))).
  { apply (within_trans 2 0 5 75 _ _ _ Hlogin Hq). }
  destruct (_cargo_query server probe_query 1 0 c1) as [[rows | e] c2] eqn:Hrun;
    cbn [fst snd] in *; unfold ret.
  - exists true, c2. split; [reflexivity |]. split; [intros _; exact Hkeep |].
    split; [split; [intros _; split; [reflexivity | discriminate] | reflexivity] |].
    split; [exact Hall | reflexivity].
  - exists false, c2. split; [reflexivity |]. split; [discriminate |].
    split; [split; [discriminate | intros [_ H]; exfalso; apply (H e); reflexivity] |].
    split; [exact Hall |].
    intros _ Hlimited. exfalso.
    rewrite RetryFacts.cargo_query_unfold in Hrun.
    rewrite (RetryFacts.ensure_logged_in_when_logged_in server c1 Hflag) in Hrun.
    cbn [snd] in Hrun. change (Z.min 1 Config.API_MAX_LIMIT) with 1 in Hrun.
    destruct (RetryFacts.retry_loop_exhausted server
                (GetCargo probe_query 1 0)
                (List.seq 0 Config.API_MAX_RETRIES) c1) as (c3 & Hempty & _).
    { intros i attempt Hi. apply RetryFacts.lookup_seq_5 in Hi as [-> Hi].
      unfold RetryNotions.retriable. rewrite (Hlimited i Hi). reflexivity. }
    rewrite Hempty in Hrun. discriminate.
Qed.

(** X6. [get_available_tournaments] never raises: it answers the overview
    pages of the rows that have a truthy one, in the order of the wiki,
    so that no [None] and no empty string is among them, and the empty
    list when the query behind it raises. One query is made, for at most 100 rows from
    offset 0, and the repository is not touched. *)
Theorem available_tournaments_named
    (server : nat -> request -> http_outcome) (year : string) (s : service) :
  let answer := get_available_tournaments server year s in
  let run := _cargo_query server (tournaments_query year) 100 0 (api_client s) in
  Forall is_truthy (fst answer)
  /\ (forall rows,
        fst run = Ok rows ->
        fst answer
        = map (fun r => get_or r "OverviewPage" (PyStr ""))
              (List.filter (fun r => truthy (get r "OverviewPage")) rows))
  /\ (forall e, fst run = Raise e -> fst answer = [])
  /\ api_client (snd answer) = snd run
  /\ repo (snd answer) = repo s
  /\ exists n,
       (1 <= n <= 5)%nat
       /\ List.filter is_cargo
            (sent (drop (length (log (api_client s))) (log (api_client (snd answer)))))
          = replicate n (GetCargo (tournaments_query year) 100 0).
Proof.
  intros answer run. subst answer run.
  unfold get_available_tournaments, get_tournaments, bind.
  destruct (cargo_query_requests server (tournaments_query year) 100 0 (api_client s))
    as (n & Hn & Htrace).
  change (Z.min 100 Config.API_MAX_LIMIT) with 100 in Htrace.
  destruct (_cargo_query server (tournaments_query year) 100 0 (api_client s))
    as [[rows | e] c1]; cbn [fst snd ret] in *.
  - split; [apply overview_pages_named |].
    split; [intros rows' E; injection E as <-; reflexivity |].
    split; [discriminate |]. split; [reflexivity |]. split; [reflexivity |].
    exists n. split; [exact Hn | exact Htrace].
  - split; [constructor |]. split; [discriminate |].
    split; [reflexivity |]. split; [reflexivity |]. split; [reflexivity |].
    exists n. split; [exact Hn | exact Htrace].
Qed.
End ProbeFacts.

(** ** The scope of the scoreboard query *)

Module ScopeFacts.
Import Py.
Import Leaguepedia.
Import LeaguepediaClient.
Import PlayerService.
Import BudgetNotions.
Import BudgetFacts.
Import ScopeNotions.

Lemma upper_nonempty (s : string) : upper s <> "" -> String.eqb s "" = false.
Proof. destruct s; [intros H; contradiction | reflexivity]. Qed.

Lemma where_clause_of_pattern tournament_filter year pat :
  scope_pattern tournament_filter year = Ok pat ->
  where_clause tournament_filter year
  = Ok (join " AND " ([pat] ++ (if excludes_tier2 tournament_filter then tier2_exclusions else []))).
Proof.
  intros H. unfold where_clause, where_parts. rewrite H. reflexivity.
Qed.

Lemma where_clause_named tournament_filter year name :
  In name named_scopes ->
  upper tournament_filter = name ->
  where_clause tournament_filter year = where_clause name year.
Proof.
  intros Hin Hu.
  assert (Hne : String.eqb tournament_filter "" = false).
  { apply upper_nonempty. rewrite Hu.
    simpl in Hin. destruct Hin as [<- | [<- | [<- | [<- | [<- | []]]]]]; discriminate. }
  unfold where_clause, where_parts, scope_pattern, excludes_tier2.
  rewrite Hne, Hu.
  simpl in Hin. destruct Hin as [<- | [<- | [<- | [<- | [<- | []]]]]]; reflexivity.
Qed.

(** What [int] raises is a [ValueError]. *)
Lemma int_of_str_error (s : string) (e : exn) :
  int_of_str s = Raise e -> exn_cls e = ValueError.
Proof.
  unfold int_of_str. destruct (read_int s); [discriminate | |]; intros [= <-]; reflexivity.
Qed.

Lemma scope_pattern_total tournament_filter year :
  upper tournament_filter <> "LCS" \/ int_literal_year year ->
  exists pat, scope_pattern tournament_filter year = Ok pat.
Proof.
  intros H. unfold scope_pattern.
  destruct (String.eqb tournament_filter ""); [eauto |].
  destruct (String.eqb_spec (upper tournament_filter) "LCS") as [Hu | Hu].
  - destruct H as [H | [y Hy]]; [contradiction |]. rewrite Hy.
    simpl. destruct (2025 <=? y); [eauto |].
    rewrite Hu. simpl. eauto.
  - simpl.
    repeat match goal with
           | |- context [String.eqb ?a ?b] => destruct (String.eqb a b)
           end; eauto.
Qed.

Lemma where_clause_bad_year tournament_filter year e :
  upper tournament_filter = "LCS" ->
  int_of_str year = Raise e ->
  where_clause tournament_filter year = Raise e.
Proof.
  intros Hu Hy. unfold where_clause, where_parts, scope_pattern.
  rewrite (upper_nonempty tournament_filter) by (rewrite Hu; discriminate).
  rewrite Hu, Hy. reflexivity.
Qed.

(** X7. The scope of the query. The filter is built without an error
    except in one case: for the LCS, in any spelling, the year is read
    as an int, and when [int(year)] raises, its [ValueError] is what
    the construction raises. The names LCK, LPL, LEC, WORLDS and MSI
    are recognised in any mix of upper and lower case and give the
    filter of the upper-case name; so does LCS from 2025 on. Before
    2025 the LCS is looked up as free text, in the spelling that was
    typed, with the tier-2 exclusions: "lcs" for "2025" and "Lcs" for
    "2024" give the two patterns written out, each followed by the
    twenty exclusions. *)
Theorem where_clause_scope (tournament_filter year : string) :
  (upper tournament_filter = "LCS" ->
   forall e, int_of_str year = Raise e ->
     where_clause tournament_filter year = Raise e /\ exn_cls e = ValueError)
  /\ (upper tournament_filter <> "LCS" \/ int_literal_year year ->
      exists w, where_clause tournament_filter year = Ok w)
  /\ (In (upper tournament_filter) named_scopes ->
      where_clause tournament_filter year = where_clause (upper tournament_filter) year)
  /\ (upper tournament_filter = "LCS" ->
      forall y, int_of_str year = Ok y ->
        if 2025 <=? y
        then where_parts tournament_filter year = Ok (lcs_lta_pattern year :: tier2_exclusions)
        else where_parts tournament_filter year
             = Ok (free_text_pattern tournament_filter year :: tier2_exclusions))
  /\ where_clause "lcs" "2025"
     = Ok (join " AND " (lta_2025 :: map QueryNotions.exclusion_of QueryNotions.tier2_marks))
  /\ where_clause "Lcs" "2024"
     = Ok (join " AND " (lcs_2024 :: map QueryNotions.exclusion_of QueryNotions.tier2_marks)).
Proof.
  split; [| split; [| split; [| split; [| split; vm_compute; reflexivity]]]].
  - intros Hu e Hy.
    split; [apply where_clause_bad_year; assumption | apply (int_of_str_error year e Hy)].
  - intros H. destruct (scope_pattern_total tournament_filter year H) as [pat Hpat].
    rewrite (where_clause_of_pattern _ _ _ Hpat). eauto.
  - intros Hin. apply (where_clause_named _ _ _ Hin eq_refl).
  - intros Hu y Hy.
    assert (Hne : String.eqb tournament_filter "" = false).
    { apply upper_nonempty. rewrite Hu. discriminate. }
    unfold where_parts, scope_pattern, excludes_tier2.
    rewrite Hne, Hu, Hy. simpl. destruct (2025 <=? y); reflexivity.
Qed.

Lemma exchanges_notify observed ev c : exchanges (notify observed ev c) = exchanges c.
Proof. unfold notify. destruct observed; reflexivity. Qed.

Lemma is_logged_in_notify observed ev c : is_logged_in (notify observed ev c) = is_logged_in c.
Proof. unfold notify. destruct observed; reflexivity. Qed.

(** X8. An import of the LCS for a year that [int] does not accept
    fails before anything is sent: the outcome is the one that the
    handler of the import makes of the [ValueError] of [int(year)], no
    exchange is made and the repository is as before. *)
Theorem import_bad_year_offline
    (float_of_string : string -> option float)
    (server : nat -> request -> http_outcome) (clock : nat -> Models.datetime)
    (tournament year : string) (observed : bool) (s : service) (e : exn) :
  upper tournament = "LCS" ->
  int_of_str year = Raise e ->
  let result := import_from_leaguepedia float_of_string server clock tournament year
                  observed s in
  fst result = failure_outcome e
  /\ exn_cls e = ValueError
  /\ repo (snd result) = repo s
  /\ exchanges (api_client (snd result)) = exchanges (api_client s)
  /\ is_logged_in (api_client (snd result)) = is_logged_in (api_client s).
Proof.
  intros Hu Hy result. subst result.
  unfold import_from_leaguepedia, fetch_stage, fetch_player_game_stats.
  rewrite (where_clause_bad_year tournament year e Hu Hy).
  unfold raise. cbn [fst snd repo api_client].
  rewrite exchanges_notify, is_logged_in_notify.
  split; [reflexivity |]. split; [apply (int_of_str_error year e Hy) | auto].
Qed.

(** The year "20x5" for the LCS, in lower case. *)
Lemma import_bad_year_offline_witness :
  let result := import_from_leaguepedia (fun _ => None) RetryNotions.empty_wiki (fun _ => 0)
                  "lcs" "20x5" false ImportNotions.fresh_service in
  fst result = (0, 0, Some "Import failed: invalid literal for int() with base 10: '20x5'")
  /\ repo (snd result) = Repository.empty_db
  /\ exchanges (api_client (snd result)) = 0%nat
  /\ is_logged_in (api_client (snd result)) = false.
Proof.
  destruct (import_bad_year_offline (fun _ => None) RetryNotions.empty_wiki (fun _ => 0)
              "lcs" "20x5" false ImportNotions.fresh_service
              (Exn ValueError "invalid literal for int() with base 10: '20x5'"))
    as (H1 & _ & H2 & H3 & H4); [reflexivity | reflexivity |].
  split; [exact H1 |]. split; [exact H2 |]. split; [exact H3 | exact H4].
Defined.

(** X9. Rate limiting seen from the import. When the wiki answers every
    cargo request with a rate-limit error and the filter can be built
    (the tournament is not the LCS, or the year is an int literal), the
    import ends after the five attempts at the first page with the
    no-data message, not with the rate-limit message of its exception
    handler, and the repository is as before. *)
Theorem import_rate_limited_no_data
    (float_of_string : string -> option float)
    (server : nat -> request -> http_outcome) (clock : nat -> Models.datetime)
    (tournament year : string) (observed : bool) (s : service) :
  (forall n q limit offset,
      RetryNotions.rate_limited (server n (GetCargo q limit offset)) = true) ->
  (upper tournament <> "LCS" \/ int_literal_year year) ->
  let result := import_from_leaguepedia float_of_string server clock tournament year
                  observed s in
  fst result = (0, 0, Some (no_data_message tournament year))
  /\ fst result <> (0, 0, Some rate_limit_message)
  /\ repo (snd result) = repo s
  /\ exists handshake,
       (handshake <= 2)%nat
       /\ (is_logged_in (api_client s) = true -> handshake = 0%nat)
       /\ exchanges (api_client (snd result))
          = (exchanges (api_client s) + handshake + 5)%nat.
Proof.
  intros Hlimited Hyear result. subst result.
  assert (exists w, where_clause tournament year = Ok w) as [w Hw].
  { destruct (scope_pattern_total tournament year Hyear) as [pat Hpat].
    rewrite (where_clause_of_pattern _ _ _ Hpat). eauto. }
  set (c0 := notify observed (Progress Fetching 0 0) (api_client s)).
  set (q := scoreboard_query w).
  destruct (ensure_logged_in_run server c0) as (hs & [_ Hex0] & _ & Hhs & _ & Hin0).
  assert (Hquery : exists c1,
             _cargo_query server q Config.API_MAX_LIMIT 0 c0 = (Ok [], c1)
             /\ exchanges c1 = (exchanges (api_client s) + length (sent hs) + 5)%nat).
  { pose proof (RetryFacts.cargo_query_unfold server q Config.API_MAX_LIMIT 0 c0) as Hun.
    destruct (RetryFacts.retry_loop_exhausted server
                (GetCargo q (Z.min Config.API_MAX_LIMIT Config.API_MAX_LIMIT) 0)
                (List.seq 0 Config.API_MAX_RETRIES) (snd (ensure_logged_in server c0)))
      as (c1 & Hrun & Hex).
    { intros i attempt _. unfold RetryNotions.retriable. rewrite Hlimited. reflexivity. }
    exists c1. rewrite Hun, Hrun. split; [reflexivity |].
    rewrite Hex, Hex0. unfold c0. rewrite exchanges_notify. reflexivity. }
  destruct Hquery as (c1 & Hquery & Hex1).
  assert (Hfetch : fetch_stage float_of_string server tournament year observed s
                   = (Ok [], notify observed (Progress Fetched 0 0) c1)).
  { unfold fetch_stage, fetch_player_game_stats. rewrite Hw. fold c0. fold q.
    unfold bind at 1, _cargo_query_all. unfold bind at 1.
    cbn [query_all_loop]. unfold bind at 1. rewrite Hquery.
    unfold bind at 1. unfold api_progress at 1. simpl. reflexivity. }
  unfold import_from_leaguepedia. rewrite Hfetch. simpl.
  split; [reflexivity |]. split.
  { unfold no_data_message, rate_limit_message. intros E. discriminate E. }
  split; [reflexivity |].
  exists (length (sent hs)). split; [exact Hhs |]. split.
  - intros Hin. rewrite (Hin0 ltac:(unfold c0; rewrite is_logged_in_notify; exact Hin)).
    reflexivity.
  - rewrite exchanges_notify. exact Hex1.
Qed.

(** A wiki that rate-limits every cargo request: an import of the LCK
    for 2025 through a fresh service reports that there is no data,
    after the handshake and five attempts. *)
Lemma import_rate_limited_no_data_witness :
  let result := import_from_leaguepedia (fun _ => None) throttling_wiki (fun _ => 0)
                  "LCK" "2025" false ImportNotions.fresh_service in
  fst result = (0, 0, Some "No data found for LCK 2025")
  /\ fst result <> (0, 0, Some rate_limit_message)
  /\ repo (snd result) = Repository.empty_db
  /\ exists handshake,
       (handshake <= 2)%nat
       /\ (is_logged_in new_client = true -> handshake = 0%nat)
       /\ exchanges (api_client (snd result)) = (0 + handshake + 5)%nat.
Proof.
  apply (import_rate_limited_no_data (fun _ => None) throttling_wiki (fun _ => 0)
           "LCK" "2025" false ImportNotions.fresh_service).
  - intros n q limit offset. reflexivity.
  - left. discriminate.
Defined.
End ScopeFacts.

(** ** Reading the numbers of a row *)

Module ParseFacts.
Import Py.
Import Leaguepedia.
Import LeaguepediaQueries.
Import ParseNotions.

Lemma digit_of_pretty (d : N) :
  (d < 10)%N -> digit_of (pretty_N_char d) = Some (Z.of_N d).
Proof.
  intros H.
  assert (d = 0 \/ d = 1 \/ d = 2 \/ d = 3 \/ d = 4 \/ d = 5 \/ d = 6 \/ d = 7
          \/ d = 8 \/ d = 9)%N as Hd by lia.
  repeat (destruct Hd as [-> | Hd]; [reflexivity |]). subst d. reflexivity.
Qed.

Lemma digit_not_int_space c : is_digit c -> is_int_space c = false.
Proof.
  intros [d Hd]. unfold digit_of in Hd. unfold is_int_space.
  destruct ((48 <=? nat_of_ascii c)%nat && (nat_of_ascii c <=? 57)%nat) eqn:E; [| discriminate].
  apply andb_true_iff in E as [E1 E2]. apply Nat.leb_le in E1, E2.
  replace (nat_of_ascii c <=? 13)%nat with false by (symmetry; apply Nat.leb_gt; lia).
  replace (nat_of_ascii c =? 32)%nat with false by (symmetry; apply Nat.eqb_neq; lia).
  replace (nat_of_ascii c =? 133)%nat with false by (symmetry; apply Nat.eqb_neq; lia).
  replace (nat_of_ascii c =? 160)%nat with false by (symmetry; apply Nat.eqb_neq; lia).
  rewrite andb_false_r. reflexivity.
Qed.

Lemma digit_not_sign c : is_digit c -> Ascii.eqb c "-" = false /\ Ascii.eqb c "+" = false.
Proof.
  intros [d Hd]. unfold digit_of in Hd.
  split; apply Ascii.eqb_neq; intros ->; discriminate Hd.
Qed.

(** A run of digits is read to the end and counted, whatever was read
    before. *)
Lemma digits_run (l : list ascii) :
  Forall is_digit l -> l <> [] ->
  forall acc count after_digit,
    digits acc count after_digit l
    = Some (read_digits acc l, count + Z.of_nat (length l), []).
Proof.
  induction 1 as [| c l [d Hc] Hl IH]; intros Hne acc count after_digit; [contradiction |].
  cbn [digits read_digits fold_left]. rewrite Hc. cbn [default].
  destruct l as [| c' l'].
  - reflexivity.
  - rewrite IH by discriminate. unfold read_digits, id. do 2 f_equal.
    change (length (c :: c' :: l')) with (S (length (c' :: l'))).
    rewrite (Nat2Z.inj_succ (length (c' :: l'))). f_equal. lia.
Qed.

(** The digits that [pretty_N_go] puts in front of [s]: they spell
    [x], and a number below [10 ^ k] takes at most [k] of them. *)
Lemma pretty_N_go_digits (x : N) :
  forall s,
    exists l,
      list_ascii_of_string (pretty_N_go x s) = l ++ list_ascii_of_string s
      /\ Forall is_digit l
      /\ read_digits 0 l = Z.of_N x
      /\ ((0 < x)%N -> l <> [])
      /\ (forall k, (x < 10 ^ k)%N -> (N.of_nat (length l) <= k)%N).
Proof.
  induction (N.lt_wf_0 x) as [x _ IH]. intros s.
  destruct (N.eq_dec x 0%N) as [-> | Hx].
  - exists []. rewrite pretty_N_go_0.
    split; [reflexivity |]. split; [constructor |]. split; [reflexivity |].
    split; [lia |]. intros k _. simpl. lia.
  - assert (0 < x)%N as Hpos by lia.
    rewrite (pretty_N_go_step x s Hpos).
    destruct (IH (x `div` 10)%N (N.div_lt x 10 Hpos eq_refl)
                 (String (pretty_N_char (x `mod` 10)) s))
      as (l & Hl & Hd & Hv & _ & Hlen).
    assert (Hmod : (x `mod` 10 < 10)%N) by (apply N.mod_lt; lia).
    exists (l ++ [pretty_N_char (x `mod` 10)]%N).
    split; [rewrite Hl, <- app_assoc; reflexivity |].
    split.
    { apply Forall_app. split; [exact Hd |]. constructor; [| constructor].
      eexists. apply digit_of_pretty, Hmod. }
    split.
    { unfold read_digits in *. rewrite fold_left_app, Hv. cbn [fold_left].
      rewrite (digit_of_pretty _ Hmod). cbn [default].
      pose proof (N.div_mod x 10 ltac:(lia)) as E. unfold id. lia. }
    split; [intros _ E; destruct l; discriminate E |].
    intros k Hk. rewrite length_app. cbn [length].
    destruct (N.eq_dec k 0%N) as [-> | Hk0]; [simpl in Hk; lia |].
    assert (Hsmall : (x `div` 10 < 10 ^ (k - 1))%N).
    { apply N.Div0.div_lt_upper_bound.
      replace k with (N.succ (k - 1)) in Hk by lia.
      rewrite N.pow_succ_r' in Hk. exact Hk. }
    specialize (Hlen (k - 1)%N Hsmall). lia.
Qed.

(** The numeral of a natural number below [10 ^ 4300], after an
    optional sign, is read as that number. *)
Lemma digits_of_pretty_N (x : N) :
  (0 < x < 10 ^ 4300)%N ->
  exists l,
    list_ascii_of_string (pretty_N_go x "") = l
    /\ l <> []
    /\ Forall is_digit l
    /\ digits 0 0 false l = Some (Z.of_N x, Z.of_nat (length l), [])
    /\ Z.of_nat (length l) <= 4300.
Proof.
  intros [Hpos Hbound].
  destruct (pretty_N_go_digits x "") as (l & Hl & Hd & Hv & Hne & Hlen).
  cbn [list_ascii_of_string] in Hl. rewrite app_nil_r in Hl.
  exists l. split; [exact Hl |]. split; [exact (Hne Hpos) |]. split; [exact Hd |].
  split.
  - rewrite (digits_run l Hd (Hne Hpos)), Hv. reflexivity.
  - specialize (Hlen 4300%N Hbound). lia.
Qed.

Lemma read_int_digits (l : list ascii) (n : Z) (negative : bool) :
  l <> [] -> Forall is_digit l ->
  digits 0 0 false l = Some (n, Z.of_nat (length l), []) ->
  Z.of_nat (length l) <= 4300 ->
  read_int (string_of_list_ascii ((if negative then ["-"%char] else []) ++ l))
  = IntValue (if negative then - n else n).
Proof.
  intros Hne Hd Hrun Hlen. unfold read_int. rewrite list_ascii_of_string_of_list_ascii.
  destruct l as [| c l]; [contradiction |].
  inversion Hd as [| ? ? Hc _]; subst.
  assert (Hcount : (int_max_str_digits <? Z.of_nat (length (c :: l))) = false).
  { apply Z.ltb_ge. unfold int_max_str_digits. exact Hlen. }
  assert (Hzero : (Z.of_nat (length (c :: l)) =? 0) = false).
  { apply Z.eqb_neq. cbn [length]. lia. }
  destruct negative; cbn [app skip_spaces].
  - change (is_int_space "-") with false. cbn iota. change (Ascii.eqb "-" "-") with true.
    cbn iota. rewrite Hrun, Hcount, Hzero. reflexivity.
  - rewrite (digit_not_int_space c Hc).
    destruct (digit_not_sign c Hc) as [-> ->].
    rewrite Hrun, Hcount, Hzero. reflexivity.
Qed.

Lemma int_of_str_of_int (n : Z) :
  - 10 ^ 4300 < n < 10 ^ 4300 -> int_of_string (str_of_int n) = Some n.
Proof.
  intros Hn. unfold int_of_string, str_of_int. destruct n as [| p | p].
  - reflexivity.
  - destruct (digits_of_pretty_N (Npos p)) as (l & Hl & Hne & Hd & Hrun & Hlen).
    { split; [lia |]. apply N2Z.inj_lt. rewrite N2Z.inj_pow. exact (proj2 Hn). }
    pose proof (read_int_digits l (Z.of_N (Npos p)) false Hne Hd Hrun Hlen) as H.
    cbn [app] in H. rewrite <- Hl, string_of_list_ascii_of_string in H.
    change (pretty (Z.pos p)) with (pretty_N_go (N.pos p) "").
    rewrite H. reflexivity.
  - destruct (digits_of_pretty_N (Npos p)) as (l & Hl & Hne & Hd & Hrun & Hlen).
    { split; [lia |]. apply N2Z.inj_lt. rewrite N2Z.inj_pow.
      change (Z.of_N (N.pos p)) with (Z.pos p). change (Z.of_N 10) with 10.
      change (Z.of_N 4300) with 4300. lia. }
    pose proof (read_int_digits l (Z.of_N (Npos p)) true Hne Hd Hrun Hlen) as H.
    cbn [app] in H. rewrite <- Hl in H.
    change (string_of_list_ascii ("-"%char :: list_ascii_of_string (pretty_N_go (N.pos p) "")))
      with (String "-" (string_of_list_ascii (list_ascii_of_string (pretty_N_go (N.pos p) ""))))
      in H.
    rewrite string_of_list_ascii_of_string in H.
    change (pretty (Z.neg p)) with (String "-" (pretty_N_go (N.pos p) "")).
    rewrite H. reflexivity.
Qed.

(** X10. The numbers of a row are read back exactly: for every integer
    of at most 4300 digits, the longest numeral that [int] converts,
    the decimal numeral that [str] writes for it is read by [safe_int]
    as that integer, whatever the default. *)
Theorem safe_int_reads_decimal (n default : Z) :
  - 10 ^ 4300 < n < 10 ^ 4300 ->
  safe_int (PyStr (str_of_int n)) default = n.
Proof.
  intros Hn. unfold safe_int.
  pose proof (int_of_str_of_int n Hn) as H.
  destruct (truthy (PyStr (str_of_int n))) eqn:Ht.
  - rewrite H. reflexivity.
  - simpl in Ht. apply negb_false_iff, String.eqb_eq in Ht.
    rewrite Ht in H. discriminate H.
Qed.

(** The gold of a game, and a negative number. *)
Lemma safe_int_reads_decimal_witness :
  safe_int (PyStr "15000") 0 = 15000 /\ safe_int (PyStr "-3") 7 = -3.
Proof.
  split.
  - apply (safe_int_reads_decimal 15000 0). split; reflexivity.
  - apply (safe_int_reads_decimal (-3) 7). split; reflexivity.
Defined.
End ParseFacts.

(** ** The aggregated dictionary as a whole *)

Module TotalsFacts.
Import Py.
Import Leaguepedia.
Import AggregatorNotions.
Import TotalsNotions.

Section Dict.
Context {V : Type}.
Implicit Types (d : PyDict.dict pyval V) (k : pyval) (v : V).

Lemma keys_set d k v :
  PyDict.keys (PyDict.set d k v)
  = if bool_decide (k ∈ PyDict.keys d) then PyDict.keys d else PyDict.keys d ++ [k].
Proof.
  induction d as [| [k' v'] d IH]; simpl.
  - reflexivity.
  - destruct (decide (k' = k)) as [-> | Hne]; simpl.
    + rewrite bool_decide_eq_true_2 by (apply elem_of_cons; auto). reflexivity.
    + unfold PyDict.keys in *. rewrite IH.
      destruct (bool_decide (k ∈ map fst d)) eqn:E.
      * apply bool_decide_eq_true in E.
        rewrite bool_decide_eq_true_2 by (apply elem_of_cons; auto). reflexivity.
      * apply bool_decide_eq_false in E.
        rewrite bool_decide_eq_false_2; [reflexivity |].
        intros H. apply elem_of_cons in H as [H | H]; [congruence | contradiction].
Qed.

Lemma get_None_keys d k : PyDict.get d k = None <-> k ∉ PyDict.keys d.
Proof.
  induction d as [| [k' v'] d IH]; simpl.
  - split; [intros _; apply not_elem_of_nil | reflexivity].
  - destruct (decide (k' = k)) as [-> | Hne].
    + split; [discriminate | intros H; exfalso; apply H, elem_of_cons; auto].
    + rewrite IH. unfold PyDict.keys. simpl. rewrite elem_of_cons. intuition congruence.
Qed.

Lemma get_Some_In d k v : NoDup (PyDict.keys d) -> In (k, v) d <-> PyDict.get d k = Some v.
Proof.
  induction d as [| [k' v'] d IH]; simpl; intros Hnd.
  - split; [contradiction | discriminate].
  - apply NoDup_cons in Hnd as [Hk' Hnd].
    destruct (decide (k' = k)) as [-> | Hne].
    + split.
      * intros [E | Hin]; [congruence |]. exfalso. apply Hk'.
        apply list_elem_of_In, in_map_iff. exists (k, v). auto.
      * intros E. left. congruence.
    + rewrite <- (IH Hnd). split; [intros [E | Hin]; [congruence | exact Hin] | auto].
Qed.

(** The sum of a counter over the values of a dictionary, after an
    assignment. *)
Lemma total_set (f : V -> Z) d k v :
  total (fun kv => f (snd kv)) (PyDict.set d k v)
  = total (fun kv => f (snd kv)) d + f v
    - match PyDict.get d k with Some old => f old | None => 0 end.
Proof.
  induction d as [| [k' v'] d IH]; simpl; [lia |].
  destruct (decide (k' = k)); simpl; [lia | rewrite IH; lia].
Qed.
End Dict.

Lemma keys_aggregate_step players gs :
  PyDict.keys (aggregate_step players gs)
  = if bool_decide (player_name gs ∈ PyDict.keys players) then PyDict.keys players
    else PyDict.keys players ++ [player_name gs].
Proof. unfold aggregate_step. apply keys_set. Qed.

Lemma keys_fold l :
  forall players,
    PyDict.keys (fold_left aggregate_step l players)
    = PyDict.keys players ++ first_appearances (PyDict.keys players) l.
Proof.
  assert (Hext : forall l seen seen',
             (forall x, x ∈ seen <-> x ∈ seen') ->
             first_appearances seen l = first_appearances seen' l).
  { clear. induction l as [| gs l IH]; intros seen seen' H; simpl; [reflexivity |].
    rewrite (bool_decide_ext _ _ (H (player_name gs))).
    destruct (bool_decide (player_name gs ∈ seen')); [apply IH, H |].
    f_equal. apply IH. intros x. rewrite !elem_of_cons, H. reflexivity. }
  induction l as [| gs l IH]; intros players; simpl.
  - rewrite app_nil_r. reflexivity.
  - rewrite IH, keys_aggregate_step.
    destruct (bool_decide (player_name gs ∈ PyDict.keys players)); [reflexivity |].
    rewrite <- app_assoc. simpl. do 2 f_equal.
    apply Hext. intros x. rewrite elem_of_app, list_elem_of_singleton, elem_of_cons.
    tauto.
Qed.

Lemma first_appearances_spec l :
  forall seen,
    NoDup (first_appearances seen l)
    /\ (forall x, x ∈ first_appearances seen l
                  <-> (x ∉ seen) /\ exists gs, In gs l /\ player_name gs = x)
    /\ (length (first_appearances seen l) <= length l)%nat.
Proof.
  induction l as [| gs l IH]; intros seen; simpl.
  - split; [constructor |]. split; [| lia].
    intros x. split; [intros H; apply elem_of_nil in H; contradiction |].
    intros [_ (gs & [] & _)].
  - destruct (bool_decide (player_name gs ∈ seen)) eqn:E.
    + apply bool_decide_eq_true in E.
      destruct (IH seen) as (Hnd & Hin & Hlen).
      split; [exact Hnd |]. split; [| lia].
      intros x. rewrite Hin. split.
      * intros [Hx (g & Hg & Hn)]. split; [exact Hx |]. exists g. auto.
      * intros [Hx (g & [<- | Hg] & Hn)]; [subst x; contradiction |].
        split; [exact Hx |]. exists g. auto.
    + apply bool_decide_eq_false in E.
      destruct (IH (player_name gs :: seen)) as (Hnd & Hin & Hlen).
      split.
      { constructor; [| exact Hnd]. intros H. apply Hin in H as [H _].
        apply H, elem_of_cons. auto. }
      split; [| simpl; lia].
      intros x. rewrite elem_of_cons, Hin. split.
      * intros [-> | [Hx (g & Hg & Hn)]].
        -- split; [exact E |]. exists gs. auto.
        -- split; [intros H; apply Hx, elem_of_cons; auto |]. exists g. auto.
      * intros [Hx (g & [<- | Hg] & Hn)]; [left; congruence |].
        destruct (decide (x = player_name gs)) as [-> | Hne]; [left; reflexivity |].
        right. split; [| exists g; auto].
        intros H. apply elem_of_cons in H as [H | H]; [contradiction | contradiction].
Qed.

(** A counter of the dictionary grows by the counter of the game. *)
Lemma total_aggregate_step (f : Totals.t -> Z) (g : GameStats -> Z) players gs :
  (forall p gs, f (add_game p gs) = f p + g gs) ->
  (forall gs, f (fresh_totals gs) = 0) ->
  total (fun kv => f (snd kv)) (aggregate_step players gs)
  = total (fun kv => f (snd kv)) players + g gs.
Proof.
  intros Hadd Hfresh. unfold aggregate_step. rewrite total_set.
  destruct (PyDict.get players (player_name gs)) as [p |]; rewrite Hadd, ?Hfresh; lia.
Qed.

Lemma total_fold (f : Totals.t -> Z) (g : GameStats -> Z) l :
  (forall p gs, f (add_game p gs) = f p + g gs) ->
  (forall gs, f (fresh_totals gs) = 0) ->
  forall players,
    total (fun kv => f (snd kv)) (fold_left aggregate_step l players)
    = total (fun kv => f (snd kv)) players + total g l.
Proof.
  intros Hadd Hfresh. induction l as [| gs l IH]; intros players; simpl; [lia |].
  rewrite IH, (total_aggregate_step f g players gs Hadd Hfresh). lia.
Qed.

Lemma counters_additive :
  Forall (fun fg => (forall p gs, fst fg (add_game p gs) = fst fg p + snd fg gs)
                    /\ (forall gs, fst fg (fresh_totals gs) = 0)) counters.
Proof. repeat constructor. Qed.

(** The entry of a player counts the player's games. *)
Lemma entry_counts games :
  forall p,
    Totals.games_played (fold_left add_game games p)
    = Totals.games_played p + Z.of_nat (length games)
    /\ Totals.wins p <= Totals.wins (fold_left add_game games p)
       <= Totals.wins p + Z.of_nat (length games)
    /\ Totals.ign (fold_left add_game games p) = Totals.ign p.
Proof.
  induction games as [| gs games IH]; intros p; [simpl; repeat split; lia |].
  cbn [fold_left]. destruct (IH (add_game p gs)) as (H1 & H2 & H3).
  rewrite H1, H3. cbn [add_game Totals.games_played Totals.wins Totals.ign] in *.
  cbn [length]. destruct (won gs); repeat split; lia.
Qed.

(** The names of the dictionary, in the order of their first record. *)
Lemma aggregate_keys (game_stats : list GameStats) :
  PyDict.keys (aggregate_player_stats game_stats) = first_appearances [] game_stats
  /\ NoDup (PyDict.keys (aggregate_player_stats game_stats)).
Proof.
  unfold aggregate_player_stats.
  pose proof (keys_fold game_stats []) as Hkeys. simpl in Hkeys.
  destruct (first_appearances_spec game_stats []) as (Hnd & _).
  split; [exact Hkeys | rewrite Hkeys; exact Hnd].
Qed.

(** One entry of the dictionary. *)
Lemma aggregate_entry (game_stats : list GameStats) (name : pyval) (t : Totals.t) :
  In (name, t) (aggregate_player_stats game_stats) ->
  PyDict.get (aggregate_player_stats game_stats) name = Some t
  /\ Totals.ign t = name
  /\ Totals.games_played t = Z.of_nat (length (games_of name game_stats))
  /\ 1 <= Totals.games_played t
  /\ 0 <= Totals.wins t <= Totals.games_played t.
Proof.
  intros Ht. destruct (aggregate_keys game_stats) as [_ Hnd].
  assert (Hget : PyDict.get (aggregate_player_stats game_stats) name = Some t).
  { apply get_Some_In; [exact Hnd | exact Ht]. }
  split; [exact Hget |].
  pose proof (AggregatorFacts.aggregate_lookup name game_stats) as Hl.
  rewrite Hget in Hl.
  destruct (games_of name game_stats) as [| first rest] eqn:Hgames; [discriminate |].
  injection Hl as ->.
  destruct (entry_counts (first :: rest) (fresh_totals first)) as (H1 & H2 & H3).
  cbn [fold_left] in H1, H2, H3. rewrite H1, H3.
  cbn [fresh_totals Totals.games_played Totals.wins Totals.ign] in *.
  assert (Hfirst : player_name first = name).
  { assert (first ∈ games_of name game_stats) as Hf by (rewrite Hgames; left).
    unfold games_of in Hf. apply list_elem_of_filter in Hf as [Hf _]. exact Hf. }
  cbn [length] in *. repeat split; try lia. exact Hfirst.
Qed.

(** X11. The dictionary of [aggregate_player_stats] has one entry for
    each player name of the input, in the order in which the names
    first appear. The entry of a name carries that name as its [ign],
    counts the games of the name, at least one, and its wins lie
    between zero and its games. There are no more entries than
    games. *)
Theorem aggregate_player_stats_entries (game_stats : list GameStats) :
  let players := aggregate_player_stats game_stats in
  PyDict.keys players = first_appearances [] game_stats
  /\ NoDup (PyDict.keys players)
  /\ (forall name, In name (PyDict.keys players)
                   <-> exists gs, In gs game_stats /\ player_name gs = name)
  /\ (forall name t,
        In (name, t) players ->
        PyDict.get players name = Some t
        /\ Totals.ign t = name
        /\ Totals.games_played t = Z.of_nat (length (games_of name game_stats))
        /\ 1 <= Totals.games_played t
        /\ 0 <= Totals.wins t <= Totals.games_played t)
  /\ (length players <= length game_stats)%nat.
Proof.
  intros players. subst players.
  destruct (aggregate_keys game_stats) as [Hkeys Hnd].
  destruct (first_appearances_spec game_stats []) as (_ & Hin & Hlen).
  split; [exact Hkeys |]. split; [exact Hnd |].
  split.
  { intros name. rewrite Hkeys, <- list_elem_of_In, Hin. split.
    - intros [_ H]. exact H.
    - intros H. split; [apply not_elem_of_nil | exact H]. }
  split; [intros name t; apply aggregate_entry |].
  rewrite <- (length_map fst (aggregate_player_stats game_stats)).
  change (map fst (aggregate_player_stats game_stats))
    with (PyDict.keys (aggregate_player_stats game_stats)).
  rewrite Hkeys. exact Hlen.
Qed.

(** X12. Nothing is lost or counted twice by [aggregate_player_stats]:
    summed over the players, the games played are the number of input
    records, the wins the number of records won, and the kills, deaths,
    assists, gold, creep score and damage the sums of those fields over
    the input. *)
Theorem aggregate_player_stats_conserves (game_stats : list GameStats) :
  Forall (fun fg => total (fun kv => fst fg (snd kv)) (aggregate_player_stats game_stats)
                    = total (snd fg) game_stats) counters
  /\ total (fun kv => Totals.games_played (snd kv)) (aggregate_player_stats game_stats)
     = Z.of_nat (length game_stats).
Proof.
  assert (H : Forall (fun fg => total (fun kv => fst fg (snd kv))
                                  (aggregate_player_stats game_stats)
                                = total (snd fg) game_stats) counters).
  { eapply Forall_impl; [apply counters_additive |].
    intros [f g] [Hadd Hfresh]. cbn [fst snd] in *.
    unfold aggregate_player_stats. rewrite (total_fold f g game_stats Hadd Hfresh).
    reflexivity. }
  split; [exact H |].
  inversion H as [| fg rest Hgames _]; subst. cbn [fst snd] in Hgames.
  rewrite Hgames. clear. induction game_stats as [| gs l IH]; [reflexivity |].
  cbn [total fold_right length]. unfold total in IH. rewrite IH. unfold one. lia.
Qed.

(** The two accumulations go in step, and no addition raises. *)
Lemma add_records_fold now games :
  forall p t,
    player_totals p = (integer_totals t, Some (Totals.total_minutes t)) ->
    exists p',
      add_records now p games = (Ok tt, p')
      /\ player_totals p'
         = (integer_totals (fold_left add_game games t),
            Some (Totals.total_minutes (fold_left add_game games t)))
      /\ Models.ign p' = Models.ign p
      /\ (games <> [] -> Models.last_updated p' = Some now).
Proof.
  induction games as [| gs games IH]; intros p t H.
  - exists p. split; [reflexivity |]. split; [exact H |]. split; [reflexivity |].
    intros Hne. contradiction.
  - cbn [add_records fold_left]. unfold add_record, ModelsOps.add_game.
    unfold player_totals, integer_totals in H.
    injection H as H1 H2 H3 H4 H5 H6 H7 H8 H9. rewrite H9.
    match goal with
    | |- context [add_records now ?q games] =>
        destruct (IH q (add_game t gs)) as (p' & Hrun & Htotals & Hign & Hlast)
    end.
    { unfold player_totals, integer_totals, add_game. simpl. congruence. }
    exists p'. split; [exact Hrun |]. split; [exact Htotals |].
    split; [rewrite Hign; reflexivity |].
    intros _. destruct games as [| gs' games].
    + cbn [add_records] in Hrun. injection Hrun as <-. reflexivity.
    + apply Hlast. discriminate.
Qed.

(** X13. [Player.add_game] and the aggregator keep the same books: the
    games of a player, added one by one in input order to a new
    [Player] object, never raise and leave the object with the numeric
    totals of the player's aggregated entry, the float total of the
    minutes included, and with the time of the last addition. *)
Theorem add_game_matches_aggregator
    (now : Models.datetime) (game_stats : list GameStats) (name : pyval) (t : Totals.t)
    (role team : pyval) :
  PyDict.get (aggregate_player_stats game_stats) name = Some t ->
  exists p,
    add_records now (ModelsOps.new_player name role team) (games_of name game_stats)
    = (Ok tt, p)
    /\ player_totals p = (integer_totals t, Some (Totals.total_minutes t))
    /\ Models.ign p = Totals.ign t
    /\ Models.last_updated p = Some now.
Proof.
  intros Hget.
  rewrite (AggregatorFacts.aggregate_lookup name game_stats) in Hget.
  destruct (games_of name game_stats) as [| first rest] eqn:Hgames; [discriminate |].
  assert (t = fold_left add_game (first :: rest) (fresh_totals first)) as -> by congruence.
  clear Hget.
  assert (Hfirst : player_name first = name).
  { assert (first ∈ games_of name game_stats) as Hf by (rewrite Hgames; left).
    unfold games_of in Hf. apply list_elem_of_filter in Hf as [Hf _]. exact Hf. }
  destruct (add_records_fold now (first :: rest) (ModelsOps.new_player name role team)
              (fresh_totals first) eq_refl) as (p & Hrun & Htotals & Hign & Hlast).
  exists p. split; [exact Hrun |]. split; [exact Htotals |].
  split; [| apply Hlast; discriminate].
  destruct (entry_counts (first :: rest) (fresh_totals first)) as (_ & _ & ->).
  rewrite Hign. cbn [fresh_totals Totals.ign ModelsOps.new_player Models.ign].
  symmetry. exact Hfirst.
Qed.

(** Faker's two games. *)
Lemma add_game_matches_aggregator_witness :
  exists p,
    add_records 100 (ModelsOps.new_player (PyStr "Faker") (PyStr "Mid") (PyStr "T1")) two_games
    = (Ok tt, p)
    /\ player_totals p = ([2; 1; 7; 6; 15; 0; 0; 0], Some Literals.float_58)
    /\ Models.ign p = PyStr "Faker"
    /\ Models.last_updated p = Some 100.
Proof.
  destruct (PyDict.get (aggregate_player_stats two_games) (PyStr "Faker")) as [t |] eqn:Hget;
    [| discriminate Hget].
  pose proof (add_game_matches_aggregator 100 two_games (PyStr "Faker") t
                (PyStr "Mid") (PyStr "T1") Hget) as H.
  injection Hget as <-. exact H.
Defined.
End TotalsFacts.

(** ** From the wiki to the table *)

Module PipelineFacts.
Import Py.
Import Leaguepedia.
Import LeaguepediaClient.
Import Repository.
Import PlayerService.
Import RepositoryNotions.
Import PipelineNotions.

Lemma binds_storable p : binds p = true <-> storable p.
Proof.
  unfold binds, storable. split.
  - intros H. apply andb_true_iff in H as [H Hints]. apply andb_true_iff in H as [Hi Hr].
    destruct (Models.ign p) as [| i]; [discriminate |].
    destruct (Models.role p) as [| r]; [discriminate |]. eauto.
  - intros ([i ->] & [r ->] & ->). reflexivity.
Qed.

(** Totals that do not bind are refused and leave the table alone. *)
Lemma upsert_unstorable t p d :
  binds p = false ->
  exists msg p', upsert t p d = ((false, Some msg), p', d).
Proof.
  unfold binds. intros H. unfold upsert, get_by_ign.
  destruct (Models.ign p) as [| s] eqn:Hign.
  { unfold add, bind_row. rewrite Hign. destruct (ints_bind p); simpl; eauto. }
  destruct (List.find (fun r => String.eqb (Row.ign r) s) (players d)) as [e |] eqn:Hfind;
    simpl.
  - unfold update. simpl Models.id.
    rewrite RepositoryFacts.ints_bind_set_id.
    destruct (ints_bind p) eqn:Hints; simpl; [| eauto].
    destruct (RepositoryFacts.find_named_Some s (players d) e Hfind) as [Hin _].
    rewrite (RepositoryFacts.existsb_keyed_In (Row.id e) (players d) e Hin eq_refl). simpl.
    rewrite RepositoryFacts.bind_row_set_id. unfold bind_row. rewrite Hign.
    destruct (Models.role p); [eauto | discriminate].
  - unfold add. destruct (ints_bind p) eqn:Hints; simpl; [| eauto].
    unfold bind_row. rewrite Hign.
    destruct (Models.role p); [eauto | discriminate].
Qed.

Lemma stored_id p rowid t : Models.id (stored p rowid t) = Some rowid.
Proof. reflexivity. Qed.

Section Saving.
Variable clock : nat -> Models.datetime.
Variable observed : bool.
Variable total_players : Z.

(** The saving loop on a table that satisfies its constraints, for
    entries under distinct names that carry their name as [ign]. *)
Lemma save_all_spec items :
  forall i imported_count c d,
    consistent d ->
    NoDup (map fst items) ->
    (forall name t, In (name, t) items -> Totals.ign t = name) ->
    exists c' d',
      save_all clock observed total_players items i imported_count c d
      = (imported_count
         + Z.of_nat (length (List.filter (fun kt => binds (player_of_totals (snd kt))) items)),
         c', d')
      /\ consistent d'
      /\ (forall name t,
            In (name, t) items -> binds (player_of_totals t) = true ->
            exists rowid time,
              get_by_ign d' name = Some (stored (player_of_totals t) rowid time))
      /\ (forall other, ~ In other (map fst items) ->
            get_by_ign d' other = get_by_ign d other)
      /\ (forall name e,
            get_by_ign d name = Some e ->
            exists e', get_by_ign d' name = Some e' /\ Models.id e' = Models.id e).
Proof.
  induction items as [| [name t] items IH]; intros i imported_count c d Hcons Hnd Hign.
  - exists c, d. simpl. split; [f_equal; f_equal; lia |]. split; [exact Hcons |].
    split; [intros ? ? [] |]. split; [reflexivity |]. eauto.
  - cbn [save_all].
    cbn [map fst] in Hnd. apply NoDup_cons in Hnd as [Hfresh Hnd].
    rewrite list_elem_of_In in Hfresh.
    assert (Hname : Models.ign (player_of_totals t) = name).
    { cbn [player_of_totals Models.ign]. apply Hign. left. reflexivity. }
    set (p := player_of_totals t) in *.
    assert (Hstep : exists success msg p' d1,
               upsert (clock i) p d = ((success, msg), p', d1)
               /\ success = binds p
               /\ consistent d1
               /\ (binds p = true ->
                   exists rowid, get_by_ign d1 name = Some (stored p rowid (clock i)))
               /\ (forall other, other <> name -> get_by_ign d1 other = get_by_ign d other)
               /\ (forall e, get_by_ign d name = Some e ->
                     exists e', get_by_ign d1 name = Some e' /\ Models.id e' = Models.id e)).
    { destruct (binds p) eqn:Hb.
      - apply binds_storable in Hb.
        destruct (get_by_ign d (Models.ign p)) as [existing |] eqn:Hget.
        + destruct (RepositoryFacts.upsert_replaces (clock i) p d existing Hcons Hb Hget)
            as (rowid & d1 & Hid & Hrun & Hnew & _ & _ & Hcons1 & Hother).
          rewrite Hname in *.
          exists true, None, (Models.set_id p (Some rowid)), d1.
          split; [exact Hrun |]. split; [reflexivity |]. split; [exact Hcons1 |].
          split; [eauto |]. split; [exact Hother |].
          intros e He. rewrite Hget in He. injection He as <-.
          exists (stored p rowid (clock i)). split; [exact Hnew | rewrite Hid; reflexivity].
        + destruct (RepositoryFacts.upsert_inserts (clock i) p d Hcons Hb Hget)
            as (rowid & r & Hrun & _ & Hnew & _ & Hcons1 & Hother).
          rewrite Hname in *.
          exists true, None, (Models.set_id p (Some rowid)),
                 {| players := players d ++ [r]; seq := rowid |}.
          split; [exact Hrun |]. split; [reflexivity |]. split; [exact Hcons1 |].
          split; [eauto |]. split; [exact Hother |].
          intros e He. rewrite Hget in He. discriminate He.
      - destruct (upsert_unstorable (clock i) p d Hb) as (msg & p' & Hrun).
        exists false, (Some msg), p', d.
        split; [exact Hrun |]. split; [reflexivity |]. split; [exact Hcons |].
        split; [discriminate |]. split; [reflexivity |]. eauto. }
    destruct Hstep as (success & msg & p' & d1 & Hrun & Hsucc & Hcons1 & Hnew & Hother & Hkeep).
    rewrite Hrun.
    destruct (IH (S i) (if success then imported_count + 1 else imported_count)
                 (notify (observed && ((Z.of_nat i + 1) mod 10 =? 0))
                         (Progress Saved (Z.of_nat i + 1) total_players) c)
                 d1 Hcons1 Hnd)
      as (c' & d' & Hrest & Hcons' & Hall & Hout & Hkeep').
    { intros name' t' Hin. apply Hign. right. exact Hin. }
    exists c', d'. split.
    { rewrite Hrest. f_equal. f_equal. cbn [List.filter snd]. fold p.
      rewrite Hsucc. destruct (binds p); cbn [length]; lia. }
    split; [exact Hcons' |]. split.
    { intros name' t' [E | Hin] Hb.
      - injection E as <- <-. fold p in Hb. destruct (Hnew Hb) as [rowid Hrow].
        exists rowid, (clock i). rewrite (Hout name Hfresh). exact Hrow.
      - apply (Hall name' t' Hin Hb). }
    split.
    { intros other Hout'. cbn [map fst] in Hout'.
      rewrite Hout by (intros H; apply Hout'; right; exact H).
      apply Hother. intros ->. apply Hout'. left. reflexivity. }
    intros name' e He.
    destruct (decide (name' = name)) as [-> | Hne].
    + destruct (Hkeep e He) as (e1 & He1 & Hid1).
      destruct (Hkeep' name e1 He1) as (e' & He' & Hid'). exists e'. split; [exact He' |].
      congruence.
    + apply Hkeep'. rewrite (Hother name' Hne). exact He.
Qed.

Lemma save_all_count items :
  forall i imported_count c d,
    imported_count
    <= fst (fst (save_all clock observed total_players items i imported_count c d))
    <= imported_count + Z.of_nat (length items).
Proof.
  induction items as [| [name t] items IH]; intros i imported_count c d.
  - simpl. lia.
  - cbn [save_all].
    destruct (upsert (clock i) (player_of_totals t) d) as [[[success msg] p'] d1].
    specialize (IH (S i) (if success then imported_count + 1 else imported_count)
                   (notify (observed && ((Z.of_nat i + 1) mod 10 =? 0))
                           (Progress Saved (Z.of_nat i + 1) total_players) c) d1).
    cbn [length]. destruct success; lia.
Qed.
End Saving.

Section Fetching.
Variable float_of_string : string -> option float.
Variable server : nat -> request -> http_outcome.

Lemma normalize_rows_named (results : list row) :
  Forall (fun gs => truthy (player_name gs) = true) (normalize_rows float_of_string results)
  /\ (length (normalize_rows float_of_string results) <= length results)%nat.
Proof.
  unfold normalize_rows. rewrite (NormalizerFacts.fold_normalize_step float_of_string).
  cbn [app]. split.
  - apply List.Forall_forall. intros gs Hgs.
    apply in_map_iff in Hgs as (r & <- & Hr). apply filter_In in Hr as [_ Hr].
    unfold NormalizerNotions.accepted in Hr. apply andb_true_iff in Hr as [_ Hr].
    cbn [NormalizerNotions.stats_of player_name]. exact Hr.
  - rewrite length_map. apply List.filter_length_le.
Qed.

Lemma cargo_query_all_capped_rows q progress_callback c rows :
  fst (_cargo_query_all server q progress_callback c) = Ok rows ->
  Z.of_nat (length rows) <= 2500.
Proof.
  unfold _cargo_query_all, bind.
  pose proof (PaginatorFacts.query_all_loop_capped server q progress_callback 5 [] 0 c) as H.
  destruct (query_all_loop server 5 q progress_callback [] 0 c) as [[[found |] | e] c1];
    cbn [fst ret] in *.
  - intros E. injection E as <-. apply (H found eq_refl).
  - intros E. injection E as <-. simpl. lia.
  - discriminate.
Qed.

Lemma fetch_named tournament_filter year progress_callback c game_stats :
  fst (fetch_player_game_stats float_of_string server tournament_filter year
         progress_callback c) = Ok game_stats ->
  Forall (fun gs => truthy (player_name gs) = true) game_stats
  /\ Z.of_nat (length game_stats) <= 2500.
Proof.
  unfold fetch_player_game_stats.
  destruct (where_clause tournament_filter year) as [w | e]; [| discriminate].
  unfold bind.
  pose proof (cargo_query_all_capped_rows (scoreboard_query w) progress_callback c) as Hcap.
  destruct (_cargo_query_all server (scoreboard_query w) progress_callback c)
    as [[results | e] c1]; cbn [fst ret] in *; [| discriminate].
  intros E. injection E as <-.
  destruct (normalize_rows_named results) as [Hn Hl].
  split; [exact Hn |]. specialize (Hcap results eq_refl). lia.
Qed.
End Fetching.

(** X14. What [fetch_player_game_stats] returns: every record carries a
    truthy player name, so that no record is without a name or has the
    empty one, and there are at most 2500 records, whatever the rows
    are and whatever the observer does. *)
Theorem fetch_player_game_stats_named
    (float_of_string : string -> option float)
    (server : nat -> request -> http_outcome) (tournament_filter year : string)
    (progress_callback : option (Z -> M unit)) (c : client) :
  match fst (fetch_player_game_stats float_of_string server tournament_filter year
               progress_callback c) with
  | Ok game_stats =>
      Forall (fun gs => truthy (player_name gs) = true) game_stats
      /\ Z.of_nat (length game_stats) <= 2500
  | Raise _ => True
  end.
Proof.
  pose proof (fetch_named float_of_string server tournament_filter year progress_callback c)
    as H.
  destruct (fst (fetch_player_game_stats float_of_string server tournament_filter year
                   progress_callback c)) as [game_stats | e]; [| exact I].
  apply H. reflexivity.
Qed.

(** X15. The counts an import reports: never more players than games,
    never more than 2500 games; without an error message there is at
    least one game, and with one both counts are zero. *)
Theorem import_counts_bounded
    (float_of_string : string -> option float)
    (server : nat -> request -> http_outcome) (clock : nat -> Models.datetime)
    (tournament year : string) (observed : bool) (s : service) :
  let '(players_imported, games_processed, error_message) :=
    fst (import_from_leaguepedia float_of_string server clock tournament year observed s) in
  0 <= players_imported <= games_processed
  /\ games_processed <= 2500
  /\ (error_message = None -> 1 <= games_processed)
  /\ (error_message <> None -> players_imported = 0 /\ games_processed = 0).
Proof.
  unfold import_from_leaguepedia.
  pose proof (fetch_named float_of_string server tournament year
                (Some (api_progress observed))
                (notify observed (Progress Fetching 0 0) (api_client s))) as Hfetch.
  unfold fetch_stage.
  destruct (fetch_player_game_stats float_of_string server tournament year
              (Some (api_progress observed))
              (notify observed (Progress Fetching 0 0) (api_client s)))
    as [[game_stats | e] c2]; cbn [fst] in *.
  2:{ unfold failure_outcome. destruct (contains _ _); cbn [fst];
        (split; [lia |]; split; [lia |]; split; [discriminate | auto]). }
  destruct (Hfetch game_stats eq_refl) as [_ Hcap].
  destruct (Z.of_nat (length game_stats) =? 0) eqn:Hzero; cbn [fst].
  { split; [lia |]. split; [lia |]. split; [discriminate | auto]. }
  apply Z.eqb_neq in Hzero.
  set (players := aggregate_player_stats game_stats).
  pose proof (save_all_count clock observed (Z.of_nat (length players)) players 0 0
                (notify observed (Progress Saving 0 (Z.of_nat (length players)))
                   (notify observed (Progress Aggregating 0 (Z.of_nat (length game_stats))) c2))
                (repo s)) as Hcount.
  destruct (save_all clock observed _ players 0 0 _ (repo s)) as [[imported_count c5] d].
  cbn [fst] in *.
  destruct (TotalsFacts.first_appearances_spec game_stats []) as (_ & _ & Hlen).
  pose proof (TotalsFacts.keys_fold game_stats []) as Hkeys. simpl in Hkeys.
  assert (length players <= length game_stats)%nat as Hplayers.
  { unfold players, aggregate_player_stats.
    rewrite <- (length_map fst (fold_left aggregate_step game_stats [])).
    change (map fst (fold_left aggregate_step game_stats []))
      with (PyDict.keys (fold_left aggregate_step game_stats [])).
    rewrite Hkeys. exact Hlen. }
  split; [lia |]. split; [lia |]. split; [lia |]. intros H. contradiction.
Qed.

(** X16. An import on a table that satisfies its constraints. When the
    fetch yields game records, the import reports as imported the
    number of aggregated players that bind, as processed the number of
    records, and no error. Each aggregated player that binds is then
    found under its name with its aggregated totals, the minutes as
    the [REAL] column keeps them (a total that is NaN comes back as
    [None]); a player that does not bind (a [null] role, a number
    beyond 64 bits) is left out without an error being reported. The rows of names that do not
    occur in the import are as before, no stored name is lost or
    changes its key, and the constraints still hold. *)
Theorem import_stores_totals
    (float_of_string : string -> option float)
    (server : nat -> request -> http_outcome) (clock : nat -> Models.datetime)
    (tournament year : string) (observed : bool) (s : service)
    (game_stats : list GameStats) :
  consistent (repo s) ->
  fst (fetch_stage float_of_string server tournament year observed s) = Ok game_stats ->
  game_stats <> [] ->
  let result := import_from_leaguepedia float_of_string server clock tournament year
                  observed s in
  let players := aggregate_player_stats game_stats in
  fst result
  = (Z.of_nat (length (List.filter (fun kt => binds (player_of_totals (snd kt))) players)),
     Z.of_nat (length game_stats), None)
  /\ consistent (repo (snd result))
  /\ (forall name t,
        In (name, t) players -> binds (player_of_totals t) = true ->
        exists rowid time,
          get_by_ign (repo (snd result)) name
          = Some (stored (player_of_totals t) rowid time))
  /\ (forall other, ~ In other (PyDict.keys players) ->
        get_by_ign (repo (snd result)) other = get_by_ign (repo s) other)
  /\ (forall name e,
        get_by_ign (repo s) name = Some e ->
        exists e', get_by_ign (repo (snd result)) name = Some e'
                   /\ Models.id e' = Models.id e).
Proof.
  intros Hcons Hfetch Hne result players. subst result.
  unfold import_from_leaguepedia.
  destruct (fetch_stage float_of_string server tournament year observed s)
    as [fetched c2]. cbn [fst] in Hfetch. subst fetched.
  destruct (Z.of_nat (length game_stats) =? 0) eqn:Hzero.
  { apply Z.eqb_eq in Hzero. destruct game_stats; [contradiction | discriminate]. }
  fold players.
  destruct (TotalsFacts.aggregate_keys game_stats) as [_ Hnd].
  pose proof (TotalsFacts.aggregate_entry game_stats) as Hentries.
  fold players in Hnd, Hentries.
  destruct (save_all_spec clock observed (Z.of_nat (length players)) players 0 0
              (notify observed (Progress Saving 0 (Z.of_nat (length players)))
                 (notify observed (Progress Aggregating 0 (Z.of_nat (length game_stats))) c2))
              (repo s) Hcons Hnd)
    as (c5 & d & Hrun & Hcons' & Hall & Hout & Hkeep).
  { intros name t Hin. apply (Hentries name t Hin). }
  rewrite Hrun. cbn [fst snd repo]. rewrite Z.add_0_l.
  split; [reflexivity |]. split; [exact Hcons' |]. split; [exact Hall |].
  split; [exact Hout | exact Hkeep].
Qed.

(** Two games of Faker's and one of a player without a role, imported
    into an empty table: Faker is stored under key 1 with the totals of
    the two games; the other player is left out, and no error is
    reported. *)
Lemma import_stores_totals_witness :
  let result := import_from_leaguepedia NormalizerNotions.decimal_float_of_string
                  (rows_wiki three_rows) (fun _ => 100) "LCK" "2025" false
                  ImportNotions.fresh_service in
  fst result = (1, 3, None)
  /\ (exists p, get_by_ign (repo (snd result)) (PyStr "Faker") = Some p
                /\ Models.id p = Some 1
                /\ Models.games_played p = 2 /\ Models.wins p = 1
                /\ Models.kills p = 7 /\ Models.deaths p = 6 /\ Models.assists p = 15)
  /\ get_by_ign (repo (snd result)) (PyStr "Ghost") = None
  /\ get_by_ign (repo (snd result)) (PyStr "Chovy") = None.
Proof.
  intros result.
  destruct (import_stores_totals NormalizerNotions.decimal_float_of_string
              (rows_wiki three_rows) (fun _ => 100) "LCK" "2025" false
              ImportNotions.fresh_service
              (normalize_rows NormalizerNotions.decimal_float_of_string three_rows))
    as (Hcount & _ & _ & Hother & _).
  - split; constructor.
  - vm_compute. reflexivity.
  - vm_compute. discriminate.
  - fold result in Hcount, Hother.
    split; [rewrite Hcount; vm_compute; reflexivity |].
    split; [eexists; split; [vm_compute; reflexivity | vm_compute; repeat split] |].
    split; [vm_compute; reflexivity |].
    rewrite Hother; [reflexivity |]. vm_compute.
    intros [H | [H | []]]; discriminate H.
Defined.
End PipelineFacts.

(** ** The table under every operation of the repository *)

Module CrudFacts.
Import Py.
Import Models.
Import Repository.
Import RepositoryCrud.
Import RepositoryNotions.
Import CrudNotions.

Lemma consistent_empty : consistent empty_db /\ sequenced empty_db.
Proof. split; [split; constructor | intros r []]. Qed.

(** The ways in which [add] can end. *)
Lemma add_cases now p d :
  (exists msg, add now p d = ((false, Some msg), p, d))
  \/ (exists r,
        ints_bind p = true
        /\ bind_row p (Z.max (seq d) (max_rowid (players d)) + 1) now = inr r
        /\ existsb (fun r' => String.eqb (Row.ign r') (Row.ign r)) (players d) = false
        /\ add now p d
           = ((true, None), set_id p (Some (Z.max (seq d) (max_rowid (players d)) + 1)),
              {| players := players d ++ [r];
                 seq := Z.max (seq d) (max_rowid (players d)) + 1 |})).
Proof.
  unfold add. destruct (ints_bind p) eqn:Hints; simpl; [| eauto].
  destruct (bind_row p _ now) as [msg | r] eqn:Hbind; [eauto |].
  destruct (existsb _ (players d)) eqn:Hex; [eauto |].
  right. exists r. auto.
Qed.

(** The ways in which [update] can end. *)
Lemma update_cases now p d :
  (exists msg, update now p d = ((false, Some msg), p, d))
  \/ update now p d = ((true, None), p, d)
  \/ (exists rowid r,
        Models.id p = Some rowid
        /\ bind_row p rowid now = inr r
        /\ existsb (fun r' => negb (Row.id r' =? rowid)
                              && String.eqb (Row.ign r') (Row.ign r)) (players d) = false
        /\ update now p d
           = ((true, None), p,
              {| players := map (replace_row rowid r) (players d); seq := seq d |})).
Proof.
  unfold update. destruct (Models.id p) as [rowid |]; [| eauto].
  destruct (ints_bind p); simpl; [| eauto].
  destruct (existsb (fun r' => Row.id r' =? rowid) (players d)); simpl; [| auto].
  destruct (bind_row p rowid now) as [msg | r] eqn:Hbind; [eauto |].
  destruct (existsb _ (players d)) eqn:Hex; [eauto |].
  right. right. exists rowid, r. auto.
Qed.

Lemma NoDup_map_filter {A B : Type} (f : A -> B) (P : A -> bool) (l : list A) :
  NoDup (map f l) -> NoDup (map f (List.filter P l)).
Proof.
  induction l as [| x l IH]; simpl; intros H; [constructor |].
  apply NoDup_cons in H as [Hx H].
  destruct (P x); simpl; [| apply IH, H].
  apply NoDup_cons. split; [| apply IH, H].
  intros Hin. apply Hx. apply list_elem_of_In, in_map_iff in Hin as (y & Hy & Hin).
  apply filter_In in Hin as [Hin _].
  apply list_elem_of_In, in_map_iff. exists y. auto.
Qed.

(** Replacing the row of a key by a row whose name no other row bears
    keeps the names distinct. *)
Lemma NoDup_ign_replace rowid r l :
  Row.id r = rowid ->
  NoDup (map Row.id l) -> NoDup (map Row.ign l) ->
  existsb (fun r' => negb (Row.id r' =? rowid) && String.eqb (Row.ign r') (Row.ign r)) l
  = false ->
  NoDup (map Row.ign (map (replace_row rowid r) l)).
Proof.
  intros Hid. induction l as [| x l IH]; simpl; intros Hids Higns Hclash; [constructor |].
  apply NoDup_cons in Hids as [Hxid Hids]. apply NoDup_cons in Higns as [Hxign Higns].
  apply orb_false_iff in Hclash as [Hx Hclash].
  assert (Hfree : forall y, In y l -> Row.id y <> rowid -> Row.ign y <> Row.ign r).
  { intros y Hy Hne E.
    assert (existsb (fun r' => negb (Row.id r' =? rowid)
                               && String.eqb (Row.ign r') (Row.ign r)) l = true) as Hc.
    { apply existsb_exists. exists y. split; [exact Hy |].
      apply andb_true_iff. split; [apply negb_true_iff, Z.eqb_neq, Hne |].
      apply String.eqb_eq, E. }
    congruence. }
  apply NoDup_cons. split; [| apply IH; assumption].
  intros Hin. apply list_elem_of_In, in_map_iff in Hin as (y' & Hy' & Hin).
  apply in_map_iff in Hin as (y & <- & Hy).
  unfold replace_row in *.
  destruct (Z.eqb_spec (Row.id x) rowid) as [Ex | Ex];
    destruct (Z.eqb_spec (Row.id y) rowid) as [Ey | Ey].
  - apply Hxid. apply list_elem_of_In, in_map_iff. exists y. split; [congruence | exact Hy].
  - apply (Hfree y Hy Ey). exact Hy'.
  - simpl in Hx. apply String.eqb_neq in Hx. congruence.
  - apply Hxign. apply list_elem_of_In, in_map_iff. exists y. auto.
Qed.

Lemma bind_row_id p rowid now r : bind_row p rowid now = inr r -> Row.id r = rowid.
Proof.
  unfold bind_row. destruct (Models.ign p); [discriminate |].
  destruct (Models.role p); [discriminate |]. intros E. injection E as <-. reflexivity.
Qed.

Lemma bind_row_any p rowid now r rowid' now' :
  bind_row p rowid now = inr r ->
  exists r', bind_row p rowid' now' = inr r' /\ Row.ign r' = Row.ign r.
Proof.
  unfold bind_row. destruct (Models.ign p); [discriminate |].
  destruct (Models.role p); [discriminate |]. intros E. injection E as <-.
  eexists. split; reflexivity.
Qed.

Lemma max_rowid_above l r : In r l -> Row.id r <= max_rowid l.
Proof.
  induction l as [| x l IH]; simpl; [intros [] |].
  intros [-> | H]; [lia | specialize (IH H); lia].
Qed.

(** Every write keeps the constraints of the schema, keeps the keys
    below the counter, and never lowers the counter. *)
Lemma apply_invariants o d :
  consistent d -> sequenced d ->
  consistent (apply o d) /\ sequenced (apply o d) /\ seq d <= seq (apply o d).
Proof.
  intros Hcons Hseq.
  assert (Hadd : forall now p,
             consistent (snd (add now p d)) /\ sequenced (snd (add now p d))
             /\ seq d <= seq (snd (add now p d))).
  { intros now p. destruct (add_cases now p d) as [[msg ->] | (r & _ & Hbind & Hfree & ->)].
    - simpl. split; [exact Hcons |]. split; [exact Hseq | lia].
    - cbn [snd seq players]. pose proof (bind_row_id _ _ _ _ Hbind) as Hid.
      split; [| split; [| lia]].
      + destruct Hcons as [Hids Higns]. split; cbn [players]; rewrite map_app; simpl.
        * apply NoDup_app. split; [exact Hids |]. split; [| apply NoDup_singleton].
          intros x Hx Hx'. apply list_elem_of_singleton in Hx'. subst x.
          apply list_elem_of_In, in_map_iff in Hx as (r' & Hr' & Hin).
          pose proof (max_rowid_above _ _ Hin). lia.
        * apply NoDup_app. split; [exact Higns |]. split; [| apply NoDup_singleton].
          intros x Hx Hx'. apply list_elem_of_singleton in Hx'. subst x.
          apply list_elem_of_In, in_map_iff in Hx as (r' & Hr' & Hin).
          assert (existsb (fun r0 => String.eqb (Row.ign r0) (Row.ign r)) (players d) = true)
            as Hex.
          { apply existsb_exists. exists r'. split; [exact Hin |]. apply String.eqb_eq, Hr'. }
          congruence.
      + intros r' Hin. cbn [seq players] in *.
        apply in_app_or in Hin as [Hin | [<- | []]].
        * pose proof (max_rowid_above _ _ Hin). lia.
        * lia. }
  assert (Hupdate : forall now p,
             consistent (snd (update now p d)) /\ sequenced (snd (update now p d))
             /\ seq d <= seq (snd (update now p d))).
  { intros now p.
    destruct (update_cases now p d)
      as [[msg ->] | [-> | (rowid & r & _ & Hbind & Hclash & ->)]];
      cbn [snd seq players];
      try (split; [exact Hcons |]; split; [exact Hseq | lia]).
    pose proof (bind_row_id _ _ _ _ Hbind) as Hid.
    split; [| split; [| lia]].
    - destruct Hcons as [Hids Higns]. split; cbn [players].
      + rewrite (RepositoryFacts.map_id_replace rowid r (players d) Hid). exact Hids.
      + apply (NoDup_ign_replace rowid r (players d) Hid Hids Higns Hclash).
    - intros r' Hin. cbn [seq players] in *. apply in_map_iff in Hin as (y & <- & Hy).
      specialize (Hseq y Hy). unfold replace_row.
      destruct (Z.eqb_spec (Row.id y) rowid); [lia | exact Hseq]. }
  destruct o as [now p | now p | now p | k |]; cbn [apply].
  - apply Hadd.
  - apply Hupdate.
  - unfold upsert. destruct (get_by_ign d (Models.ign p)) as [existing |];
      [apply Hupdate | apply Hadd].
  - unfold delete. destruct (bind_int k) as [key | e]; cbn [snd seq players].
    2:{ split; [exact Hcons |]. split; [exact Hseq | lia]. }
    split; [| split; [| lia]].
    + destruct Hcons as [Hids Higns]. split; cbn [players]; apply NoDup_map_filter; assumption.
    + intros r Hin. cbn [seq players] in *. apply filter_In in Hin as [Hin _].
      apply Hseq, Hin.
  - cbn [clear_all snd seq players]. split; [split; constructor |].
    split; [intros r [] | lia].
Qed.

Lemma history_app before after d :
  history (before ++ after) d = history after (history before d).
Proof. unfold history. apply fold_left_app. Qed.

(** What every write keeps, every run of writes keeps. *)
Lemma history_preserves (P : db -> Prop) :
  (forall o d, P d -> P (apply o d)) ->
  forall ops d, P d -> P (history ops d).
Proof.
  intros Hstep ops. induction ops as [| o ops IH]; intros d Hd; [exact Hd |].
  cbn [history fold_left]. apply IH, Hstep, Hd.
Qed.

(** A key of the table stays at or below the counter of every later
    moment. *)
Lemma keys_below_counter (before after : list op) (d : db) (r : Row.t) :
  consistent d -> sequenced d ->
  In r (players (history before d)) ->
  Row.id r <= seq (history after (history before d)).
Proof.
  intros Hcons Hseq Hin.
  assert (Hstep : forall start o d',
             consistent d' /\ sequenced d' /\ seq start <= seq d' ->
             consistent (apply o d') /\ sequenced (apply o d')
             /\ seq start <= seq (apply o d')).
  { intros start o d' (Hc & Hs & Hm).
    destruct (apply_invariants o d' Hc Hs) as (Hc' & Hs' & Hm').
    split; [exact Hc' |]. split; [exact Hs' | lia]. }
  destruct (history_preserves
              (fun d' => consistent d' /\ sequenced d' /\ seq d <= seq d')
              (Hstep d) before d) as (Hc1 & Hs1 & _).
  { split; [exact Hcons |]. split; [exact Hseq | lia]. }
  destruct (history_preserves
              (fun d' => consistent d' /\ sequenced d'
                         /\ seq (history before d) <= seq d')
              (Hstep (history before d)) after (history before d)) as (_ & _ & Hm).
  { split; [exact Hc1 |]. split; [exact Hs1 | lia]. }
  specialize (Hs1 r Hin). lia.
Qed.

Lemma find_None_existsb {A : Type} (f : A -> bool) (l : list A) :
  existsb f l = false -> List.find f l = None.
Proof.
  induction l as [| x l IH]; simpl; [reflexivity |].
  destruct (f x); [discriminate | exact IH].
Qed.

Lemma find_above rowid l :
  (forall r, In r l -> Row.id r < rowid) ->
  List.find (fun r => Row.id r =? rowid) l = None.
Proof.
  intros H. apply find_None_existsb.
  destruct (existsb _ l) eqn:E; [| reflexivity].
  apply existsb_exists in E as (r & Hin & Hr). apply Z.eqb_eq in Hr.
  specialize (H r Hin). lia.
Qed.

(** X17. Every write of the repository ([add], [update], [upsert],
    [delete], [clear_all]), whatever its arguments and whether it
    succeeds or not, keeps the constraints of the schema (keys and
    names are unique), keeps every key at or below the
    [AUTOINCREMENT] counter, and never lowers the counter; so does
    every run of writes. *)
Theorem history_keeps_constraints (ops : list op) (d : db) :
  consistent d -> sequenced d ->
  consistent (history ops d) /\ sequenced (history ops d) /\ seq d <= seq (history ops d).
Proof.
  intros Hcons Hseq.
  apply (history_preserves
           (fun d' => consistent d' /\ sequenced d' /\ seq d <= seq d')).
  - intros o d' (Hc & Hs & Hm).
    destruct (apply_invariants o d' Hc Hs) as (Hc' & Hs' & Hm').
    split; [exact Hc' |]. split; [exact Hs' | lia].
  - split; [exact Hcons |]. split; [exact Hseq | lia].
Qed.

(** Two players added to the empty table, the second under the name of
    the first, an update and a deletion. *)
Lemma history_keeps_constraints_witness :
  let ops := [ Add 100 (named "Faker" "Mid"); Add 200 (named "Faker" "Top");
               Upsert 300 (named "Chovy" "Mid");
               Update 400 (set_id (named "Faker" "Mid") (Some 2));
               Delete 1 ] in
  consistent (history ops empty_db) /\ sequenced (history ops empty_db)
  /\ seq empty_db <= seq (history ops empty_db).
Proof.
  intros ops. apply (history_keeps_constraints ops empty_db); apply consistent_empty.
Defined.

(** X18. Keys are never used twice. On a table whose keys are at or below
    the counter, a key that [add] assigns after any run of writes is
    above every key that was in the table at any earlier moment,
    deleted or not. *)
Theorem ids_never_reused
    (before after : list op) (d : db) (now : datetime) (player : Player) (r : Row.t) :
  consistent d -> sequenced d ->
  In r (players (history before d)) ->
  fst (fst (add now player (history (before ++ after) d))) = (true, None) ->
  exists rowid,
    snd (fst (add now player (history (before ++ after) d))) = set_id player (Some rowid)
    /\ Row.id r < rowid.
Proof.
  intros Hcons Hseq Hin Hok. rewrite history_app in *.
  pose proof (keys_below_counter before after d r Hcons Hseq Hin) as Hbelow.
  destruct (add_cases now player (history after (history before d)))
    as [[msg E] | (row & _ & _ & _ & E)]; rewrite E in *; [discriminate Hok |].
  eexists. split; [reflexivity |]. lia.
Qed.

(** Faker is added with key 1 and deleted, the table is cleared; the
    next player gets key 2. *)
Lemma ids_never_reused_witness :
  exists rowid,
    snd (fst (add 300 (named "Chovy" "Mid")
                (history ([Add 100 (named "Faker" "Mid")] ++ [Delete 1; ClearAll]) empty_db)))
    = set_id (named "Chovy" "Mid") (Some rowid)
    /\ 1 < rowid.
Proof.
  destruct (bind_row (named "Faker" "Mid") 1 100) as [msg | r] eqn:Hbind;
    [discriminate Hbind |].
  destruct (ids_never_reused [Add 100 (named "Faker" "Mid")] [Delete 1; ClearAll]
              empty_db 300 (named "Chovy" "Mid") r) as (rowid & Hrow & Hlt).
  - apply consistent_empty.
  - apply consistent_empty.
  - injection Hbind as <-. left. reflexivity.
  - reflexivity.
  - exists rowid. split; [exact Hrow |]. injection Hbind as <-. exact Hlt.
Defined.

(** X19. What a successful [add] leaves. The player object gets a key
    above every key of the table and above the counter; the player is
    then found under its name and under its key, with the fields that
    were passed, the minutes as the [REAL] column keeps them (NaN
    comes back as [None], a negative zero as 0.0), and with the time of
    the insertion; there is one row more,
    and the rows of the other names are as before. A second [add] of
    the same player is refused with the message of the [UNIQUE]
    constraint and changes nothing. *)
Theorem add_then_get (now : datetime) (player player' : Player) (d d' : db) :
  add now player d = ((true, None), player', d') ->
  exists rowid,
    player' = set_id player (Some rowid)
    /\ seq d < rowid
    /\ (forall r, In r (players d) -> Row.id r < rowid)
    /\ get_by_ign d' (Models.ign player) = Some (stored player rowid now)
    /\ (fits_int64 rowid = true -> get_by_id d' rowid = Ok (Some (stored player rowid now)))
    /\ count d' = count d + 1
    /\ (forall name, name <> Models.ign player -> get_by_ign d' name = get_by_ign d name)
    /\ (forall later,
          add later player d'
          = ((false, Some "UNIQUE constraint failed: players.ign"), player, d')).
Proof.
  intros Hadd.
  destruct (add_cases now player d) as [[msg E] | (r & Hints & Hbind & Hfree & E)];
    rewrite E in Hadd; [discriminate Hadd |].
  injection Hadd as <- <-.
  set (rowid := Z.max (seq d) (max_rowid (players d)) + 1) in *.
  destruct (RepositoryFacts.bind_row_fields player rowid now r Hbind) as (Hid & Hign & Hread).
  assert (Habove : forall r', In r' (players d) -> Row.id r' < rowid).
  { intros r' Hin. pose proof (max_rowid_above _ _ Hin). unfold rowid. lia. }
  exists rowid. split; [reflexivity |]. split; [unfold rowid; lia |].
  split; [exact Habove |]. split.
  { unfold get_by_ign. rewrite Hign. cbn [players].
    rewrite RepositoryFacts.find_app_named, (find_None_existsb _ _ Hfree). simpl.
    rewrite String.eqb_refl. simpl. rewrite Hread. reflexivity. }
  split.
  { intros Hfits. unfold get_by_id, bind_int. rewrite Hfits. cbn [res_bind players].
    rewrite RepositoryFacts.find_app_named, (find_above rowid _ Habove). simpl.
    rewrite Hid, Z.eqb_refl. simpl. rewrite Hread. reflexivity. }
  split.
  { unfold count. cbn [players]. rewrite length_app. simpl. lia. }
  split.
  { intros name Hname. unfold get_by_ign. destruct name as [| o]; [reflexivity |].
    cbn [players]. rewrite RepositoryFacts.find_app_named.
    destruct (List.find _ (players d)); [reflexivity |]. simpl.
    destruct (String.eqb_spec (Row.ign r) o) as [Eq | _]; [| reflexivity].
    exfalso. apply Hname. congruence. }
  intros later. unfold add. rewrite Hints. cbn [negb].
  destruct (bind_row_any player rowid now r
              (Z.max (seq {| players := players d ++ [r]; seq := rowid |})
                     (max_rowid (players {| players := players d ++ [r]; seq := rowid |})) + 1)
              later Hbind) as (r2 & -> & Hign2).
  rewrite Hign2. cbn [players]. rewrite existsb_app. simpl.
  rewrite String.eqb_refl, orb_true_r. reflexivity.
Qed.

(** Faker, added to the empty table at time 100. *)
Lemma add_then_get_witness :
  exists rowid,
    set_id (named "Faker" "Mid") (Some 1) = set_id (named "Faker" "Mid") (Some rowid)
    /\ seq empty_db < rowid
    /\ (forall r, In r (players empty_db) -> Row.id r < rowid)
    /\ get_by_ign (snd (add 100 (named "Faker" "Mid") empty_db)) (PyStr "Faker")
       = Some (stored (named "Faker" "Mid") rowid 100)
    /\ (fits_int64 rowid = true ->
        get_by_id (snd (add 100 (named "Faker" "Mid") empty_db)) rowid
        = Ok (Some (stored (named "Faker" "Mid") rowid 100)))
    /\ count (snd (add 100 (named "Faker" "Mid") empty_db)) = count empty_db + 1
    /\ (forall name, name <> PyStr "Faker" ->
          get_by_ign (snd (add 100 (named "Faker" "Mid") empty_db)) name
          = get_by_ign empty_db name)
    /\ (forall later,
          add later (named "Faker" "Mid") (snd (add 100 (named "Faker" "Mid") empty_db))
          = ((false, Some "UNIQUE constraint failed: players.ign"), named "Faker" "Mid",
             snd (add 100 (named "Faker" "Mid") empty_db))).
Proof.
  apply (add_then_get 100 (named "Faker" "Mid") (set_id (named "Faker" "Mid") (Some 1))
           empty_db (snd (add 100 (named "Faker" "Mid") empty_db))).
  reflexivity.
Defined.


Lemma find_filter_other (k k' : Z) l :
  k' <> k ->
  List.find (fun r => Row.id r =? k') (List.filter (fun r => negb (Row.id r =? k)) l)
  = List.find (fun r => Row.id r =? k') l.
Proof.
  intros Hne. induction l as [| x l IH]; simpl; [reflexivity |].
  destruct (Z.eqb_spec (Row.id x) k) as [Ex | Ex]; simpl.
  - destruct (Z.eqb_spec (Row.id x) k'); [congruence | exact IH].
  - destruct (Row.id x =? k'); [reflexivity | exact IH].
Qed.

Lemma find_filter_self (k : Z) l :
  List.find (fun r => Row.id r =? k) (List.filter (fun r => negb (Row.id r =? k)) l) = None.
Proof.
  induction l as [| x l IH]; simpl; [reflexivity |].
  destruct (Row.id x =? k) eqn:E; simpl; [exact IH | rewrite E; exact IH].
Qed.

Lemma filter_split_length {A : Type} (P : A -> bool) (l : list A) :
  (length (List.filter P l) + length (List.filter (fun x => negb (P x)) l) = length l)%nat.
Proof.
  induction l as [| x l IH]; simpl; [reflexivity |]. destruct (P x); simpl; lia.
Qed.

Lemma filter_key_unique (k : Z) l :
  NoDup (map Row.id l) ->
  (length (List.filter (fun r => (Row.id r =? k)%Z) l) <= 1)%nat.
Proof.
  induction l as [| x l IH]; simpl; intros H; [lia |].
  apply NoDup_cons in H as [Hx H]. specialize (IH H).
  destruct (Z.eqb_spec (Row.id x) k) as [Ex | _]; [| exact IH].
  assert (List.filter (fun r => Row.id r =? k) l = []) as ->; [| simpl; lia].
  destruct (List.filter _ l) as [| y l'] eqn:E; [reflexivity |].
  assert (In y (List.filter (fun r => Row.id r =? k) l)) as Hy by (rewrite E; left; reflexivity).
  apply filter_In in Hy as [Hy Hk]. apply Z.eqb_eq in Hk.
  exfalso. apply Hx. apply list_elem_of_In, in_map_iff. exists y. split; [congruence | exact Hy].
Qed.

Lemma filter_none {A : Type} (P : A -> bool) (l : list A) :
  List.filter P l = [] -> List.filter (fun x => negb (P x)) l = l.
Proof.
  induction l as [| x l IH]; simpl; [reflexivity |].
  destruct (P x); simpl; [discriminate | intros H; rewrite (IH H); reflexivity].
Qed.

(** X20. What [delete] does. For a key that binds, it answers [True]
    exactly when a row had that key; afterwards no row has it, the rows
    under the other keys and the counter are as before, and a table
    that satisfied its constraints has exactly one row less. When it
    answers [False] the database is unchanged. An [update] of the
    deleted player then reports success although it stores nothing. A
    key beyond 64 bits raises [OverflowError] and changes nothing. *)
Theorem delete_semantics (player_id : Z) (d : db) :
  (fits_int64 player_id = true ->
   exists answer d',
     delete player_id d = (Ok answer, d')
     /\ (answer = true <-> exists r, In r (players d) /\ Row.id r = player_id)
     /\ get_by_id d' player_id = Ok None
     /\ (forall other, other <> player_id -> get_by_id d' other = get_by_id d other)
     /\ seq d' = seq d
     /\ (answer = false -> d' = d)
     /\ (consistent d -> answer = true -> count d' = count d - 1)
     /\ (forall now player,
           Models.id player = Some player_id -> ints_bind player = true ->
           update now player d' = ((true, None), player, d')))
  /\ (fits_int64 player_id = false ->
      delete player_id d = (Raise (Exn OverflowError overflow_msg), d)).
Proof.
  split; intros Hfits; unfold delete, bind_int; rewrite Hfits; [| reflexivity].
  set (hit := List.filter (fun r => Row.id r =? player_id) (players d)).
  set (kept := List.filter (fun r => negb (Row.id r =? player_id)) (players d)).
  eexists. eexists. split; [reflexivity |].
  split.
  { rewrite Z.ltb_lt. split.
    - intros H. destruct hit as [| r l] eqn:E; [simpl in H; lia |].
      assert (In r hit) as Hr by (rewrite E; left; reflexivity).
      apply filter_In in Hr as [Hr Hk]. apply Z.eqb_eq in Hk. eauto.
    - intros (r & Hr & Hk).
      assert (In r hit) as Hin by (apply filter_In; split; [exact Hr | apply Z.eqb_eq, Hk]).
      destruct hit; [contradiction | simpl; lia]. }
  split.
  { unfold get_by_id, bind_int. rewrite Hfits. cbn [res_bind players].
    unfold kept. rewrite find_filter_self. reflexivity. }
  split.
  { intros other Hne. unfold get_by_id, bind_int.
    destruct (fits_int64 other); [| reflexivity]. cbn [res_bind players].
    unfold kept. rewrite (find_filter_other player_id other _ Hne). reflexivity. }
  split; [reflexivity |]. split.
  { intros H. apply Z.ltb_ge in H.
    assert (hit = []) as Hnone by (destruct hit; [reflexivity | simpl in H; lia]).
    unfold kept. rewrite (filter_none _ _ Hnone). destruct d. reflexivity. }
  split.
  { intros [Hids _] H. apply Z.ltb_lt in H. unfold count. cbn [players].
    pose proof (filter_split_length (fun r => Row.id r =? player_id) (players d)) as Hsplit.
    pose proof (filter_key_unique player_id (players d) Hids) as Hone.
    cbv beta in Hsplit. unfold hit, kept in *. lia. }
  intros now player Hid Hints. unfold update. rewrite Hid, Hints. cbn [negb players].
  assert (existsb (fun r' => Row.id r' =? player_id) kept = false) as ->; [| reflexivity].
  destruct (existsb _ kept) eqn:E; [| reflexivity].
  apply existsb_exists in E as (r & Hr & Hk).
  apply filter_In in Hr as [_ Hr]. rewrite Hk in Hr. discriminate Hr.
Qed.
End CrudFacts.

(** ** Searching the table *)

Module SearchFacts.
Import Py.
Import Models.
Import Repository.
Import RepositoryCrud.
Import SearchNotions.

Lemma like_percent (pattern text : string) :
  like_match (String "%" pattern) text
  = like_match pattern text
    || match text with
       | EmptyString => false
       | String _ text' => like_match (String "%" pattern) text'
       end.
Proof. destruct text; reflexivity. Qed.

Lemma like_char (p : ascii) (pattern text : string) :
  Ascii.eqb p "%" = false ->
  like_match (String p pattern) text
  = match text with
    | EmptyString => false
    | String c text' =>
        (Ascii.eqb p "_" || Ascii.eqb (ascii_lower c) (ascii_lower p))
        && like_match pattern text'
    end.
Proof. intros H. cbn [like_match]. rewrite H. reflexivity. Qed.

(** A lone [%] matches every text. *)
Lemma like_any (text : string) : like_match "%" text = true.
Proof.
  induction text as [| c text IH]; [reflexivity |].
  rewrite like_percent. rewrite IH. apply orb_true_r.
Qed.

(** [%%...] matches every text. *)
Lemma like_percent_any (pattern text : string) :
  (forall t, like_match pattern t = true) -> like_match (String "%" pattern) text = true.
Proof. intros H. rewrite like_percent, H. reflexivity. Qed.

(** A plain text followed by [%] matches the texts that begin with it. *)
Lemma like_prefix (f : string) :
  plain f = true ->
  forall text, like_match (f +:+ "%") text = String.prefix (nocase f) (nocase text).
Proof.
  unfold plain. induction f as [| p f IH]; intros Hp text.
  - rewrite ScaledUrlFacts.append_nil_l, like_any. cbn [nocase].
    rewrite ScaledUrlFacts.prefix_nil. reflexivity.
  - cbn [list_ascii_of_string forallb] in Hp. apply andb_true_iff in Hp as [Hc Hp].
    apply andb_true_iff in Hc as [Hc _]. apply andb_true_iff in Hc as [Hc1 Hc2].
    apply negb_true_iff in Hc1, Hc2.
    rewrite ScaledUrlFacts.append_cons, (like_char p _ _ Hc1), Hc2. cbn [orb nocase].
    destruct text as [| c text]; [reflexivity |]. cbn [nocase].
    rewrite ScaledUrlFacts.prefix_cons, (IH Hp). f_equal.
    destruct (Ascii.eqb_spec (ascii_lower c) (ascii_lower p)) as [E | E].
    + rewrite bool_decide_eq_true_2 by congruence. reflexivity.
    + rewrite bool_decide_eq_false_2 by congruence. reflexivity.
Qed.

(** A plain text between two [%] matches the texts in which it occurs. *)
Lemma like_contains (f : string) :
  plain f = true ->
  forall text,
    like_match ("%" +:+ f +:+ "%") text = contains (nocase f) (nocase text).
Proof.
  intros Hp. change ("%" +:+ f +:+ "%") with (String "%" (f +:+ "%")).
  induction text as [| c text IH].
  - rewrite like_percent, (like_prefix f Hp). cbn [nocase].
    rewrite ScaledUrlFacts.contains_nil. reflexivity.
  - rewrite like_percent, (like_prefix f Hp), IH. cbn [nocase].
    rewrite ScaledUrlFacts.contains_cons. reflexivity.
Qed.

(** A pattern without U+0000 is read whole. *)
Lemma until_nul_pattern (f : string) :
  plain f = true -> until_nul ("%" +:+ f +:+ "%") = "%" +:+ f +:+ "%".
Proof.
  intros Hp. change ("%" +:+ f +:+ "%") with (String "%" (f +:+ "%")).
  cbn [until_nul]. change (Ascii.eqb "%" Ascii.zero) with false. cbv iota. f_equal.
  unfold plain in Hp. induction f as [| c f IH]; [reflexivity |].
  cbn [list_ascii_of_string forallb] in Hp. apply andb_true_iff in Hp as [Hc Hp].
  apply andb_true_iff in Hc as [_ Hc]. apply negb_true_iff in Hc.
  rewrite ScaledUrlFacts.append_cons. cbn [until_nul]. rewrite Hc, (IH Hp). reflexivity.
Qed.

Lemma like_plain (f text : string) :
  plain f = true ->
  like ("%" +:+ f +:+ "%") text = contains (nocase f) (nocase (until_nul text)).
Proof.
  intros Hp. unfold like. rewrite (until_nul_pattern f Hp). apply (like_contains f Hp).
Qed.

Lemma byte_length_pattern (f : string) :
  byte_length ("%" +:+ f +:+ "%") = byte_length f + 2.
Proof.
  unfold byte_length.
  change ("%" +:+ f +:+ "%") with (String "%" (f +:+ "%")).
  cbn [list_ascii_of_string fold_right]. change (nat_of_ascii "%" <? 128)%nat with true.
  cbv iota.
  assert (H : forall g, fold_right (fun c n => (if (nat_of_ascii c <? 128)%nat then 1 else 2) + n) 0
                          (list_ascii_of_string (g +:+ "%"))
                        = fold_right (fun c n => (if (nat_of_ascii c <? 128)%nat then 1 else 2) + n) 0
                            (list_ascii_of_string g) + 1).
  { induction g as [| c g IH]; [reflexivity |].
    rewrite ScaledUrlFacts.append_cons. cbn [list_ascii_of_string fold_right].
    rewrite IH. lia. }
  rewrite H. lia.
Qed.

Lemma filter_all {A : Type} (P : A -> bool) (l : list A) :
  (forall x, P x = true) -> List.filter P l = l.
Proof.
  intros H. induction l as [| x l IH]; simpl; [reflexivity |]. rewrite H, IH. reflexivity.
Qed.

Section Search.
Variable order_by_ign_nocase : list Row.t -> list Row.t.

(** X21. The search of [get_all]. A filter text without [%], [_] and
    U+0000, of at most 49998 bytes, selects exactly the players in
    whose name, role or team it occurs, the ASCII letters compared
    without regard to case and each column read up to its first
    U+0000; a [NULL] team matches nothing. The wildcards of [LIKE] are
    not escaped: the filter [%] selects every player, as the empty
    filter does, and the filter [_] selects the players with a
    character in their name, role or team. A filter that begins with
    U+0000 and has at most 49998 bytes selects every player too. On a
    table with rows, a filter of more than 49998 bytes raises. *)
Theorem get_all_search (filter_text : string) (d : db) :
  (filter_text <> "" -> plain filter_text = true ->
   byte_length filter_text <= like_pattern_limit - 2 ->
   get_all order_by_ign_nocase filter_text d
   = Ok (map from_row
           (order_by_ign_nocase (List.filter (row_mentions filter_text) (players d)))))
  /\ get_all order_by_ign_nocase "%" d = get_all order_by_ign_nocase "" d
  /\ get_all order_by_ign_nocase "_" d
     = Ok (map from_row (order_by_ign_nocase (List.filter has_text (players d))))
  /\ (byte_length filter_text <= like_pattern_limit - 3 ->
      get_all order_by_ign_nocase (String Ascii.zero filter_text) d
      = get_all order_by_ign_nocase "" d)
  /\ (like_pattern_limit - 2 < byte_length filter_text -> players d <> [] ->
      get_all order_by_ign_nocase filter_text d
      = Raise (Exn PlainException "LIKE or GLOB pattern too complex")).
Proof.
  split; [| split; [| split; [| split]]].
  - intros Hne Hplain Hlen. unfold get_all.
    destruct (String.eqb_spec filter_text "") as [E | _]; [contradiction |]. cbn [negb].
    rewrite byte_length_pattern.
    assert ((like_pattern_limit <? byte_length filter_text + 2) = false) as ->
      by (apply Z.ltb_ge; lia).
    cbn [andb]. do 3 f_equal. apply filter_ext. intros r.
    unfold matches, row_mentions, column_like, mentions.
    rewrite !(like_plain filter_text _ Hplain).
    destruct (Row.team r); [reflexivity |]. rewrite (like_plain filter_text _ Hplain).
    reflexivity.
  - unfold get_all. cbn [String.eqb negb].
    change ("%" +:+ "%" +:+ "%") with "%%%".
    change (like_pattern_limit <? byte_length "%%%") with false. cbn [andb].
    rewrite filter_all; [reflexivity |].
    intros r. unfold matches, like. change (until_nul "%%%") with "%%%".
    rewrite (like_percent_any "%%" (until_nul (Row.ign r))); [reflexivity |].
    intros t. apply like_percent_any, like_any.
  - unfold get_all. cbn [String.eqb negb].
    change ("%" +:+ "_" +:+ "%") with "%_%".
    change (like_pattern_limit <? byte_length "%_%") with false. cbn [andb].
    do 3 f_equal. apply filter_ext. intros r.
    assert (H : forall text, like "%_%" text = negb (String.eqb (until_nul text) "")).
    { intros text. unfold like. change (until_nul "%_%") with (String "%" "_%").
      generalize (until_nul text). clear text. intros text.
      induction text as [| c text IH]; [reflexivity |].
      rewrite like_percent, (like_char "_" "%" _ eq_refl). cbn [Ascii.eqb orb andb].
      rewrite like_any. reflexivity. }
    unfold matches, has_text, column_like, has_character. rewrite !H.
    destruct (Row.team r) as [| t]; [reflexivity | rewrite H; reflexivity].
  - intros Hlen. unfold get_all. cbn [String.eqb negb].
    rewrite byte_length_pattern.
    assert (byte_length (String Ascii.zero filter_text) = byte_length filter_text + 1) as ->.
    { unfold byte_length. cbn [list_ascii_of_string fold_right].
      change (nat_of_ascii Ascii.zero <? 128)%nat with true. cbv iota. lia. }
    assert ((like_pattern_limit <? byte_length filter_text + 1 + 2) = false) as ->
      by (apply Z.ltb_ge; lia).
    cbn [andb]. rewrite filter_all; [reflexivity |].
    intros r. unfold matches, like.
    change (until_nul ("%" +:+ String Ascii.zero filter_text +:+ "%")) with "%".
    rewrite like_any. reflexivity.
  - intros Hlong Hrows. unfold get_all.
    destruct (String.eqb_spec filter_text "") as [-> | _].
    { exfalso. change (byte_length "") with 0 in Hlong. unfold like_pattern_limit in Hlong. lia. }
    cbn [negb]. rewrite byte_length_pattern.
    assert ((like_pattern_limit <? byte_length filter_text + 2) = true) as ->
      by (apply Z.ltb_lt; lia).
    destruct (players d); [contradiction | reflexivity].
Qed.
End Search.
End SearchFacts.

(** ** Adding and updating players by hand *)

Module ServiceFacts.
Import Py.
Import Models.
Import Repository.
Import PlayerService.
Import PlayerServiceOps.
Import RepositoryNotions.
Import ServiceNotions.

Lemma lstrip_spec (l : list ascii) :
  exists spaces,
    l = spaces ++ lstrip l
    /\ match lstrip l with
       | [] => True
       | c :: _ => is_space c = false
       end.
Proof.
  induction l as [| c l IH]; [exists []; simpl; auto |].
  destruct IH as (spaces & Hl & Hhead). cbn [lstrip]. destruct (is_space c) eqn:Hc.
  - exists (c :: spaces). split; [simpl; congruence | exact Hhead].
  - exists []. auto.
Qed.

Lemma last_app_singleton {A : Type} (l : list A) (x d : A) : List.last (l ++ [x]) d = x.
Proof. induction l as [| y l IH]; [reflexivity |]. simpl. destruct (l ++ [x]) eqn:E; [destruct l; discriminate | exact IH]. Qed.

(** What [strip] returns is empty or begins and ends with a character
    that is no white space. *)
Lemma strip_result_tight (l : list ascii) :
  match strip l with
  | [] => True
  | c :: rest => is_space c = false /\ is_space (List.last rest c) = false
  end.
Proof.
  unfold strip.
  destruct (lstrip_spec l) as (sp1 & _ & Hhead).
  set (m := lstrip l) in *.
  destruct (lstrip_spec (rev m)) as (sp2 & Hm & Htail).
  set (n := lstrip (rev m)) in *.
  destruct n as [| z n']; [exact I |].
  assert (Em : m = rev n' ++ z :: rev sp2).
  { rewrite <- (rev_involutive m), Hm, rev_app_distr. cbn [rev].
    rewrite <- app_assoc. reflexivity. }
  cbn [rev]. destruct (rev n') as [| c t] eqn:En.
  - simpl. auto.
  - cbn [app]. rewrite Em in Hhead. cbn [app] in Hhead.
    split; [exact Hhead |]. rewrite last_app_singleton. exact Htail.
Qed.

Lemma str_strip_tight (s : string) : tight (str_strip s).
Proof.
  unfold tight, str_strip. rewrite list_ascii_of_string_of_list_ascii. apply strip_result_tight.
Qed.

Lemma lstrip_nil (l : list ascii) : lstrip l = [] <-> forallb is_space l = true.
Proof.
  induction l as [| c l IH]; [split; reflexivity |].
  cbn [lstrip forallb]. destruct (is_space c); [exact IH | split; discriminate].
Qed.

Lemma strip_nil (l : list ascii) : strip l = [] <-> forallb is_space l = true.
Proof.
  unfold strip. split.
  - intros H. apply (f_equal (@rev ascii)) in H. rewrite rev_involutive in H. cbn [rev] in H.
    apply lstrip_nil in H.
    assert (Hall : forallb is_space (lstrip l) = true).
    { apply forallb_forall. intros c Hc.
      apply (proj1 (forallb_forall _ _) H). apply in_rev in Hc. exact Hc. }
    apply lstrip_nil. destruct (lstrip_spec l) as (_ & _ & Hhead).
    destruct (lstrip l) as [| c rest]; [reflexivity |].
    cbn [forallb] in Hall. rewrite Hhead in Hall. discriminate Hall.
  - intros H. apply lstrip_nil in H. rewrite H. reflexivity.
Qed.

(** The guard refuses the blank names, and no other. *)
Lemma name_missing_blank name : name_missing name = blank name.
Proof.
  destruct name as [| s]; [reflexivity |]. unfold name_missing, blank. cbn [truthy].
  rewrite !negb_involutive.
  destruct (forallb is_space (list_ascii_of_string s)) eqn:Hall.
  - apply strip_nil in Hall. unfold str_strip. rewrite Hall. apply orb_true_r.
  - apply orb_false_iff. split.
    + destruct s; [discriminate Hall | reflexivity].
    + apply String.eqb_neq. intros E. unfold str_strip in E.
      assert (strip (list_ascii_of_string s) = []) as Hnil.
      { destruct (strip (list_ascii_of_string s)); [reflexivity | discriminate E]. }
      apply strip_nil in Hnil. congruence.
Qed.

Lemma name_missing_false name :
  name_missing name = false ->
  exists s, name = PyStr s /\ s <> "" /\ str_strip s <> "".
Proof.
  destruct name as [| s]; [discriminate |]. unfold name_missing. cbn [truthy].
  rewrite !negb_involutive. intros H. apply orb_false_iff in H as [H1 H2].
  exists s. split; [reflexivity |].
  split; intros E; [rewrite E in H1 | rewrite E in H2]; discriminate.
Qed.

(** X22. The checks of [add_player] and [update_player]. A name that is
    [None], empty or white space only, and no other, is refused with
    "Player name cannot be empty", and [update_player] refuses a player
    without a key before it looks at the name; a refusal changes
    nothing. Otherwise the name is stripped before the repository is
    called, so a player that [add_player] stores is found under the
    stripped name, which is not empty and neither begins nor ends with
    white space, with the fields that were passed and the minutes as
    the [REAL] column keeps them. *)
Theorem add_player_validates (now : datetime) (player : Player) (d : db) :
  name_missing (ign player) = blank (ign player)
  /\ (blank (ign player) = true ->
   add_player now player d = ((false, Some "Player name cannot be empty"), player, d)
   /\ update_player now player d
      = ((false, Some (match id player with
                       | Some _ => "Player name cannot be empty"
                       | None => "Player ID is required for update"
                       end)), player, d))
  /\ (id player = None ->
      update_player now player d
      = ((false, Some "Player ID is required for update"), player, d))
  /\ (blank (ign player) = false ->
      exists s,
        ign player = PyStr s
        /\ str_strip s <> "" /\ tight (str_strip s)
        /\ add_player now player d = add now (set_ign player (PyStr (str_strip s))) d
        /\ (id player <> None ->
            update_player now player d
            = update now (set_ign player (PyStr (str_strip s))) d)
        /\ (forall player' d',
              add_player now player d = ((true, None), player', d') ->
              ign player' = PyStr (str_strip s)
              /\ exists rowid,
                   id player' = Some rowid
                   /\ get_by_ign d' (PyStr (str_strip s))
                      = Some (stored (set_ign player (PyStr (str_strip s))) rowid now))).
Proof.
  split; [apply name_missing_blank |]. rewrite <- name_missing_blank.
  split; [| split].
  - intros H. unfold add_player, update_player. rewrite H.
    destruct (id player); auto.
  - intros H. unfold update_player. rewrite H. reflexivity.
  - intros H. destruct (name_missing_false _ H) as (s & Hs & _ & Hne).
    exists s. split; [exact Hs |]. split; [exact Hne |]. split; [apply str_strip_tight |].
    unfold add_player, update_player. rewrite H, Hs. cbn [stripped].
    split; [reflexivity |]. split.
    { intros Hid. destruct (id player); [reflexivity | contradiction]. }
    intros player' d' Hadd.
    destruct (CrudFacts.add_cases now (set_ign player (PyStr (str_strip s))) d)
      as [[msg E] | (r & _ & Hbind & Hfree & E)]; rewrite E in Hadd; [discriminate Hadd |].
    injection Hadd as <- <-. split; [reflexivity |].
    eexists. split; [reflexivity |].
    destruct (RepositoryFacts.bind_row_fields _ _ _ _ Hbind) as (_ & Hign & Hread).
    cbn [set_ign ign] in Hign. injection Hign as Hign.
    unfold get_by_ign. cbn [players].
    rewrite RepositoryFacts.find_app_named, Hign, (CrudFacts.find_None_existsb _ _ Hfree).
    simpl. rewrite String.eqb_refl. simpl. rewrite Hread, Hign. reflexivity.
Qed.
End ServiceFacts.

(** ** The distributions of the dashboard *)

Module StatsFacts.
Import Py.
Import Models.
Import Repository.
Import RepositoryCrud.
Import StatsService.
Import StatsNotions.

Lemma insert_row_permutation r sorted : Permutation (insert_row r sorted) (r :: sorted).
Proof.
  induction sorted as [| x rest IH]; simpl; [reflexivity |].
  destruct (nocase_le (Row.ign x) (Row.ign r)); [| reflexivity].
  rewrite IH. apply perm_swap.
Qed.

Lemma sort_rows_permutation rows : Permutation (sort_rows rows) rows.
Proof.
  unfold sort_rows.
  assert (H : forall acc, Permutation (fold_left (fun sorted r => insert_row r sorted) rows acc)
                            (rows ++ acc)).
  { induction rows as [| r rows IH]; intros acc; simpl; [reflexivity |].
    rewrite IH, insert_row_permutation. symmetry. apply Permutation_middle. }
  rewrite (H []). rewrite app_nil_r. reflexivity.
Qed.

Lemma tally_cons key k keys :
  tally key (k :: keys) = (if bool_decide (k = key) then 1 else 0) + tally key keys.
Proof. unfold tally. simpl. destruct (bool_decide (k = key)); simpl; lia. Qed.

Lemma tally_nonneg key keys : 0 <= tally key keys.
Proof. unfold tally. lia. Qed.

Lemma tally_permutation key keys keys' :
  Permutation keys keys' -> tally key keys = tally key keys'.
Proof.
  intros H. unfold tally. f_equal. apply Permutation_length.
  induction H; simpl.
  - reflexivity.
  - destruct (bool_decide (x = key)); [constructor |]; assumption.
  - destruct (bool_decide (x = key)), (bool_decide (y = key)); try reflexivity.
    apply perm_swap.
  - etransitivity; eassumption.
Qed.

(** The entry of a key after the counting loop. *)
Lemma count_fold (field : Player -> pyval) (l : list Player) :
  forall distribution key,
    PyDict.get (fold_left (count_step field) l distribution) key
    = match PyDict.get distribution key with
      | Some n => Some (n + tally key (map (fun p => or_unknown (field p)) l))
      | None => entry key (map (fun p => or_unknown (field p)) l)
      end.
Proof.
  induction l as [| p l IH]; intros distribution key.
  - simpl. unfold entry, tally. simpl.
    destruct (PyDict.get distribution key); [f_equal; lia | reflexivity].
  - cbn [fold_left map]. rewrite IH. unfold count_step.
    rewrite tally_cons. unfold entry. rewrite tally_cons.
    pose proof (tally_nonneg key (map (fun p => or_unknown (field p)) l)) as Hn.
    destruct (decide (or_unknown (field p) = key)) as [E | E].
    + rewrite E, AggregatorFacts.dict_get_set_eq.
      rewrite bool_decide_eq_true_2 by reflexivity.
      destruct (PyDict.get distribution key) as [n |]; cbn [default]; unfold Datatypes.id.
      * f_equal. lia.
      * destruct (Z.eqb_spec (1 + tally key (map (fun p => or_unknown (field p)) l)) 0);
          [lia | f_equal; lia].
    + rewrite (AggregatorFacts.dict_get_set_ne _ _ _ _ E).
      rewrite bool_decide_eq_false_2 by exact E. reflexivity.
Qed.

Lemma counted_fold (field : Player -> pyval) (l : list Player) :
  forall distribution,
    counted (fold_left (count_step field) l distribution)
    = counted distribution + Z.of_nat (length l).
Proof.
  induction l as [| p l IH]; intros distribution; [simpl; lia |].
  cbn [fold_left length]. rewrite IH. unfold count_step.
  pose proof (TotalsFacts.total_set (fun n : Z => n) distribution
                (or_unknown (field p))
                (default 0 (PyDict.get distribution (or_unknown (field p))) + 1)) as H.
  unfold TotalsNotions.total in H. unfold counted. rewrite H.
  destruct (PyDict.get distribution (or_unknown (field p))); cbn [default];
    unfold Datatypes.id; lia.
Qed.

Section Distributions.
Variable order_by_ign_nocase : list Row.t -> list Row.t.
Hypothesis order_permutes : forall rows, Permutation (order_by_ign_nocase rows) rows.

Lemma distribution_of (field : Player -> pyval) (key_of : Row.t -> pyval) (d : db) :
  (forall r, or_unknown (field (from_row r)) = key_of r) ->
  let distribution :=
    fold_left (count_step field) (map from_row (order_by_ign_nocase (players d))) [] in
  (forall key, PyDict.get distribution key = entry key (map key_of (players d)))
  /\ counted distribution = count d.
Proof.
  intros Hkey distribution. subst distribution. split.
  - intros key. rewrite count_fold. cbn [PyDict.get].
    rewrite map_map. unfold entry.
    rewrite (tally_permutation key _ (map key_of (players d))); [reflexivity |].
    rewrite (map_ext _ key_of) by exact Hkey.
    apply Permutation_map, order_permutes.
  - rewrite counted_fold. unfold counted, count. cbn [fold_right].
    rewrite length_map, (Permutation_length (order_permutes (players d))). lia.
Qed.

(** X23. The distributions of the dashboard. For every ordering that
    [get_all] may return the rows in, [get_role_distribution] and
    [get_team_distribution] return without an error; a key has an entry
    exactly when some player falls under it, and the entry is the
    number of those players, the players with an empty role (an empty
    or [NULL] team) being counted under "Unknown" together with those
    whose role (team) is spelled that way; the counts add up to the
    number of players. *)
Theorem distribution_counts (d : db) :
  exists roles teams,
    get_role_distribution order_by_ign_nocase d = Ok roles
    /\ get_team_distribution order_by_ign_nocase d = Ok teams
    /\ (forall key, PyDict.get roles key = entry key (map role_key (players d)))
    /\ (forall key, PyDict.get teams key = entry key (map team_key (players d)))
    /\ counted roles = count d
    /\ counted teams = count d.
Proof.
  unfold get_role_distribution, get_team_distribution, get_all. cbn [String.eqb negb res_bind].
  destruct (distribution_of role role_key d) as [Hr Hrc]; [reflexivity |].
  destruct (distribution_of team team_key d) as [Ht Htc]; [reflexivity |].
  eexists. eexists. split; [reflexivity |]. split; [reflexivity |]. auto.
Qed.
End Distributions.

(** The roster under the insertion sort: two mid laners and one player
    of unknown role; one player each for T1 and GEN, one of unknown
    team. *)
Lemma distribution_counts_witness :
  exists roles teams,
    get_role_distribution sort_rows roster = Ok roles
    /\ get_team_distribution sort_rows roster = Ok teams
    /\ (forall key, PyDict.get roles key = entry key (map role_key (players roster)))
    /\ (forall key, PyDict.get teams key = entry key (map team_key (players roster)))
    /\ counted roles = count roster
    /\ counted teams = count roster.
Proof. apply (distribution_counts sort_rows sort_rows_permutation roster). Defined.
End StatsFacts.

(** ** The choice of a player image *)

Module ImageFacts.
Import Py.
Import Leaguepedia.
Import ImageSearch.
Import ImageNotions.

Lemma prefix_split (sub s : string) :
  String.prefix sub s = true <-> exists post, s = sub +:+ post.
Proof.
  revert s. induction sub as [| c sub IH]; intros s.
  - rewrite ScaledUrlFacts.prefix_nil. split; [intros _; exists s; reflexivity | reflexivity].
  - destruct s as [| x s]; [split; [discriminate | intros [post H]; discriminate H] |].
    rewrite ScaledUrlFacts.prefix_cons, andb_true_iff, bool_decide_eq_true, IH. split.
    + intros [-> [post ->]]. exists post. reflexivity.
    + intros [post H]. rewrite ScaledUrlFacts.append_cons in H. injection H as -> ->. eauto.
Qed.

(** [sub in s]: [s] is [sub] between two texts. *)
Lemma contains_split (sub s : string) :
  contains sub s = true <-> exists pre post, s = pre +:+ sub +:+ post.
Proof.
  induction s as [| x s IH].
  - rewrite ScaledUrlFacts.contains_nil, orb_false_r, prefix_split. split.
    + intros [post H]. exists "", post. exact H.
    + intros (pre & post & H). destruct pre; [eauto | discriminate H].
  - rewrite ScaledUrlFacts.contains_cons, orb_true_iff, prefix_split, IH. split.
    + intros [[post H] | (pre & post & H)].
      * exists "", post. exact H.
      * exists (String x pre), post. rewrite ScaledUrlFacts.append_cons, H. reflexivity.
    + intros (pre & post & H). destruct pre as [| y pre].
      * left. exists post. exact H.
      * right. rewrite ScaledUrlFacts.append_cons in H. injection H as -> ->. eauto.
Qed.

Lemma contains_trans (a b c : string) :
  contains a b = true -> contains b c = true -> contains a c = true.
Proof.
  rewrite !contains_split. intros (p1 & q1 & ->) (p2 & q2 & ->).
  exists (p2 +:+ p1), (q1 +:+ q2). rewrite !ScaledUrlFacts.append_assoc. reflexivity.
Qed.

(** A turn of the scan in terms of the candidate score. *)
Lemma scan_step_candidate player_lower team_lower best img :
  scan_step player_lower team_lower best img
  = match lower_method (get_or img "name" (PyStr "")) with
    | Raise e => Raise e
    | Ok _ =>
        match candidate player_lower team_lower img with
        | Some score => if snd best <? score then Ok (Some img, score) else Ok best
        | None => Ok best
        end
    end.
Proof.
  unfold scan_step, candidate.
  destruct (lower_method (get_or img "name" (PyStr ""))) as [img_name | e]; [| reflexivity].
  cbn [res_bind]. destruct (qualifies player_lower img_name); reflexivity.
Qed.

(** The best image is carried from one response to the next: two scans
    in a row are the scan of the images of both. *)
Lemma scan_images_app player_lower team_lower first second :
  forall start,
    scan_images player_lower team_lower start (first ++ second)
    = res_bind (scan_images player_lower team_lower start first)
        (fun best => scan_images player_lower team_lower best second).
Proof.
  induction first as [| img first IH]; intros start; [reflexivity |].
  cbn [app scan_images].
  destruct (scan_step player_lower team_lower start img) as [best | e]; [| reflexivity].
  cbn [res_bind]. apply IH.
Qed.

(** The scan from any starting point: the score never goes down and
    ends at or above every candidate; either nothing beats the start,
    or the result is the first image that reaches the final score. *)
Lemma scan_images_spec player_lower team_lower images :
  forall start final,
    scan_images player_lower team_lower start images = Ok final ->
    (forall img score,
        In img images -> candidate player_lower team_lower img = Some score ->
        score <= snd final)
    /\ ((final = start
         /\ forall img score,
              In img images -> candidate player_lower team_lower img = Some score ->
              score <= snd start)
        \/ (exists before img after,
              images = before ++ img :: after
              /\ final = (Some img, snd final)
              /\ candidate player_lower team_lower img = Some (snd final)
              /\ snd start < snd final
              /\ forall img' score,
                   In img' before -> candidate player_lower team_lower img' = Some score ->
                   score < snd final)).
Proof.
  induction images as [| img images IH]; intros start final Hrun.
  - injection Hrun as <-. split; [intros ? ? [] |]. left. split; [reflexivity | intros ? ? []].
  - cbn [scan_images] in Hrun. rewrite scan_step_candidate in Hrun.
    destruct (lower_method (get_or img "name" (PyStr ""))) as [img_name | e];
      [| discriminate Hrun].
    destruct (candidate player_lower team_lower img) as [score |] eqn:Hcand.
    + destruct (Z.ltb_spec (snd start) score) as [Hlt | Hge]; cbn [res_bind] in Hrun.
      * destruct (IH _ _ Hrun) as [Hmax Hcase]. cbn [snd] in *.
        assert (Hscore : score <= snd final).
        { destruct Hcase as [[-> _] | (b & i & a & _ & _ & _ & H & _)]; simpl; lia. }
        split.
        { intros img' score' [<- | Hin] Hc; [| apply (Hmax img' score' Hin Hc)].
          rewrite Hcand in Hc. injection Hc as <-. exact Hscore. }
        right. destruct Hcase as [[-> Hall] | (b & i & a & -> & Hf & Hc & Hs & Hb)].
        -- exists [], img, images. cbn [snd app]. split; [reflexivity |].
           split; [reflexivity |]. split; [exact Hcand |]. split; [exact Hlt |].
           intros ? ? [].
        -- exists (img :: b), i, a. split; [reflexivity |]. split; [exact Hf |].
           split; [exact Hc |]. split; [lia |].
           intros img' score' [<- | Hin] Hc'; [| apply (Hb img' score' Hin Hc')].
           rewrite Hcand in Hc'. injection Hc' as <-. exact Hs.
      * destruct (IH _ _ Hrun) as [Hmax Hcase].
        assert (Hstart : snd start <= snd final).
        { destruct Hcase as [[-> _] | (b & i & a & _ & _ & _ & H & _)]; lia. }
        split.
        { intros img' score' [<- | Hin] Hc; [| apply (Hmax img' score' Hin Hc)].
          rewrite Hcand in Hc. injection Hc as <-. lia. }
        destruct Hcase as [[-> Hall] | (b & i & a & -> & Hf & Hc & Hs & Hb)].
        -- left. split; [reflexivity |].
           intros img' score' [<- | Hin] Hc'; [| apply (Hall img' score' Hin Hc')].
           rewrite Hcand in Hc'. injection Hc' as <-. exact Hge.
        -- right. exists (img :: b), i, a. split; [reflexivity |]. split; [exact Hf |].
           split; [exact Hc |]. split; [exact Hs |].
           intros img' score' [<- | Hin] Hc'; [| apply (Hb img' score' Hin Hc')].
           rewrite Hcand in Hc'. injection Hc' as <-. lia.
    + cbn [res_bind] in Hrun. destruct (IH _ _ Hrun) as [Hmax Hcase].
      split.
      { intros img' score' [<- | Hin] Hc; [| apply (Hmax img' score' Hin Hc)].
        rewrite Hcand in Hc. discriminate Hc. }
      destruct Hcase as [[-> Hall] | (b & i & a & -> & Hf & Hc & Hs & Hb)].
      * left. split; [reflexivity |].
        intros img' score' [<- | Hin] Hc'; [| apply (Hall img' score' Hin Hc')].
        rewrite Hcand in Hc'. discriminate Hc'.
      * right. exists (img :: b), i, a. split; [reflexivity |]. split; [exact Hf |].
        split; [exact Hc |]. split; [exact Hs |].
        intros img' score' [<- | Hin] Hc'; [| apply (Hb img' score' Hin Hc')].
        rewrite Hcand in Hc'. discriminate Hc'.
Qed.

(** X24. The image that the scan of [search_player_image] settles on.
    When the scan of the images of the responses, taken in their
    order and started without an image, returns: no candidate among
    them scores above the final score; if an image was chosen, it is
    the first candidate that reaches the final score, which is not
    negative; and if none was chosen, every candidate scores below
    zero, so that an image that passes all tests but has a negative
    score is never chosen. *)
Theorem scan_images_picks_best
    (player_lower team_lower : string) (images : list row)
    (best_image : option row) (best_score : Z) :
  scan_images player_lower team_lower no_image images = Ok (best_image, best_score) ->
  (forall img score,
      In img images -> candidate player_lower team_lower img = Some score ->
      score <= best_score)
  /\ match best_image with
     | Some chosen =>
         0 <= best_score
         /\ candidate player_lower team_lower chosen = Some best_score
         /\ exists before after,
              images = before ++ chosen :: after
              /\ forall img score,
                   In img before -> candidate player_lower team_lower img = Some score ->
                   score < best_score
     | None =>
         best_score = -1
         /\ forall img score,
              In img images -> candidate player_lower team_lower img = Some score ->
              score < 0
     end.
Proof.
  intros Hrun.
  destruct (scan_images_spec player_lower team_lower images no_image _ Hrun) as [Hmax Hcase].
  cbn [snd] in *. split; [exact Hmax |].
  destruct Hcase as [[E Hall] | (before & img & after & Himages & E & Hc & Hs & Hb)].
  - injection E as -> ->. split; [reflexivity |].
    intros img score Hin Hcand. specialize (Hall img score Hin Hcand). simpl in Hall. lia.
  - injection E as ->. simpl in Hs. split; [lia |]. split; [exact Hc |].
    exists before, after. split; [exact Himages | exact Hb].
Qed.

(** Two portraits of Faker's and a logo: the portrait of 2025 wins with
    50 points for the year and 10 for the upload year. *)
Lemma scan_images_picks_best_witness :
  let images := [ image "Faker_2024.png" "2024-01-05T10:00:00Z";
                  image "T1_logo_Faker.png" "2025-01-05T10:00:00Z";
                  image "Faker_2025.png" "2025-02-01T09:30:00Z" ] in
  scan_images (player_key "Faker") (team_key (PyStr "T1")) no_image images
  = Ok (Some (image "Faker_2025.png" "2025-02-01T09:30:00Z"), 60)
  /\ forall img score,
       In img images ->
       candidate (player_key "Faker") (team_key (PyStr "T1")) img = Some score ->
       score <= 60.
Proof.
  intros images.
  assert (Hrun : scan_images (player_key "Faker") (team_key (PyStr "T1")) no_image images
                 = Ok (Some (image "Faker_2025.png" "2025-02-01T09:30:00Z"), 60))
    by (vm_compute; reflexivity).
  split; [exact Hrun |].
  apply (scan_images_picks_best _ _ _ _ _ Hrun).
Defined.

(** X25. Names that the scan cannot serve. When the key of the player
    name (lower case, spaces as underscores) contains one of the skip
    patterns, such as "tab", "team" or "split", every image with the
    name in it is skipped: the scan leaves the best image as it found
    it, whatever the images are. *)
Theorem scan_skips_pattern_names
    (player_name : string) (team_lower skip : string) (best : option row * Z)
    (images : list row) :
  In skip skip_patterns ->
  contains skip (player_key player_name) = true ->
  (forall img, candidate (player_key player_name) team_lower img = None)
  /\ match scan_images (player_key player_name) team_lower best images with
     | Ok best' => best' = best
     | Raise _ => True
     end.
Proof.
  intros Hskip Hin.
  assert (Hnone : forall img, candidate (player_key player_name) team_lower img = None).
  { intros img. unfold candidate.
    destruct (lower_method (get_or img "name" (PyStr ""))) as [img_name | e]; [| reflexivity].
    destruct (qualifies (player_key player_name) img_name) eqn:Hq; [| reflexivity].
    unfold qualifies in Hq. apply andb_true_iff in Hq as [Hq Hname].
    apply andb_true_iff in Hq as [_ Hno]. apply negb_true_iff in Hno.
    assert (existsb (fun skip => contains skip img_name) skip_patterns = true) as Hyes.
    { apply existsb_exists. exists skip. split; [exact Hskip |].
      apply (contains_trans skip (player_key player_name) img_name Hin Hname). }
    congruence. }
  split; [exact Hnone |].
  induction images as [| img images IH]; [reflexivity |].
  cbn [scan_images]. rewrite scan_step_candidate, Hnone.
  destruct (lower_method (get_or img "name" (PyStr ""))); [exact IH | exact I].
Qed.

(** The player Tabe: "tab" is a skip pattern. *)
Lemma scan_skips_pattern_names_witness :
  scan_images (player_key "Tabe") "" no_image
    [image "Tabe_2025.png" "2025-02-01T09:30:00Z"] = Ok no_image.
Proof.
  destruct (scan_skips_pattern_names "Tabe" "" "tab" no_image
              [image "Tabe_2025.png" "2025-02-01T09:30:00Z"]) as [_ H].
  - vm_compute. tauto.
  - reflexivity.
  - destruct (scan_images (player_key "Tabe") "" no_image
                [image "Tabe_2025.png" "2025-02-01T09:30:00Z"]) as [best | e] eqn:E.
    + rewrite H. reflexivity.
    + vm_compute in E. discriminate E.
Defined.
End ImageFacts.
